(** * EMUPS5: the instruction-set emulator cores, embedded and verified

    The repository holds four stand-alone variants of one small emulator
    (CPU, Memory, Emulator classes plus Tk glue).  This development embeds
    the cores of three of them:

    - [EMUPS55]  : EMUPS55.17.25V0hdr.py   (16 registers, 64KB, 64x64, opcodes 0..5)
    - [PS5EMU1]  : PS5EMU1.06.29.251.0.py  (16 registers, 128KB, 128x128, opcodes 0..7,
                                            bounds-checked Memory)
    - [V1]       : v1.py                   (256 registers, 16GB of uint64 words,
                                            no decoder, stand-alone framebuffer)

    Integers are [Z] with the wrap-around of the numpy dtype written out,
    byte arrays are [list Z] of values below 256, Python exceptions are the
    [Raise] results of an error monad, and the numpy arrays shared between
    objects live in an explicit heap.  Arithmetic is that of NumPy 2: a
    Python int is exact, while a uint32 scalar (a register, a word read
    from memory) plus a Python int is again a uint32 and wraps at 32 bits.
    The bounds-checked Memory therefore takes the type of an address along
    with its value. *)

From stdpp Require Import list strings pretty.
From Stdlib Require Import ZArith Lia.

Local Open Scope Z_scope.

(** ** Python exceptions *)

Inductive exn : Type :=
| IndexError
| ValueError.

Inductive result (A : Type) : Type :=
| Ok (a : A)
| Raise (e : exn).

Arguments Ok {A} a.
Arguments Raise {A} e.

Definition result_bind {A B : Type} (f : A -> result B) (r : result A) : result B :=
  match r with
  | Ok a => f a
  | Raise e => Raise e
  end.

#[global] Instance result_ret : MRet result := @Ok.
#[global] Instance result_mbind : MBind result := @result_bind.

(** ** numpy primitives *)

Module Numpy.

(** [len(l)] as a Python integer. *)
Definition len {A : Type} (l : list A) : Z := Z.of_nat (length l).

(** One bound of a slice [l[a:b]], clipped the way [slice.indices] does:
    a negative bound counts from the end, and both saturate at [0] and
    [len]. *)
Definition clip (n i : Z) : Z :=
  if i <? 0 then Z.max (i + n) 0 else Z.min i n.

(** Number of elements selected by [l[a:b]]. *)
Definition slice_len (n a b : Z) : Z := Z.max (clip n b - clip n a) 0.

(** [l[a:b]] (basic slicing never raises). *)
Definition slice {A : Type} (l : list A) (a b : Z) : list A :=
  take (Z.to_nat (slice_len (len l) a b)) (drop (Z.to_nat (clip (len l) a)) l).

(** [l[a:b] = vals] on a one-dimensional array, in place.  The right-hand
    side must have the shape of the slice, or be a single element, which
    numpy broadcasts; any other shape is a [ValueError]. *)
Definition slice_assign (l : list Z) (a b : Z) (vals : list Z) : result (list Z) :=
  let lo := Z.to_nat (clip (len l) a) in
  let n := Z.to_nat (slice_len (len l) a b) in
  if len vals =? Z.of_nat n then
    Ok (take lo l ++ vals ++ drop (lo + n) l)
  else if len vals =? 1 then
    Ok (take lo l ++ replicate n (hd 0 vals) ++ drop (lo + n) l)
  else Raise ValueError.

(** [l[i]] for an integer index: negative indices count from the end,
    anything outside raises [IndexError]. *)
Definition index (n i : Z) : result Z :=
  if (0 <=? i) && (i <? n) then Ok i
  else if (- n <=? i) && (i <? 0) then Ok (i + n)
  else Raise IndexError.

Definition getitem (l : list Z) (i : Z) : result Z :=
  k ← index (len l) i; Ok (l !!! Z.to_nat k).

Definition setitem (l : list Z) (i : Z) (v : Z) : result (list Z) :=
  k ← index (len l) i; Ok (<[Z.to_nat k := v]> l).

(** Casts to the unsigned dtypes. *)
Definition uint8 (v : Z) : Z := v mod 2 ^ 8.
Definition uint32 (v : Z) : Z := v mod 2 ^ 32.
Definition uint64 (v : Z) : Z := v mod 2 ^ 64.

(** What holds an integer: a Python [int], or a numpy uint32 scalar. *)
Inductive dtype : Type :=
| py_int
| np_uint32.

(** [a + n] for [a] of type [t] and a Python int [n]: the sum keeps the
    type of [a], and a uint32 wraps. *)
Definition add (t : dtype) (a n : Z) : Z :=
  match t with
  | py_int => a + n
  | np_uint32 => uint32 (a + n)
  end.

(** Little-endian value of a run of bytes, and its inverse on [n] bytes. *)
Fixpoint le_combine (bs : list Z) : Z :=
  match bs with
  | [] => 0
  | b :: bs' => b + 2 ^ 8 * le_combine bs'
  end.

Fixpoint le_split (n : nat) (v : Z) : list Z :=
  match n with
  | O => []
  | S n' => v mod 2 ^ 8 :: le_split n' (v / 2 ^ 8)
  end.

Fixpoint chunks (w k : nat) (bs : list Z) : list (list Z) :=
  match k with
  | O => []
  | S k' => take w bs :: chunks w k' (drop w bs)
  end.

(** [np.frombuffer(buf, dtype)] for an unsigned dtype of [w] bytes: the
    buffer must hold a whole number of elements. *)
Definition frombuffer (w : nat) (buf : list Z) : result (list Z) :=
  if (length buf mod w =? 0)%nat
  then Ok (le_combine <$> chunks w (length buf / w) buf)
  else Raise ValueError.

(** [np.frombuffer(np.array([value], dtype=np.uint32), dtype=np.uint8)]
    for a uint32 scalar or a Python int of the dtype's range, which is
    what every call in the sources passes. *)
Definition bytes_of_uint32 (value : Z) : list Z := le_split 4 (uint32 value).

End Numpy.

Import Numpy.

(** ** Methods as state transformers that may raise

    A method takes the object graph [S] and returns its result, or the
    exception it raised, together with the graph as the call left it. *)

Definition St (S A : Type) : Type := S -> result A * S.

Definition St_ret {S A : Type} (a : A) : St S A := fun s => (Ok a, s).

Definition St_bind {S A B : Type} (f : A -> St S B) (m : St S A) : St S B :=
  fun s =>
    match m s with
    | (Ok a, s') => f a s'
    | (Raise e, s') => (Raise e, s')
    end.

#[global] Instance St_mret {S : Type} : MRet (St S) := @St_ret S.
#[global] Instance St_mbind {S : Type} : MBind (St S) := @St_bind S.

Definition modify {S : Type} (f : S -> S) : St S unit := fun s => (Ok tt, f s).

Definition gets {S A : Type} (f : S -> A) : St S A := fun s => (Ok (f s), s).

Definition lift {S A : Type} (r : result A) : St S A := fun s => (r, s).

(** The state a call leaves behind, and whether it returned. *)
Definition after {S A : Type} (m : St S A) (s : S) : S := snd (m s).

Definition returns {S A : Type} (m : St S A) (s : S) : Prop :=
  exists a, fst (m s) = Ok a.

(** [for x in xs: body(x)] *)
Fixpoint for_each {S A : Type} (body : A -> St S unit) (xs : list A) : St S unit :=
  match xs with
  | [] => mret tt
  | x :: xs' => body x;; for_each body xs'
  end.

(** [range(0, stop, step)] for a positive step. *)
Definition py_range (stop step : Z) : list Z :=
  (fun k => step * Z.of_nat k) <$> seq 0 (Z.to_nat ((stop + step - 1) / step)).

(** [enumerate(xs)] *)
Definition enumerate {A : Type} (xs : list A) : list (Z * A) :=
  imap (fun i x => (Z.of_nat i, x)) xs.

(** ** Events *)

(** Entries of [log_queue] are [(severity, message)], entries of
    [status_queue] are [(label, severity)]; [Queue.put] appends. *)
Definition event : Type := string * string.

(** ** The object graph of the 32-bit variants

    [EMUPS55] and [PS5EMU1] build the same objects.  [Memory.memory] is a
    numpy array; [Emulator.framebuffer] is a slice of it, that is a view on
    the same buffer.  The heap holds the buffers, the objects hold
    references. *)

Record CPU : Type := mkCPU {
  registers : list Z;
  pc : Z
}.

(** A one-dimensional window [start, stop) on the buffer [base]. *)
Record view : Type := mkView {
  base : nat;
  start : Z;
  stop_ : Z
}.

Record Emulator : Type := mkEmulator {
  heap : list (list Z);
  cpu : CPU;
  memory : nat;
  framebuffer : view;
  is_running : bool;
  game_loaded : bool;
  log_queue : list event;
  status_queue : list event
}.

Definition buffer (h : list (list Z)) (r : nat) : list Z := default [] (h !! r).

(** The bytes of [self.memory.memory]. *)
Definition mem (s : Emulator) : list Z := buffer (heap s) (memory s).

(** What a reader of [self.framebuffer] sees (flattened, row-major). *)
Definition view_bytes (h : list (list Z)) (v : view) : list Z :=
  slice (buffer h (base v)) (start v) (stop_ v).

Definition framebuffer_bytes (s : Emulator) : list Z :=
  view_bytes (heap s) (framebuffer s).

Definition set_cpu (c : CPU) (s : Emulator) : Emulator :=
  mkEmulator (heap s) c (memory s) (framebuffer s) (is_running s)
             (game_loaded s) (log_queue s) (status_queue s).

Definition set_mem (m : list Z) (s : Emulator) : Emulator :=
  mkEmulator (<[memory s := m]> (heap s)) (cpu s) (memory s) (framebuffer s)
             (is_running s) (game_loaded s) (log_queue s) (status_queue s).

Definition set_is_running (b : bool) (s : Emulator) : Emulator :=
  mkEmulator (heap s) (cpu s) (memory s) (framebuffer s) b
             (game_loaded s) (log_queue s) (status_queue s).

Definition set_game_loaded (b : bool) (s : Emulator) : Emulator :=
  mkEmulator (heap s) (cpu s) (memory s) (framebuffer s) (is_running s)
             b (log_queue s) (status_queue s).

Definition put_log (e : event) (s : Emulator) : Emulator :=
  mkEmulator (heap s) (cpu s) (memory s) (framebuffer s) (is_running s)
             (game_loaded s) (log_queue s ++ [e]) (status_queue s).

Definition put_status (e : event) (s : Emulator) : Emulator :=
  mkEmulator (heap s) (cpu s) (memory s) (framebuffer s) (is_running s)
             (game_loaded s) (log_queue s) (status_queue s ++ [e]).

(** Methods of the 32-bit variants act on [Emulator]. *)
Abbreviation M := (St Emulator).

(** [self.registers[i]] and [self.registers[i] = v] (a uint32 array). *)
Definition get_reg (i : Z) : M Z :=
  fun s => (getitem (registers (cpu s)) i, s).

Definition set_reg (i : Z) (v : Z) : M unit :=
  fun s =>
    match setitem (registers (cpu s)) i (uint32 v) with
    | Ok rs => (Ok tt, set_cpu (mkCPU rs (pc (cpu s))) s)
    | Raise e => (Raise e, s)
    end.

Definition get_pc : M Z := gets (fun s => pc (cpu s)).

Definition set_pc (v : Z) : M unit :=
  modify (fun s => set_cpu (mkCPU (registers (cpu s)) v) s).

(** A [Memory] method that reads, and one that updates the array in place. *)
Definition reading {A : Type} (f : list Z -> result A) : M A :=
  fun s => (f (mem s), s).

Definition writing (f : list Z -> result (list Z)) : M unit :=
  fun s =>
    match f (mem s) with
    | Ok m' => (Ok tt, set_mem m' s)
    | Raise e => (Raise e, s)
    end.

(** * PS5EMU1.06.29.251.0.py: the bounds-checked 128KB variant *)

Module PS5EMU1.

(** ** class Memory *)

(** [read_uint32] and [write_uint32] are called with a Python int
    ([load_game], [load_demo], the fetch of [run_cycle]) and with the
    uint32 scalar of a register (LDR, STR): [t] is the type of [address],
    which decides [address+4]. *)
Definition read_uint32 (t : dtype) (memory : list Z) (address : Z) : result Z :=
  if (address <? 0) || (add t address 4 >? len memory) then Ok 0
  else a ← frombuffer 4 (slice memory address (add t address 4)); getitem a 0.

Definition write_uint32 (t : dtype) (memory : list Z) (address value : Z) :
    result (list Z) :=
  if (address <? 0) || (add t address 4 >? len memory) then Ok memory
  else slice_assign memory address (add t address 4) (bytes_of_uint32 value).

(** [write_bytes] has one caller, SETPIXEL: [address] is a uint32 scalar
    and [values] a uint8 array. *)
Definition write_bytes (memory : list Z) (address : Z) (values : list Z) : result (list Z) :=
  if (address <? 0) || (add np_uint32 address (len values) >? len memory) then Ok memory
  else slice_assign memory address (add np_uint32 address (len values)) values.

(** ** class CPU *)

(** The [if]/[elif] chain of [execute_instruction]; the result tells
    whether the branch ended in [return], which skips [self.pc += 4].
    The sums that cannot reach 2^32 are written exact (the fields of
    SETPIXEL), as is the sum of BEQ, whose wrap at 2^32 the modulus 2^17
    absorbs. *)
Definition dispatch (instruction : Z) : M bool :=
  let opcode := Z.land (Z.shiftr instruction 24) 0xFF in
  if opcode =? 0 then mret false
  else if opcode =? 1 then
    let rd := Z.land (Z.shiftr instruction 20) 0xF in
    let rs := Z.land (Z.shiftr instruction 16) 0xF in
    v ← get_reg rs; set_reg rd v;; mret false
  else if opcode =? 2 then
    let rd := Z.land (Z.shiftr instruction 20) 0xF in
    let rs := Z.land (Z.shiftr instruction 16) 0xF in
    let rt := Z.land (Z.shiftr instruction 12) 0xF in
    v ← get_reg rs; w ← get_reg rt; set_reg rd (uint32 (v + w));; mret false
  else if opcode =? 3 then
    let rd := Z.land (Z.shiftr instruction 20) 0xF in
    let rs := Z.land (Z.shiftr instruction 16) 0xF in
    addr ← get_reg rs;
    v ← reading (fun m => read_uint32 np_uint32 m addr);
    set_reg rd v;; mret false
  else if opcode =? 4 then
    let rs := Z.land (Z.shiftr instruction 20) 0xF in
    let rd := Z.land (Z.shiftr instruction 16) 0xF in
    addr ← get_reg rd;
    v ← get_reg rs;
    writing (fun m => write_uint32 np_uint32 m addr v);; mret false
  else if opcode =? 5 then
    let x := Z.land (Z.shiftr instruction 20) 0xFF in
    let y := Z.land (Z.shiftr instruction 12) 0xFF in
    let r := Z.land (Z.shiftr instruction 9) 0x7 in
    let g := Z.land (Z.shiftr instruction 6) 0x7 in
    let b := Z.land (Z.shiftr instruction 3) 0x7 in
    let a := Z.land instruction 0x7 in
    let rgba := (fun val => val * 36) <$> [r; g; b; a] in
    if (x <? 128) && (y <? 128) then
      let addr := y * 128 * 4 + x * 4 in
      writing (fun m => write_bytes m addr (uint8 <$> rgba));; mret false
    else mret false
  else if opcode =? 6 then
    let addr := Z.land instruction 0xFFFFFF in
    set_pc addr;; mret true
  else if opcode =? 7 then
    let rs := Z.land (Z.shiftr instruction 20) 0xF in
    let rt := Z.land (Z.shiftr instruction 16) 0xF in
    let offset := Z.land instruction 0xFFFF in
    v ← get_reg rs; w ← get_reg rt;
    if v =? w then
      p ← get_pc; set_pc ((p + offset) mod (128 * 1024));; mret true
    else mret false
  else
    modify (put_log ("error", "Unknown opcode: " +:+ pretty opcode));; mret false.

Definition execute_instruction (instruction : Z) : M unit :=
  returned ← dispatch instruction;
  if returned : bool then mret tt
  else p ← get_pc; set_pc (p + 4).

(** ** class Emulator *)

(** [Emulator.__init__]: one buffer of 128KB; the framebuffer is the
    view [memory.memory[0:128*128*4]] of it. *)
Definition init : Emulator :=
  {| heap := [replicate (Z.to_nat (128 * 1024)) 0];
     cpu := {| registers := replicate 16 0; pc := 0 |};
     memory := 0%nat;
     framebuffer := {| base := 0%nat; start := 0; stop_ := 128 * 128 * 4 |};
     is_running := false;
     game_loaded := false;
     log_queue := [];
     status_queue := [] |}.

Definition load_word (game_data : list Z) (i : Z) : M unit :=
  value ← lift (if i + 4 <=? len game_data
                then a ← frombuffer 4 (slice game_data i (i + 4)); getitem a 0
                else Ok 0);
  writing (fun m => write_uint32 py_int m i value).

Definition load_game (game_data : list Z) : M unit :=
  modify (put_log ("warning", "Loading program..."));;
  for_each (load_word game_data) (py_range (len game_data) 4);;
  modify (set_game_loaded true);;
  modify (put_log ("success", "Program loaded successfully."));;
  modify (put_status ("Program loaded", "success")).

Definition demo_instructions : list Z :=
  [ Z.lor (Z.lor (Z.shiftl 1 24) (Z.shiftl 0 20)) (Z.shiftl 64 16);
    Z.lor (Z.lor (Z.shiftl 1 24) (Z.shiftl 1 20)) (Z.shiftl 64 16);
    Z.lor (Z.lor (Z.shiftl 1 24) (Z.shiftl 2 20)) (Z.shiftl 1 16);
    Z.lor (Z.lor (Z.shiftl 1 24) (Z.shiftl 3 20)) (Z.shiftl 1 16);
    Z.lor (Z.lor (Z.lor (Z.lor (Z.lor (Z.lor (Z.shiftl 5 24) (Z.shiftl 0 20))
      (Z.shiftl 1 12)) (Z.shiftl 7 9)) (Z.shiftl 0 6)) (Z.shiftl 0 3)) 7;
    Z.lor (Z.lor (Z.lor (Z.shiftl 2 24) (Z.shiftl 0 20)) (Z.shiftl 0 16)) (Z.shiftl 2 12);
    Z.lor (Z.lor (Z.lor (Z.shiftl 2 24) (Z.shiftl 1 20)) (Z.shiftl 1 16)) (Z.shiftl 3 12);
    Z.lor (Z.lor (Z.lor (Z.shiftl 7 24) (Z.shiftl 0 20)) (Z.shiftl 4 16)) 16;
    Z.lor (Z.lor (Z.lor (Z.shiftl 7 24) (Z.shiftl 1 20)) (Z.shiftl 4 16)) 24;
    Z.lor (Z.shiftl 6 24) 16;
    Z.lor (Z.lor (Z.shiftl 1 24) (Z.shiftl 2 20)) (Z.shiftl 255 16);
    Z.lor (Z.shiftl 6 24) 16;
    Z.lor (Z.lor (Z.shiftl 1 24) (Z.shiftl 3 20)) (Z.shiftl 255 16);
    Z.lor (Z.shiftl 6 24) 16 ].

Definition load_demo : M unit :=
  for_each (fun '(i, inst) => writing (fun m => write_uint32 py_int m (i * 4) inst))
           (enumerate demo_instructions);;
  writing (fun m => write_uint32 py_int m (4 * 4) 127);;
  modify (set_game_loaded true);;
  modify (put_log ("success", "Bouncing pixel demo loaded.")).

Definition start : M unit :=
  loaded ← gets game_loaded;
  if negb loaded then
    modify (put_log ("error", "No program loaded!"))
  else
    modify (set_is_running true);;
    modify (put_log ("success", "Emulator started."));;
    modify (put_status ("Running", "success")).

Definition pause : M unit :=
  modify (set_is_running false);;
  modify (put_log ("warning", "Emulator paused."));;
  modify (put_status ("Paused", "warning")).

Definition stop : M unit :=
  modify (set_is_running false);;
  set_pc 0;;
  modify (put_log ("error", "Emulator stopped."));;
  modify (put_status ("Stopped", "error")).

(** [self.cpu.pc] is a Python int, or a uint32 once a JMP or BEQ has
    stored one.  run_cycle resets it to 0 when it reaches the memory
    size, so the fetch is at a pc below 128K, where [address+4] is the
    same for both types. *)
Definition run_cycle : M unit :=
  running ← gets is_running;
  if negb running then mret tt
  else
    p ← get_pc;
    instruction ← reading (fun m => read_uint32 py_int m p);
    execute_instruction instruction;;
    p' ← get_pc;
    n ← gets (fun s => len (mem s));
    if p' >=? n then stop else mret tt.

(** The calls the Tk layer can issue: the toolbar buttons, the file
    dialog, and the update loop's tick. *)
Inductive call : Type :=
| LoadGame (game_data : list Z)
| LoadDemo
| Start
| Pause
| Stop
| RunCycle.

Definition perform (c : call) : M unit :=
  match c with
  | LoadGame game_data => load_game game_data
  | LoadDemo => load_demo
  | Start => start
  | Pause => pause
  | Stop => stop
  | RunCycle => run_cycle
  end.

Inductive reachable : Emulator -> Prop :=
| reachable_init : reachable init
| reachable_call s c : reachable s -> reachable (after (perform c) s).

End PS5EMU1.

(** * EMUPS55.17.25V0hdr.py: the 64KB variant, Memory without bounds checks *)

Module EMUPS55.

(** ** class Memory

    Nothing is checked, and a slice clips its bounds to the array.  The
    bounds are written exact: for the uint32 address of LDR and STR whose
    [address+4] wraps, the address is past the end of the 64KB array and
    the slice is empty with either bound. *)

Definition read_uint32 (memory : list Z) (address : Z) : result Z :=
  a ← frombuffer 4 (slice memory address (address + 4)); getitem a 0.

Definition write_uint32 (memory : list Z) (address value : Z) : result (list Z) :=
  slice_assign memory address (address + 4) (bytes_of_uint32 value).

Definition write_bytes (memory : list Z) (address : Z) (values : list Z) : result (list Z) :=
  slice_assign memory address (address + len values) values.

(** ** class CPU *)

(** Every branch of this variant falls through to [self.pc += 4]. *)
Definition dispatch (instruction : Z) : M unit :=
  let opcode := Z.land (Z.shiftr instruction 24) 0xFF in
  if opcode =? 0 then mret tt
  else if opcode =? 1 then
    let rd := Z.land (Z.shiftr instruction 20) 0xF in
    let rs := Z.land (Z.shiftr instruction 16) 0xF in
    v ← get_reg rs; set_reg rd v
  else if opcode =? 2 then
    let rd := Z.land (Z.shiftr instruction 20) 0xF in
    let rs := Z.land (Z.shiftr instruction 16) 0xF in
    let rt := Z.land (Z.shiftr instruction 12) 0xF in
    v ← get_reg rs; w ← get_reg rt; set_reg rd (uint32 (v + w))
  else if opcode =? 3 then
    let rd := Z.land (Z.shiftr instruction 20) 0xF in
    let rs := Z.land (Z.shiftr instruction 16) 0xF in
    addr ← get_reg rs;
    v ← reading (fun m => read_uint32 m addr);
    set_reg rd v
  else if opcode =? 4 then
    let rs := Z.land (Z.shiftr instruction 20) 0xF in
    let rd := Z.land (Z.shiftr instruction 16) 0xF in
    addr ← get_reg rd;
    v ← get_reg rs;
    writing (fun m => write_uint32 m addr v)
  else if opcode =? 5 then
    let x := Z.land (Z.shiftr instruction 20) 0xF in
    let y := Z.land (Z.shiftr instruction 16) 0xF in
    let r := Z.land (Z.shiftr instruction 12) 0xF in
    let g := Z.land (Z.shiftr instruction 8) 0xF in
    let b := Z.land (Z.shiftr instruction 4) 0xF in
    let a := Z.land instruction 0xF in
    let rgba := (fun val => val * 17) <$> [r; g; b; a] in
    if (x <? 64) && (y <? 64) then
      let addr := y * 64 * 4 + x * 4 in
      writing (fun m => write_bytes m addr (uint8 <$> rgba))
    else mret tt
  else
    modify (put_log ("error", "Unknown opcode: " +:+ pretty opcode)).

Definition execute_instruction (instruction : Z) : M unit :=
  dispatch instruction;;
  p ← get_pc; set_pc (p + 4).

(** ** class Emulator *)

(** [Emulator.__init__]: one buffer of 64KB; the framebuffer is the view
    [memory.memory[0:64*64*4]] of it. *)
Definition init : Emulator :=
  {| heap := [replicate (Z.to_nat (64 * 1024)) 0];
     cpu := {| registers := replicate 16 0; pc := 0 |};
     memory := 0%nat;
     framebuffer := {| base := 0%nat; start := 0; stop_ := 64 * 64 * 4 |};
     is_running := false;
     game_loaded := false;
     log_queue := [];
     status_queue := [] |}.

Definition load_word (game_data : list Z) (i : Z) : M unit :=
  value ← lift (if i + 4 <=? len game_data
                then a ← frombuffer 4 (slice game_data i (i + 4)); getitem a 0
                else Ok 0);
  writing (fun m => write_uint32 m i value).

Definition load_game (game_data : list Z) : M unit :=
  modify (put_log ("warning", "Loading program..."));;
  for_each (load_word game_data) (py_range (len game_data) 4);;
  modify (set_game_loaded true);;
  modify (put_log ("success", "Program loaded successfully."));;
  modify (put_status ("Program loaded", "success")).

Definition demo_instructions : list Z :=
  [ Z.lor (Z.lor (Z.shiftl 1 24) (Z.shiftl 0 20)) (Z.shiftl 10 16);
    Z.lor (Z.lor (Z.lor (Z.lor (Z.lor (Z.lor (Z.shiftl 5 24) (Z.shiftl 10 20))
      (Z.shiftl 10 16)) (Z.shiftl 15 12)) (Z.shiftl 0 8)) (Z.shiftl 0 4)) 15;
    Z.lor (Z.lor (Z.lor (Z.lor (Z.lor (Z.lor (Z.shiftl 5 24) (Z.shiftl 20 20))
      (Z.shiftl 20 16)) (Z.shiftl 0 12)) (Z.shiftl 15 8)) (Z.shiftl 0 4)) 15;
    Z.lor (Z.lor (Z.lor (Z.lor (Z.lor (Z.lor (Z.shiftl 5 24) (Z.shiftl 30 20))
      (Z.shiftl 30 16)) (Z.shiftl 0 12)) (Z.shiftl 0 8)) (Z.shiftl 15 4)) 15 ].

Definition load_demo : M unit :=
  for_each (fun '(i, inst) => writing (fun m => write_uint32 m (i * 4) inst))
           (enumerate demo_instructions);;
  modify (set_game_loaded true);;
  modify (put_log ("success", "Demo program loaded.")).

Definition start : M unit :=
  loaded ← gets game_loaded;
  if negb loaded then
    modify (put_log ("error", "No program loaded!"))
  else
    modify (set_is_running true);;
    modify (put_log ("success", "Emulator started."));;
    modify (put_status ("Running", "success")).

Definition pause : M unit :=
  modify (set_is_running false);;
  modify (put_log ("warning", "Emulator paused."));;
  modify (put_status ("Paused", "warning")).

Definition stop : M unit :=
  modify (set_is_running false);;
  set_pc 0;;
  modify (put_log ("error", "Emulator stopped."));;
  modify (put_status ("Stopped", "error")).

Definition run_cycle : M unit :=
  running ← gets is_running;
  if negb running then mret tt
  else
    p ← get_pc;
    instruction ← reading (fun m => read_uint32 m p);
    execute_instruction instruction;;
    p' ← get_pc;
    n ← gets (fun s => len (mem s));
    if p' >=? n then stop else mret tt.

Inductive call : Type :=
| LoadGame (game_data : list Z)
| LoadDemo
| Start
| Pause
| Stop
| RunCycle.

Definition perform (c : call) : M unit :=
  match c with
  | LoadGame game_data => load_game game_data
  | LoadDemo => load_demo
  | Start => start
  | Pause => pause
  | Stop => stop
  | RunCycle => run_cycle
  end.

Inductive reachable : Emulator -> Prop :=
| reachable_init : reachable init
| reachable_call s c : reachable s -> reachable (after (perform c) s).

End EMUPS55.

(** * v1.py: the first prototype

    256 registers of 64 bits, a Memory of 16GB held as uint64 words, no
    decoder.  Its framebuffer is a fresh [np.zeros((64, 64, 4))] array of
    its own, filled with random pixels by [run_cycle]. *)

Module V1.

(** A [np.zeros(n, dtype=np.uint64)] array, far too large for a list:
    its length and its cells. *)
Record ndarray64 : Type := mkArray {
  size64 : Z;
  cell : Z -> Z
}.

Definition zeros64 (n : Z) : ndarray64 := mkArray n (fun _ => 0).

Record CPU : Type := mkCPU {
  registers : list Z;
  pc : Z
}.

(** [log_queue] and [status_queue] are module globals in this variant. *)
Record Emulator : Type := mkEmulator {
  cpu : CPU;
  memory : ndarray64;
  is_running : bool;
  game_loaded : bool;
  framebuffer : list Z;
  log_queue : list event;
  status_queue : list event
}.

Abbreviation M := (St Emulator).

Definition set_pc (v : Z) (s : Emulator) : Emulator :=
  mkEmulator (mkCPU (registers (cpu s)) v) (memory s) (is_running s)
             (game_loaded s) (framebuffer s) (log_queue s) (status_queue s).

Definition set_memory (m : ndarray64) (s : Emulator) : Emulator :=
  mkEmulator (cpu s) m (is_running s) (game_loaded s) (framebuffer s)
             (log_queue s) (status_queue s).

Definition set_is_running (b : bool) (s : Emulator) : Emulator :=
  mkEmulator (cpu s) (memory s) b (game_loaded s) (framebuffer s)
             (log_queue s) (status_queue s).

Definition set_game_loaded (b : bool) (s : Emulator) : Emulator :=
  mkEmulator (cpu s) (memory s) (is_running s) b (framebuffer s)
             (log_queue s) (status_queue s).

Definition set_framebuffer (fb : list Z) (s : Emulator) : Emulator :=
  mkEmulator (cpu s) (memory s) (is_running s) (game_loaded s) fb
             (log_queue s) (status_queue s).

Definition put_log (e : event) (s : Emulator) : Emulator :=
  mkEmulator (cpu s) (memory s) (is_running s) (game_loaded s) (framebuffer s)
             (log_queue s ++ [e]) (status_queue s).

Definition put_status (e : event) (s : Emulator) : Emulator :=
  mkEmulator (cpu s) (memory s) (is_running s) (game_loaded s) (framebuffer s)
             (log_queue s) (status_queue s ++ [e]).

(** [f"{v:016x}"] for a 64-bit value. *)
Definition hex_digit (d : Z) : string :=
  String (default (Ascii.ascii_of_nat 48) (String.list_ascii_of_string "0123456789abcdef" !! Z.to_nat d)) "".

Fixpoint hex_pad (n : nat) (v : Z) (acc : string) : string :=
  match n with
  | O => acc
  | S n' => hex_pad n' (v / 16) (hex_digit (v mod 16) +:+ acc)
  end.

(** ** class Memory *)

Definition read (memory : ndarray64) (address : Z) : result Z :=
  k ← index (size64 memory) (address / 8); Ok (cell memory k).

Definition write (memory : ndarray64) (address value : Z) : result ndarray64 :=
  k ← index (size64 memory) (address / 8);
  Ok (mkArray (size64 memory) (fun j => if j =? k then uint64 value else cell memory j)).

(** ** class CPU *)

Definition execute_instruction (instruction : Z) : M unit :=
  modify (put_log ("success", "Executing instruction: 0x" +:+ hex_pad 16 instruction ""));;
  p ← gets (fun s => pc (cpu s)); modify (set_pc (p + 8)).

(** ** class Emulator *)

Definition init : Emulator :=
  {| cpu := {| registers := replicate 256 0; pc := 0 |};
     memory := zeros64 (16 * 1024 * 1024 * 1024 / 8);
     is_running := false;
     game_loaded := false;
     framebuffer := replicate (Z.to_nat (64 * 64 * 4)) 0;
     log_queue := [];
     status_queue := [] |}.

Definition writing (f : ndarray64 -> result ndarray64) : M unit :=
  fun s =>
    match f (memory s) with
    | Ok m' => (Ok tt, set_memory m' s)
    | Raise e => (Raise e, s)
    end.

Definition load_word (game_data : list Z) (i : Z) : M unit :=
  value ← lift (if i + 8 <=? len game_data
                then a ← frombuffer 8 (slice game_data i (i + 8)); getitem a 0
                else Ok 0);
  writing (fun m => write m i value).

Definition load_game (game_data : list Z) : M unit :=
  modify (put_log ("warning", "Loading game..."));;
  for_each (load_word game_data) (py_range (len game_data) 8);;
  modify (set_game_loaded true);;
  modify (put_log ("success", "Game loaded successfully."));;
  modify (put_status ("Game loaded", "success")).

Definition start : M unit :=
  loaded ← gets game_loaded;
  if negb loaded then
    modify (put_log ("error", "No game loaded!"))
  else
    modify (set_is_running true);;
    modify (put_log ("success", "Emulator started."));;
    modify (put_status ("Running", "success")).

Definition pause : M unit :=
  modify (set_is_running false);;
  modify (put_log ("warning", "Emulator paused."));;
  modify (put_status ("Paused", "warning")).

Definition stop : M unit :=
  modify (set_is_running false);;
  modify (set_pc 0);;
  modify (put_log ("error", "Emulator stopped."));;
  modify (put_status ("Stopped", "error")).

(** [random.randint(a, b)]: some value of [a..b], picked by the seed. *)
Definition randint (a b seed : Z) : Z := a + seed mod (b - a + 1).

(** The five draws of one [run_cycle]. *)
Record draws : Type := mkDraws { dx : Z; dy : Z; dr : Z; dg : Z; db : Z }.

(** [self.framebuffer[y, x] = [r, g, b, 255]] on the (64, 64, 4) array. *)
Definition set_pixel (y x : Z) (rgba : list Z) : M unit :=
  fun s =>
    match slice_assign (framebuffer s) ((y * 64 + x) * 4) ((y * 64 + x) * 4 + 4)
                       (uint8 <$> rgba) with
    | Ok fb => (Ok tt, set_framebuffer fb s)
    | Raise e => (Raise e, s)
    end.

Definition run_cycle (d : draws) : M unit :=
  running ← gets is_running;
  if negb running then mret tt
  else
    p ← gets (fun s => pc (cpu s));
    instruction ← (fun s => (read (memory s) p, s));
    execute_instruction instruction;;
    running' ← gets is_running;
    (if running' : bool then
       let x := randint 0 63 (dx d) in
       let y := randint 0 63 (dy d) in
       set_pixel y x [randint 0 255 (dr d); randint 0 255 (dg d); randint 0 255 (db d); 255]
     else mret tt);;
    p' ← gets (fun s => pc (cpu s));
    n ← gets (fun s => size64 (memory s));
    if p' >=? n * 8 then stop else mret tt.

Inductive call : Type :=
| LoadGame (game_data : list Z)
| Start
| Pause
| Stop
| RunCycle (d : draws).

Definition perform (c : call) : M unit :=
  match c with
  | LoadGame game_data => load_game game_data
  | Start => start
  | Pause => pause
  | Stop => stop
  | RunCycle d => run_cycle d
  end.

Inductive reachable : Emulator -> Prop :=
| reachable_init : reachable init
| reachable_call s c : reachable s -> reachable (after (perform c) s).

(** Byte [k] of memory: the uint64 words seen as little-endian bytes. *)
Definition memory_byte (s : Emulator) (k : Z) : Z :=
  (cell (memory s) (k / 8) / 2 ^ (8 * (k mod 8))) mod 2 ^ 8.

End V1.

(** * Specification vocabulary *)

(** The machine proper: everything but the two event queues. *)
Definition machine (s : Emulator) :=
  (heap s, cpu s, memory s, framebuffer s, is_running s, game_loaded s).

(** [self.registers[i]] for an index in range. *)
Definition reg (s : Emulator) (i : Z) : Z := registers (cpu s) !!! Z.to_nat i.

(** The shape [Emulator.__init__] gives the object graph: 16 registers,
    one buffer of [size] bytes owned by [Memory], and the framebuffer a
    window of [fb] bytes at the start of that same buffer. *)
Definition well_formed (size fb : Z) (s : Emulator) : Prop :=
  length (registers (cpu s)) = 16%nat /\
  memory s = 0%nat /\
  framebuffer s = mkView 0 0 fb /\
  exists m, heap s = [m] /\ len m = size.

Definition PS5EMU1_wf : Emulator -> Prop := well_formed (128 * 1024) (128 * 128 * 4).
Definition EMUPS55_wf : Emulator -> Prop := well_formed (64 * 1024) (64 * 64 * 4).

(** Bytes as a [bytes] object or a uint8 array holds them. *)
Definition is_byte (b : Z) : Prop := 0 <= b < 256.

(** The channel scaling as the specification words it: the raw value of a
    [w]-bit field times [floor(255 / (2^w - 1))]. *)
Definition spec_scaled (w v : Z) : Z := v * (255 / (2 ^ w - 1)).

(** A call that, from a state satisfying [P], returns and leaves a state
    satisfying [P]; and one that leaves such a state whether it returns or
    raises. *)
Definition total {S A : Type} (P : S -> Prop) (m : St S A) : Prop :=
  forall s, P s -> returns m s /\ P (after m s).

Definition keeps {S A : Type} (P : S -> Prop) (m : St S A) : Prop :=
  forall s, P s -> P (after m s).

(** The first half of [run_cycle] in the 128KB variant: fetch the word at
    pc and execute it, before pc is checked against the memory size. *)
Definition PS5EMU1_fetch_execute : M unit :=
  p ← get_pc;
  instruction ← reading (fun m => PS5EMU1.read_uint32 py_int m p);
  PS5EMU1.execute_instruction instruction.

(** The word [run_cycle] of the 128KB variant fetches: the four bytes at
    pc, or 0 when they are not all inside memory. *)
Definition PS5EMU1_fetched (s : Emulator) : Z :=
  let p := pc (cpu s) in
  if (p <? 0) || (p + 4 >? len (mem s)) then 0
  else le_combine (slice (mem s) p (p + 4)).

(** What the cpu of the 128KB variant holds: uint32 values in the
    registers and a pc that is not negative, after every instruction;
    between calls, a pc inside the memory as well. *)
Definition is_uint32 (v : Z) : Prop := 0 <= v < 2 ^ 32.

Definition cpu_in_range (c : CPU) : Prop :=
  Forall is_uint32 (registers c) /\ 0 <= pc c.

Definition PS5EMU1_cpu_inside (s : Emulator) : Prop :=
  Forall is_uint32 (registers (cpu s)) /\ 0 <= pc (cpu s) < 128 * 1024.

(** The shape of v1.py's objects between calls: pc inside the memory (8
    bytes per cell) and a framebuffer of 64 x 64 x 4 bytes. *)
Definition V1_wf (t : V1.Emulator) : Prop :=
  0 <= V1.pc (V1.cpu t) < V1.size64 (V1.memory t) * 8 /\
  len (V1.framebuffer t) = 64 * 64 * 4.

(** The word [load_game] stores at offset [i]: the four file bytes from
    [i] on when the file has them, else 0. *)
Definition load_value (game_data : list Z) (i : Z) : Z :=
  if i + 4 <=? len game_data then le_combine (slice game_data i (i + 4)) else 0.

(** Byte [k] of memory after a load, in words of the file: a byte of the
    file inside its whole words, 0 in the word that holds the file's
    trailing bytes, the old byte beyond. *)
Definition loaded_byte (game_data old : list Z) (k : Z) : Z :=
  if 4 * (k / 4) + 4 <=? len game_data then game_data !!! Z.to_nat k
  else if 4 * (k / 4) <? len game_data then 0
  else old !!! Z.to_nat k.

(** * Proofs *)

(** The primitive accesses are rewritten by their lemmas, not unfolded. *)
Arguments get_reg : simpl never.
Arguments set_reg : simpl never.
Arguments reading : simpl never.
Arguments writing : simpl never.

(** Runs the monadic plumbing of a method body. *)
Ltac run :=
  unfold mbind, mret, St_mbind, St_mret, St_bind, St_ret, modify, gets, lift,
    get_pc, set_pc, after, returns in *; cbn in *.

(** ** Bit fields *)

Lemma land_ones_range (x n : Z) : 0 <= n -> 0 <= Z.land x (Z.ones n) < 2 ^ n.
Proof.
  intros Hn. rewrite Z.land_ones by lia. apply Z.mod_pos_bound. lia.
Qed.

Lemma field4_range (x : Z) : 0 <= Z.land x 0xF < 16.
Proof. apply (land_ones_range x 4). lia. Qed.

Lemma field3_range (x : Z) : 0 <= Z.land x 0x7 < 8.
Proof. apply (land_ones_range x 3). lia. Qed.

Lemma field8_range (x : Z) : 0 <= Z.land x 0xFF < 256.
Proof. apply (land_ones_range x 8). lia. Qed.

(** ** Indexing *)

Lemma index_in_range (n i : Z) : 0 <= i < n -> index n i = Ok i.
Proof.
  intros H. unfold index.
  destruct (0 <=? i) eqn:E1; [|lia]. destruct (i <? n) eqn:E2; [|lia]. reflexivity.
Qed.

Lemma getitem_in_range (l : list Z) (i : Z) :
  0 <= i < len l -> getitem l i = Ok (l !!! Z.to_nat i).
Proof. intros H. unfold getitem. rewrite index_in_range by lia. reflexivity. Qed.

Lemma setitem_in_range (l : list Z) (i v : Z) :
  0 <= i < len l -> setitem l i v = Ok (<[Z.to_nat i := v]> l).
Proof. intros H. unfold setitem. rewrite index_in_range by lia. reflexivity. Qed.

Lemma get_reg_field (s : Emulator) (x : Z) :
  length (registers (cpu s)) = 16%nat ->
  get_reg (Z.land x 0xF) s = (Ok (reg s (Z.land x 0xF)), s).
Proof.
  intros H. unfold get_reg, reg. rewrite getitem_in_range; [reflexivity|].
  unfold len. rewrite H. pose proof (field4_range x). lia.
Qed.

Lemma set_reg_field (s : Emulator) (x v : Z) :
  length (registers (cpu s)) = 16%nat ->
  set_reg (Z.land x 0xF) v s =
  (Ok tt, set_cpu (mkCPU (<[Z.to_nat (Z.land x 0xF) := uint32 v]> (registers (cpu s)))
                         (pc (cpu s))) s).
Proof.
  intros H. unfold set_reg. rewrite setitem_in_range; [reflexivity|].
  unfold len. rewrite H. pose proof (field4_range x). lia.
Qed.

(** ** Control flow: JMP and BEQ *)

(** C3: executing opcode 6 (JMP) returns, sets pc to the 24-bit address
    field whatever pc was before, applies no increment afterwards and
    changes nothing else; with address field 16 the new pc is 16. *)
Theorem C3_jmp_sets_pc_to_address (s : Emulator) (instruction : Z) :
  Z.land (Z.shiftr instruction 24) 0xFF = 6 ->
  let s' := after (PS5EMU1.execute_instruction instruction) s in
  returns (PS5EMU1.execute_instruction instruction) s /\
  pc (cpu s') = Z.land instruction 0xFFFFFF /\
  (Z.land instruction 0xFFFFFF = 16 -> pc (cpu s') = 16) /\
  registers (cpu s') = registers (cpu s) /\
  heap s' = heap s /\ log_queue s' = log_queue s.
Proof.
  intros Hop s'. subst s'.
  unfold PS5EMU1.execute_instruction, PS5EMU1.dispatch. rewrite Hop. run.
  repeat split; eauto.
Qed.

Lemma C3_jmp_witness :
  pc (cpu (after (PS5EMU1.execute_instruction (Z.lor (Z.shiftl 6 24) 16))
                 (set_cpu (mkCPU (replicate 16 0) 1000) PS5EMU1.init))) = 16.
Proof.
  apply (C3_jmp_sets_pc_to_address
           (set_cpu (mkCPU (replicate 16 0) 1000) PS5EMU1.init)
           (Z.lor (Z.shiftl 6 24) 16)); reflexivity.
Defined.

(** C2: executing opcode 7 (BEQ) on a well-formed machine returns; when
    the two registers are equal the new pc is (pc + offset) modulo the
    memory size and no increment follows, otherwise the new pc is pc + 4. *)
Theorem C2_beq_branches_or_falls_through (s : Emulator) (instruction : Z) :
  PS5EMU1_wf s ->
  Z.land (Z.shiftr instruction 24) 0xFF = 7 ->
  let A := Z.land (Z.shiftr instruction 20) 0xF in
  let B := Z.land (Z.shiftr instruction 16) 0xF in
  let off := Z.land instruction 0xFFFF in
  let s' := after (PS5EMU1.execute_instruction instruction) s in
  returns (PS5EMU1.execute_instruction instruction) s /\
  (reg s A = reg s B -> pc (cpu s') = (pc (cpu s) + off) mod len (mem s)) /\
  (reg s A <> reg s B -> pc (cpu s') = pc (cpu s) + 4).
Proof.
  intros (Hregs & Hmem & _ & m & Hheap & Hlen) Hop A B off s'. subst s'.
  assert (Hsize : len (mem s) = 128 * 1024).
  { unfold mem, buffer. rewrite Hheap, Hmem. exact Hlen. }
  rewrite Hsize.
  unfold PS5EMU1.execute_instruction, PS5EMU1.dispatch. rewrite Hop.
  cbn [Z.eqb Pos.eqb]. run.
  rewrite !get_reg_field by assumption. fold A B off.
  destruct (Z.eqb_spec (reg s A) (reg s B)) as [E|E]; cbn; repeat split; eauto; congruence.
Qed.

Lemma C2_beq_witness :
  let s := set_cpu (mkCPU (replicate 16 0) 8) PS5EMU1.init in
  let instruction := Z.lor (Z.lor (Z.lor (Z.shiftl 7 24) (Z.shiftl 0 20)) (Z.shiftl 4 16)) 16 in
  pc (cpu (after (PS5EMU1.execute_instruction instruction) s)) = (8 + 16) mod len (mem s).
Proof.
  intros s instruction.
  assert (Hwf : PS5EMU1_wf s).
  { repeat split. eexists. split; [reflexivity|].
    unfold len. rewrite length_replicate. lia. }
  exact (proj1 (proj2 (C2_beq_branches_or_falls_through s instruction Hwf eq_refl)) eq_refl).
Defined.

(** ** Life cycle: start and stop *)

(** C8: while no program is loaded, start() returns having changed
    neither the run state nor any other part of the machine, and has put
    exactly one event, of severity error, on the log queue; once a program
    is loaded, start() leaves the machine running.  Both 32-bit variants. *)
Theorem C8_start_needs_a_loaded_program (s : Emulator) :
  (game_loaded s = false ->
   forall start, start = PS5EMU1.start \/ start = EMUPS55.start ->
     returns start s /\
     machine (after start s) = machine s /\
     status_queue (after start s) = status_queue s /\
     log_queue (after start s) = log_queue s ++ [("error", "No program loaded!")]) /\
  (game_loaded s = true ->
   forall start, start = PS5EMU1.start \/ start = EMUPS55.start ->
     returns start s /\ is_running (after start s) = true).
Proof.
  split; intros Hl start [-> | ->];
    unfold PS5EMU1.start, EMUPS55.start; run; rewrite Hl; cbn; repeat split; eauto.
Qed.

Lemma C8_start_witness :
  log_queue (after EMUPS55.start EMUPS55.init) = [("error", "No program loaded!")] /\
  is_running (after EMUPS55.start EMUPS55.init) = false /\
  is_running (after PS5EMU1.start (set_game_loaded true PS5EMU1.init)) = true.
Proof.
  destruct (C8_start_needs_a_loaded_program EMUPS55.init) as [Hno _].
  destruct (Hno eq_refl EMUPS55.start (or_intror eq_refl)) as (_ & Hm & _ & Hlog).
  destruct (C8_start_needs_a_loaded_program (set_game_loaded true PS5EMU1.init)) as [_ Hyes].
  destruct (Hyes eq_refl PS5EMU1.start (or_introl eq_refl)) as (_ & Hrun).
  split; [exact Hlog|]. split; [|exact Hrun].
  exact (f_equal (fun t => t.1.2) Hm).
Defined.

(** C9 as stated fails: the second stop() puts a second event on the
    queues, so two calls do not leave what one call leaves. *)
Lemma C9_stop_twice_differs_from_once :
  ~ (forall s : Emulator,
       after PS5EMU1.stop (after PS5EMU1.stop s) = after PS5EMU1.stop s).
Proof.
  intros H. specialize (H PS5EMU1.init).
  apply (f_equal (fun s => length (log_queue s))) in H. vm_compute in H. discriminate H.
Qed.

(** C9, amended: from every state stop() returns with is_running false
    and pc 0; a second stop() leaves the machine (registers, pc, memory,
    framebuffer, run state, loaded flag) as the first left it, and puts one
    more error event and one more Stopped status on the queues.  Both
    32-bit variants. *)
Theorem C9_stop_halts_and_is_idempotent_on_the_machine (s : Emulator) :
  forall stop, stop = PS5EMU1.stop \/ stop = EMUPS55.stop ->
    returns stop s /\
    is_running (after stop s) = false /\
    pc (cpu (after stop s)) = 0 /\
    machine (after stop (after stop s)) = machine (after stop s) /\
    log_queue (after stop (after stop s)) =
      log_queue (after stop s) ++ [("error", "Emulator stopped.")] /\
    status_queue (after stop (after stop s)) =
      status_queue (after stop s) ++ [("Stopped", "error")].
Proof.
  intros stop [-> | ->]; unfold PS5EMU1.stop, EMUPS55.stop; run; repeat split; eauto.
Qed.

Lemma C9_stop_witness :
  pc (cpu (after EMUPS55.stop (set_cpu (mkCPU (replicate 16 0) 40) EMUPS55.init))) = 0.
Proof.
  apply (C9_stop_halts_and_is_idempotent_on_the_machine
           (set_cpu (mkCPU (replicate 16 0) 40) EMUPS55.init) EMUPS55.stop).
  right. reflexivity.
Defined.

(** ** Slices *)

Lemma len_nonneg {A : Type} (l : list A) : 0 <= len l.
Proof. unfold len. lia. Qed.

Lemma clip_in_range (n i : Z) : 0 <= i <= n -> clip n i = i.
Proof. intros H. unfold clip. destruct (Z.ltb_spec i 0); lia. Qed.

Lemma clip_bounds (n i : Z) : 0 <= n -> 0 <= clip n i <= n.
Proof. intros H. unfold clip. destruct (Z.ltb_spec i 0); lia. Qed.

Lemma slice_len_in_range (n a b : Z) : 0 <= a <= b -> b <= n -> slice_len n a b = b - a.
Proof. intros H1 H2. unfold slice_len. rewrite !clip_in_range by lia. lia. Qed.

Lemma slice_in_range {A : Type} (l : list A) (a b : Z) :
  0 <= a <= b -> b <= len l ->
  slice l a b = take (Z.to_nat (b - a)) (drop (Z.to_nat a) l).
Proof.
  intros H1 H2. unfold slice.
  rewrite slice_len_in_range, clip_in_range by lia. reflexivity.
Qed.

(** A slice assignment never resizes the array. *)
Lemma slice_assign_length (l : list Z) (a b : Z) (vals l' : list Z) :
  slice_assign l a b vals = Ok l' -> length l' = length l.
Proof.
  unfold slice_assign.
  pose proof (clip_bounds (len l) a (len_nonneg l)) as Ha.
  pose proof (clip_bounds (len l) b (len_nonneg l)) as Hb.
  assert (Hfit : (Z.to_nat (clip (len l) a) + Z.to_nat (slice_len (len l) a b)
                  <= length l)%nat).
  { unfold slice_len, len in *. lia. }
  destruct (Z.eqb_spec (len vals) (Z.of_nat (Z.to_nat (slice_len (len l) a b)))) as [E1|E1].
  - intros [= <-]. rewrite !length_app, length_take, length_drop.
    unfold len in *. lia.
  - destruct (len vals =? 1) eqn:E2; [|discriminate].
    intros [= <-]. rewrite !length_app, length_take, length_replicate, length_drop. lia.
Qed.

(** Storing [vals] at a non-negative offset either fits, and replaces
    exactly those cells, or raises when the slice is cut short by the end
    of the array (a single value is broadcast instead). *)
Lemma slice_assign_fits (l : list Z) (a : Z) (vals : list Z) :
  0 <= a -> a + len vals <= len l ->
  slice_assign l a (a + len vals) vals =
  Ok (take (Z.to_nat a) l ++ vals ++ drop (Z.to_nat a + length vals) l).
Proof.
  intros Ha Hfit. unfold slice_assign.
  pose proof (len_nonneg vals) as Hv.
  rewrite slice_len_in_range, clip_in_range by lia.
  replace (a + len vals - a) with (len vals) by lia.
  replace (Z.to_nat (len vals)) with (length vals) by (unfold len; lia).
  fold (len vals). rewrite Z.eqb_refl. reflexivity.
Qed.

Lemma slice_assign_cut (l : list Z) (a : Z) (vals : list Z) :
  0 <= a -> len l < a + len vals -> 1 < len vals ->
  slice_assign l a (a + len vals) vals = Raise ValueError.
Proof.
  intros Ha Hcut Hv. unfold slice_assign.
  assert (Hn : slice_len (len l) a (a + len vals) < len vals).
  { unfold slice_len, clip. pose proof (len_nonneg l).
    destruct (Z.ltb_spec a 0); [lia|]. destruct (Z.ltb_spec (a + len vals) 0); lia. }
  assert (H0 : 0 <= slice_len (len l) a (a + len vals)) by (unfold slice_len; lia).
  destruct (Z.eqb_spec (len vals) (Z.of_nat (Z.to_nat (slice_len (len l) a (a + len vals)))));
    [lia|].
  destruct (Z.eqb_spec (len vals) 1); [lia|]. reflexivity.
Qed.

(** Cell [k] of an array after [vals] replaced the cells from [a] on. *)
Lemma lookup_splice (l vals : list Z) (a k : nat) :
  (a + length vals <= length l)%nat ->
  (take a l ++ vals ++ drop (a + length vals) l) !! k =
  if decide (a <= k < a + length vals)%nat then vals !! (k - a)%nat else l !! k.
Proof.
  intros Hfit. destruct (decide (a <= k < a + length vals)%nat) as [Hin|Hout].
  - rewrite lookup_app_r by (rewrite length_take; lia).
    rewrite length_take, lookup_app_l by lia. f_equal. lia.
  - destruct (decide (k < a)%nat).
    + rewrite lookup_app_l by (rewrite length_take; lia). apply lookup_take_lt. lia.
    + rewrite lookup_app_r by (rewrite length_take; lia).
      rewrite length_take, lookup_app_r by lia. rewrite lookup_drop. f_equal. lia.
Qed.

(** ** Memory of the bounds-checked variant *)

Lemma add_exact (t : dtype) (a n : Z) : 0 <= a + n < 2 ^ 32 -> add t a n = a + n.
Proof. intros H. destruct t; [reflexivity|]. apply Z.mod_small. exact H. Qed.

Lemma add_wraps (a n : Z) :
  2 ^ 32 <= a + n < 2 ^ 33 -> add np_uint32 a n = a + n - 2 ^ 32.
Proof.
  intros H. unfold add, uint32. symmetry.
  apply (Z.mod_unique_pos _ _ 1); lia.
Qed.

Lemma add_below_the_wrap (t : dtype) (a n : Z) :
  0 <= a + n -> t = py_int \/ a + n < 2 ^ 32 -> add t a n = a + n.
Proof. intros Hpos [-> | Hlt]; [reflexivity|]. apply add_exact. lia. Qed.

(** A slice that starts at or past the end of the array is empty. *)
Lemma slice_from_the_end {A : Type} (l : list A) (a b : Z) :
  len l <= a -> slice l a b = [].
Proof.
  intros Ha. pose proof (len_nonneg l) as Hl.
  pose proof (clip_bounds (len l) b Hl) as Hb.
  unfold slice, slice_len.
  replace (clip (len l) a) with (len l)
    by (unfold clip; destruct (Z.ltb_spec a 0); lia).
  replace (Z.to_nat (Z.max (clip (len l) b - len l) 0)) with 0%nat by lia.
  reflexivity.
Qed.

(** The guard at work: an access the guard turns away. *)
Lemma checked_access_turned_away (t : dtype) (memory : list Z) (A : Z) :
  A < 0 \/ add t A 4 > len memory ->
  PS5EMU1.read_uint32 t memory A = Ok 0 /\
  forall value, PS5EMU1.write_uint32 t memory A value = Ok memory.
Proof.
  intros Hout.
  assert (Hguard : (A <? 0) || (add t A 4 >? len memory) = true).
  { apply orb_true_iff. destruct Hout; [left|right]; lia. }
  unfold PS5EMU1.read_uint32, PS5EMU1.write_uint32. rewrite Hguard.
  split; reflexivity.
Qed.

(** The guard passed by a uint32 address whose [address+4] wraps: the
    slice is empty, the read finds no element 0 and the write no room. *)
Lemma checked_access_wrapped (memory : list Z) (A : Z) :
  4 <= len memory <= 2 ^ 32 - 4 -> 2 ^ 32 - 4 <= A < 2 ^ 32 ->
  PS5EMU1.read_uint32 np_uint32 memory A = Raise IndexError /\
  forall value, PS5EMU1.write_uint32 np_uint32 memory A value = Raise ValueError.
Proof.
  intros Hlen HA.
  assert (Hguard : (A <? 0) || (add np_uint32 A 4 >? len memory) = false).
  { rewrite add_wraps by lia. apply orb_false_iff. split; lia. }
  unfold PS5EMU1.read_uint32, PS5EMU1.write_uint32. rewrite Hguard. split.
  - rewrite slice_from_the_end by lia. reflexivity.
  - intros value. unfold slice_assign, slice_len.
    pose proof (clip_bounds (len memory) (add np_uint32 A 4) ltac:(lia)) as Hb.
    replace (clip (len memory) A) with (len memory)
      by (unfold clip; destruct (Z.ltb_spec A 0); lia).
    replace (Z.to_nat (Z.max (clip (len memory) (add np_uint32 A 4) - len memory) 0))
      with 0%nat by lia.
    reflexivity.
Qed.

(** Below the wrap the type of the address makes no difference: so for
    the pc that JMP or BEQ stored as a uint32. *)
Lemma checked_read_uint32_below_the_wrap (memory : list Z) (A : Z) :
  0 <= A + 4 < 2 ^ 32 ->
  PS5EMU1.read_uint32 np_uint32 memory A = PS5EMU1.read_uint32 py_int memory A.
Proof.
  intros HA. unfold PS5EMU1.read_uint32. rewrite !add_exact by exact HA. reflexivity.
Qed.

(** In the unchecked variant a wrapped [address+4] selects the cells the
    exact sum selects. *)
Lemma unchecked_word_access_wraps_alike (memory : list Z) (A value : Z) :
  len memory <= 2 ^ 32 - 4 -> 0 <= A < 2 ^ 32 ->
  (a ← frombuffer 4 (slice memory A (add np_uint32 A 4)); getitem a 0) =
    EMUPS55.read_uint32 memory A /\
  slice_assign memory A (add np_uint32 A 4) (bytes_of_uint32 value) =
    EMUPS55.write_uint32 memory A value.
Proof.
  intros Hlen HA. unfold EMUPS55.read_uint32, EMUPS55.write_uint32.
  destruct (Z_lt_ge_dec (A + 4) (2 ^ 32)) as [Hlt|Hge].
  - rewrite add_exact by lia. split; reflexivity.
  - rewrite !slice_from_the_end by lia. split; [reflexivity|].
    pose proof (len_nonneg memory) as Hl.
    pose proof (clip_bounds (len memory) (add np_uint32 A 4) Hl) as Hb.
    pose proof (clip_bounds (len memory) (A + 4) Hl) as Hb'.
    unfold slice_assign, slice_len.
    replace (clip (len memory) A) with (len memory)
      by (unfold clip; destruct (Z.ltb_spec A 0); lia).
    replace (Z.to_nat (Z.max (clip (len memory) (add np_uint32 A 4) - len memory) 0))
      with 0%nat by lia.
    replace (Z.to_nat (Z.max (clip (len memory) (A + 4) - len memory) 0))
      with 0%nat by lia.
    reflexivity.
Qed.

(** C1: the guard of the bounds-checked variant (PS5EMU1) turns an
    access with A < 0 or A + K beyond the memory size away (the read
    returns 0, the write leaves memory as it was, nothing is raised) when
    the address is a Python int, and when it is a uint32 whose A + K does
    not reach 2^32.  For a uint32 address from 2^32 - 4 on, as LDR and
    STR pass it, A + 4 wraps to 0..3: the guard lets the access through,
    the slice is empty, and the read raises IndexError, the write (of a
    value of the uint32 range) ValueError. *)
Theorem C1_checked_memory_guard_misses_a_wrapped_address (memory : list Z) (A K : Z) :
  4 <= len memory <= 2 ^ 32 - 4 ->
  A < 0 \/ A + K > len memory ->
  (K = 4 ->
     (PS5EMU1.read_uint32 py_int memory A = Ok 0 /\
      forall value, PS5EMU1.write_uint32 py_int memory A value = Ok memory) /\
     (A < 2 ^ 32 - 4 ->
      PS5EMU1.read_uint32 np_uint32 memory A = Ok 0 /\
      forall value, PS5EMU1.write_uint32 np_uint32 memory A value = Ok memory) /\
     (2 ^ 32 - 4 <= A < 2 ^ 32 ->
      PS5EMU1.read_uint32 np_uint32 memory A = Raise IndexError /\
      forall value, 0 <= value < 2 ^ 32 ->
        PS5EMU1.write_uint32 np_uint32 memory A value = Raise ValueError)) /\
  (forall values, len values = K -> A + K < 2 ^ 32 ->
     PS5EMU1.write_bytes memory A values = Ok memory).
Proof.
  intros Hlen Hout. split.
  - intros ->. split; [|split].
    + apply checked_access_turned_away. exact Hout.
    + intros HA. apply checked_access_turned_away.
      destruct Hout as [Hneg|Hpast]; [left; exact Hneg|right].
      rewrite add_exact by lia. exact Hpast.
    + intros HA. destruct (checked_access_wrapped memory A Hlen HA) as [Hread Hwrite].
      split; [exact Hread|]. intros value _. apply Hwrite.
  - intros values <- HA. unfold PS5EMU1.write_bytes.
    destruct (Z.ltb_spec A 0) as [Hneg|Hpos]; [reflexivity|].
    rewrite add_exact by (pose proof (len_nonneg values); lia).
    destruct (Z.gtb_spec (A + len values) (len memory)); [reflexivity|lia].
Qed.

Lemma C1_checked_memory_witness :
  PS5EMU1.read_uint32 py_int [1; 2; 3; 4; 5; 6; 7; 8] 6 = Ok 0 /\
  PS5EMU1.read_uint32 np_uint32 [1; 2; 3; 4; 5; 6; 7; 8] (2 ^ 32 - 2) = Raise IndexError /\
  PS5EMU1.write_uint32 np_uint32 [1; 2; 3; 4; 5; 6; 7; 8] (2 ^ 32 - 2) 9 = Raise ValueError /\
  PS5EMU1.write_bytes [1; 2; 3; 4; 5; 6; 7; 8] 8 [9; 9] = Ok [1; 2; 3; 4; 5; 6; 7; 8].
Proof.
  assert (Hlen : 4 <= len [1; 2; 3; 4; 5; 6; 7; 8] <= 2 ^ 32 - 4).
  { vm_compute. split; discriminate. }
  destruct (C1_checked_memory_guard_misses_a_wrapped_address
              [1; 2; 3; 4; 5; 6; 7; 8] 6 4 Hlen (or_intror eq_refl)) as [Hint _].
  destruct (C1_checked_memory_guard_misses_a_wrapped_address
              [1; 2; 3; 4; 5; 6; 7; 8] (2 ^ 32 - 2) 4 Hlen (or_intror eq_refl))
    as [Hword _].
  destruct (C1_checked_memory_guard_misses_a_wrapped_address
              [1; 2; 3; 4; 5; 6; 7; 8] 8 2 Hlen (or_intror eq_refl)) as [_ Hbytes].
  destruct (Hint eq_refl) as [[Hread _] _].
  destruct (Hword eq_refl) as (_ & _ & Hwrapped).
  assert (Hlast : 2 ^ 32 - 4 <= 2 ^ 32 - 2 < 2 ^ 32).
  { vm_compute. split; [discriminate|reflexivity]. }
  destruct (Hwrapped Hlast) as [Hraise Hraise'].
  split; [exact Hread|]. split; [exact Hraise|]. split.
  - apply Hraise'. vm_compute. split; [discriminate|reflexivity].
  - apply Hbytes; reflexivity.
Defined.

(** The unchecked variant (EMUPS55) has no guard at all: a read two bytes
    before the end of the 64KB memory raises instead of returning 0, and a
    write at address -8 lands eight bytes before the end. *)
Lemma unchecked_memory_raises_or_wraps :
  ~ (forall (memory : list Z) (A : Z),
       A < 0 \/ A + 4 > len memory ->
       EMUPS55.read_uint32 memory A = Ok 0 /\
       forall value, EMUPS55.write_uint32 memory A value = Ok memory).
Proof.
  intros H.
  destruct (H (mem EMUPS55.init) (64 * 1024 - 2)) as [Hread _].
  { right. vm_compute. reflexivity. }
  vm_compute in Hread. discriminate Hread.
Qed.

(** ** The memory buffer behind the state *)

Lemma mem_set_mem (s : Emulator) (m' : list Z) :
  (memory s < length (heap s))%nat -> mem (set_mem m' s) = m'.
Proof.
  intros H. unfold mem, set_mem, buffer; cbn.
  rewrite list_lookup_insert_eq by lia. reflexivity.
Qed.

Lemma mem_set_mem_dangling (s : Emulator) (m' : list Z) :
  (length (heap s) <= memory s)%nat -> mem (set_mem m' s) = mem s.
Proof.
  intros H. unfold mem, set_mem, buffer; cbn.
  rewrite list_insert_ge by lia. reflexivity.
Qed.

Lemma mem_dangling (s : Emulator) :
  (length (heap s) <= memory s)%nat -> mem s = [].
Proof.
  intros H. unfold mem, buffer. rewrite lookup_ge_None_2 by lia. reflexivity.
Qed.

(** ** SETPIXEL of the 64KB variant *)

(** A write_bytes that returns has left every cell outside its range alone. *)
Lemma unchecked_write_bytes_elsewhere (m m' : list Z) (a : Z) (vals : list Z) (k : nat) :
  0 <= a -> 1 < len vals ->
  EMUPS55.write_bytes m a vals = Ok m' ->
  ~ (a <= Z.of_nat k < a + len vals) ->
  m' !! k = m !! k.
Proof.
  intros Ha Hv Hw Hk. unfold EMUPS55.write_bytes in Hw.
  destruct (Z_le_gt_dec (a + len vals) (len m)) as [Hfit|Hcut].
  - rewrite slice_assign_fits in Hw by lia. injection Hw as <-.
    rewrite lookup_splice by (unfold len in *; lia).
    destruct (decide _) as [Hin|_]; [|reflexivity].
    unfold len in *. lia.
  - rewrite slice_assign_cut in Hw by lia. discriminate Hw.
Qed.

Lemma setpixel_guard_4bit (x y : Z) :
  (Z.land x 0xF <? 64) && (Z.land y 0xF <? 64) = true.
Proof.
  pose proof (field4_range x). pose proof (field4_range y).
  apply andb_true_iff. split; apply Z.ltb_lt; lia.
Qed.

(** C10: in the 64KB variant the decoded x and y of any SETPIXEL word
    are at most 15, the guard x < 64 and y < 64 holds for every word, so
    the instruction always is the write_bytes at y*64*4 + x*4, and the
    bytes of every pixel with x > 15 or y > 15 are after the instruction
    what they were before it. *)
Theorem C10_setpixel_reaches_only_the_top_left_16x16 (s : Emulator) (instruction : Z) :
  Z.land (Z.shiftr instruction 24) 0xFF = 5 ->
  let x := Z.land (Z.shiftr instruction 20) 0xF in
  let y := Z.land (Z.shiftr instruction 16) 0xF in
  let r := Z.land (Z.shiftr instruction 12) 0xF in
  let g := Z.land (Z.shiftr instruction 8) 0xF in
  let b := Z.land (Z.shiftr instruction 4) 0xF in
  let a := Z.land instruction 0xF in
  let s' := after (EMUPS55.execute_instruction instruction) s in
  0 <= x <= 15 /\ 0 <= y <= 15 /\
  (x <? 64) && (y <? 64) = true /\
  EMUPS55.dispatch instruction =
    writing (fun m => EMUPS55.write_bytes m (y * 64 * 4 + x * 4)
                        (uint8 <$> [r * 17; g * 17; b * 17; a * 17])) /\
  forall px py c : Z,
    0 <= px < 64 -> 0 <= py < 64 -> 0 <= c < 4 ->
    px > 15 \/ py > 15 ->
    mem s' !! Z.to_nat (py * 64 * 4 + px * 4 + c) =
    mem s !! Z.to_nat (py * 64 * 4 + px * 4 + c).
Proof.
  intros Hop x y r g b a s'.
  pose proof (field4_range (Z.shiftr instruction 20)) as Hx.
  pose proof (field4_range (Z.shiftr instruction 16)) as Hy.
  fold x in Hx. fold y in Hy.
  assert (Hd : EMUPS55.dispatch instruction =
    writing (fun m => EMUPS55.write_bytes m (y * 64 * 4 + x * 4)
                        (uint8 <$> [r * 17; g * 17; b * 17; a * 17]))).
  { unfold EMUPS55.dispatch. rewrite Hop. cbn [Z.eqb Pos.eqb].
    rewrite setpixel_guard_4bit. reflexivity. }
  split; [lia|]. split; [lia|]. split; [apply setpixel_guard_4bit|]. split; [exact Hd|].
  intros px py c Hpx Hpy Hc Hfar. subst s'.
  unfold EMUPS55.execute_instruction. rewrite Hd. run. unfold writing.
  destruct (EMUPS55.write_bytes (mem s) _ _) as [m'|e] eqn:Hw; cbn; [|reflexivity].
  change (mem (set_mem m' s) !! Z.to_nat (py * 64 * 4 + px * 4 + c) =
          mem s !! Z.to_nat (py * 64 * 4 + px * 4 + c)).
  destruct (le_lt_dec (length (heap s)) (memory s)) as [Hd1|Hd2].
  - rewrite mem_set_mem_dangling by lia. reflexivity.
  - rewrite mem_set_mem by lia.
    eapply unchecked_write_bytes_elsewhere; [| |exact Hw|].
    + lia.
    + reflexivity.
    + cbn. rewrite Z2Nat.id by lia.
      change (len [uint8 (r * 17); uint8 (g * 17); uint8 (b * 17); uint8 (a * 17)]) with 4.
      lia.
Qed.

Lemma C10_setpixel_witness :
  let instruction := Z.lor (Z.lor (Z.lor (Z.lor (Z.lor (Z.lor (Z.shiftl 5 24) (Z.shiftl 30 20))
      (Z.shiftl 30 16)) (Z.shiftl 0 12)) (Z.shiftl 0 8)) (Z.shiftl 15 4)) 15 in
  Z.land (Z.shiftr instruction 20) 0xF <= 15 /\
  mem (after (EMUPS55.execute_instruction instruction) EMUPS55.init)
    !! Z.to_nat (30 * 64 * 4 + 30 * 4 + 2) = Some 0.
Proof.
  intros instruction.
  destruct (C10_setpixel_reaches_only_the_top_left_16x16 EMUPS55.init instruction eq_refl)
    as (Hx & _ & _ & _ & Hfar).
  split; [apply Hx|].
  rewrite (Hfar 30 30 2) by lia. reflexivity.
Defined.

(** ** Well-formed object graphs *)

Lemma wf_mem (size fb : Z) (s : Emulator) :
  well_formed size fb s -> len (mem s) = size /\ (memory s < length (heap s))%nat.
Proof.
  intros (_ & Hmem & _ & m & Hheap & Hlen).
  unfold mem, buffer. rewrite Hheap, Hmem. cbn. split; [exact Hlen|lia].
Qed.

Lemma wf_framebuffer_bytes (size fb : Z) (s : Emulator) :
  well_formed size fb s -> 0 <= fb <= size ->
  framebuffer_bytes s = take (Z.to_nat fb) (mem s).
Proof.
  intros Hwf Hfb. pose proof (wf_mem _ _ _ Hwf) as [Hlen _].
  destruct Hwf as (_ & Hmem & Hview & _).
  unfold framebuffer_bytes, view_bytes. rewrite Hview. cbn [base start stop_].
  unfold mem in *. rewrite Hmem in *.
  rewrite slice_in_range by lia. rewrite Z.sub_0_r. reflexivity.
Qed.

Lemma wf_set_mem (size fb : Z) (s : Emulator) (m' : list Z) :
  well_formed size fb s -> length m' = length (mem s) ->
  well_formed size fb (set_mem m' s).
Proof.
  intros Hwf Hlen'. pose proof (wf_mem _ _ _ Hwf) as [Hlen _].
  destruct Hwf as (Hregs & Hmem & Hview & m & Hheap & _).
  repeat split; try assumption.
  exists m'. cbn. rewrite Hheap, Hmem. split; [reflexivity|].
  unfold len in *. lia.
Qed.

Lemma wf_set_cpu (size fb : Z) (s : Emulator) (c : CPU) :
  well_formed size fb s -> length (registers c) = 16%nat ->
  well_formed size fb (set_cpu c s).
Proof. intros (Hregs & Hmem & Hview & Hheap) Hc. repeat split; assumption. Qed.

(** ** Reading slices back *)

Lemma lookup_slice {A : Type} (l : list A) (a b : Z) (k : nat) :
  0 <= a <= b -> b <= len l ->
  slice l a b !! k =
  if decide (Z.of_nat k < b - a) then l !! (Z.to_nat a + k)%nat else None.
Proof.
  intros H1 H2. rewrite slice_in_range by lia.
  destruct (decide (Z.of_nat k < b - a)) as [Hin|Hout].
  - rewrite lookup_take_lt by lia. apply lookup_drop.
  - apply lookup_ge_None_2. rewrite length_take. lia.
Qed.

Lemma slice_of_splice (l vals : list Z) (a : Z) (n : nat) :
  0 <= a -> a + len vals <= Z.of_nat n -> (n <= length l)%nat ->
  slice (take n (take (Z.to_nat a) l ++ vals ++ drop (Z.to_nat a + length vals) l))
        a (a + len vals) = vals.
Proof.
  intros Ha Hfit Hn. pose proof (len_nonneg vals) as Hv. unfold len in *.
  apply list_eq. intros k.
  rewrite lookup_slice.
  2: lia.
  2: { unfold len. rewrite length_take, !length_app, length_take, length_drop. lia. }
  destruct (decide _) as [Hin|Hout].
  - rewrite lookup_take_lt by lia.
    rewrite lookup_splice by lia.
    destruct (decide _) as [_|Hno]; [f_equal; lia|lia].
  - symmetry. apply lookup_ge_None_2. lia.
Qed.

Lemma uint8_small (v : Z) : 0 <= v < 256 -> uint8 v = v.
Proof. intros H. unfold uint8. apply Z.mod_small. lia. Qed.

Lemma setpixel_guard_8bit (x y : Z) :
  x < 128 -> y < 128 -> (x <? 128) && (y <? 128) = true.
Proof. intros Hx Hy. apply andb_true_iff. split; apply Z.ltb_lt; lia. Qed.

(** A write_bytes inside memory, in either variant, on a well-formed state. *)
Lemma writing_write_bytes_fits (size fb : Z) (s : Emulator) (a : Z) (vals : list Z) :
  well_formed size fb s -> 0 <= a -> a + len vals <= size -> size < 2 ^ 32 ->
  let m' := take (Z.to_nat a) (mem s) ++ vals ++ drop (Z.to_nat a + length vals) (mem s) in
  writing (fun m => EMUPS55.write_bytes m a vals) s = (Ok tt, set_mem m' s) /\
  writing (fun m => PS5EMU1.write_bytes m a vals) s = (Ok tt, set_mem m' s) /\
  well_formed size fb (set_mem m' s) /\
  mem (set_mem m' s) = m'.
Proof.
  intros Hwf Ha Hfit Hsize m'. pose proof (wf_mem _ _ _ Hwf) as [Hlen Hheap].
  pose proof (len_nonneg vals) as Hvals.
  assert (Hw : EMUPS55.write_bytes (mem s) a vals = Ok m').
  { unfold EMUPS55.write_bytes. apply slice_assign_fits; lia. }
  split; [|split; [|split]].
  - unfold writing. rewrite Hw. reflexivity.
  - unfold writing, PS5EMU1.write_bytes. rewrite add_exact by lia.
    destruct (Z.ltb_spec a 0); [lia|]. destruct (Z.gtb_spec (a + len vals) (len (mem s))); [lia|].
    cbn [orb]. unfold EMUPS55.write_bytes in Hw. rewrite Hw. reflexivity.
  - apply wf_set_mem; [assumption|].
    eapply slice_assign_length. exact Hw.
  - apply mem_set_mem. assumption.
Qed.

(** ** SETPIXEL: what lands in the framebuffer *)

(** C4: SETPIXEL on a well-formed machine returns and leaves in the
    framebuffer, at the four cells of the pixel, each raw channel value
    times floor(255 / (2^w - 1)): times 17 for the 4-bit fields of the
    64KB variant, times 36 for the 3-bit fields of the 128KB variant
    (there, when x and y are below 128); 4-bit 15 gives 255 and 0 gives 0. *)
Theorem C4_setpixel_stores_scaled_channels (s : Emulator) (instruction : Z) :
  Z.land (Z.shiftr instruction 24) 0xFF = 5 ->
  (EMUPS55_wf s ->
   let x := Z.land (Z.shiftr instruction 20) 0xF in
   let y := Z.land (Z.shiftr instruction 16) 0xF in
   let r := Z.land (Z.shiftr instruction 12) 0xF in
   let g := Z.land (Z.shiftr instruction 8) 0xF in
   let b := Z.land (Z.shiftr instruction 4) 0xF in
   let a := Z.land instruction 0xF in
   let s' := after (EMUPS55.execute_instruction instruction) s in
   returns (EMUPS55.execute_instruction instruction) s /\
   slice (framebuffer_bytes s') (y * 64 * 4 + x * 4) (y * 64 * 4 + x * 4 + 4) =
     spec_scaled 4 <$> [r; g; b; a] /\
   spec_scaled 4 <$> [r; g; b; a] = [r * 17; g * 17; b * 17; a * 17]) /\
  (PS5EMU1_wf s ->
   let x := Z.land (Z.shiftr instruction 20) 0xFF in
   let y := Z.land (Z.shiftr instruction 12) 0xFF in
   let r := Z.land (Z.shiftr instruction 9) 0x7 in
   let g := Z.land (Z.shiftr instruction 6) 0x7 in
   let b := Z.land (Z.shiftr instruction 3) 0x7 in
   let a := Z.land instruction 0x7 in
   let s' := after (PS5EMU1.execute_instruction instruction) s in
   x < 128 -> y < 128 ->
   returns (PS5EMU1.execute_instruction instruction) s /\
   slice (framebuffer_bytes s') (y * 128 * 4 + x * 4) (y * 128 * 4 + x * 4 + 4) =
     spec_scaled 3 <$> [r; g; b; a] /\
   spec_scaled 3 <$> [r; g; b; a] = [r * 36; g * 36; b * 36; a * 36]) /\
  spec_scaled 4 15 = 255 /\ spec_scaled 4 0 = 0.
Proof.
  intros Hop. split; [|split; [|split; reflexivity]].
  - intros Hwf x y r g b a s'.
    pose proof (field4_range (Z.shiftr instruction 20)) as Hx.
    pose proof (field4_range (Z.shiftr instruction 16)) as Hy.
    pose proof (field4_range (Z.shiftr instruction 12)) as Hr.
    pose proof (field4_range (Z.shiftr instruction 8)) as Hg.
    pose proof (field4_range (Z.shiftr instruction 4)) as Hb.
    pose proof (field4_range instruction) as Hal.
    fold x in Hx. fold y in Hy. fold r in Hr. fold g in Hg. fold b in Hb. fold a in Hal.
    set (vals := [r * 17; g * 17; b * 17; a * 17]).
    destruct (writing_write_bytes_fits _ _ s (y * 64 * 4 + x * 4) vals Hwf)
      as (Hw & _ & Hwf' & Hmem'); [lia|change (len vals) with 4; lia|lia|].
    assert (Hrun : EMUPS55.execute_instruction instruction s =
                   (Ok tt, set_cpu (mkCPU (registers (cpu s)) (pc (cpu s) + 4))
                      (set_mem (take (Z.to_nat (y * 64 * 4 + x * 4)) (mem s) ++ vals ++
                                drop (Z.to_nat (y * 64 * 4 + x * 4) + length vals) (mem s)) s))).
    { unfold EMUPS55.execute_instruction, EMUPS55.dispatch. rewrite Hop. cbn [Z.eqb Pos.eqb].
      rewrite setpixel_guard_4bit. fold x y r g b a. cbn [fmap list_fmap].
      rewrite !uint8_small by lia. fold vals. run. rewrite Hw. reflexivity. }
    subst s'. unfold returns, after. rewrite Hrun. cbn [fst snd].
    split; [eauto|]. split; [|reflexivity].
    rewrite (wf_framebuffer_bytes (64 * 1024) (64 * 64 * 4)); [|apply wf_set_cpu; [exact Hwf'|apply Hwf]|lia].
    change (mem (set_cpu _ ?t)) with (mem t). rewrite Hmem'.
    change (y * 64 * 4 + x * 4 + 4) with (y * 64 * 4 + x * 4 + len vals).
    apply slice_of_splice; [lia|change (len (spec_scaled 4 <$> [r; g; b; a])) with 4; lia|].
    pose proof (wf_mem _ _ _ Hwf) as [Hlen _]. unfold len in Hlen. lia.
  - intros Hwf x y r g b a s' Hx' Hy'.
    pose proof (field8_range (Z.shiftr instruction 20)) as Hx.
    pose proof (field8_range (Z.shiftr instruction 12)) as Hy.
    pose proof (field3_range (Z.shiftr instruction 9)) as Hr.
    pose proof (field3_range (Z.shiftr instruction 6)) as Hg.
    pose proof (field3_range (Z.shiftr instruction 3)) as Hb.
    pose proof (field3_range instruction) as Hal.
    fold x in Hx. fold y in Hy. fold r in Hr. fold g in Hg. fold b in Hb. fold a in Hal.
    set (vals := [r * 36; g * 36; b * 36; a * 36]).
    destruct (writing_write_bytes_fits _ _ s (y * 128 * 4 + x * 4) vals Hwf)
      as (_ & Hw & Hwf' & Hmem'); [lia|change (len vals) with 4; lia|lia|].
    assert (Hrun : PS5EMU1.execute_instruction instruction s =
                   (Ok tt, set_cpu (mkCPU (registers (cpu s)) (pc (cpu s) + 4))
                      (set_mem (take (Z.to_nat (y * 128 * 4 + x * 4)) (mem s) ++ vals ++
                                drop (Z.to_nat (y * 128 * 4 + x * 4) + length vals) (mem s)) s))).
    { unfold PS5EMU1.execute_instruction, PS5EMU1.dispatch. rewrite Hop. cbn [Z.eqb Pos.eqb].
      fold x y r g b a. rewrite (setpixel_guard_8bit x y) by lia. cbn [fmap list_fmap].
      rewrite !uint8_small by lia. fold vals. run. rewrite Hw. reflexivity. }
    subst s'. unfold returns, after. rewrite Hrun. cbn [fst snd].
    split; [eauto|]. split; [|reflexivity].
    rewrite (wf_framebuffer_bytes (128 * 1024) (128 * 128 * 4)); [|apply wf_set_cpu; [exact Hwf'|apply Hwf]|lia].
    change (mem (set_cpu _ ?t)) with (mem t). rewrite Hmem'.
    change (y * 128 * 4 + x * 4 + 4) with (y * 128 * 4 + x * 4 + len vals).
    apply slice_of_splice; [lia|change (len (spec_scaled 3 <$> [r; g; b; a])) with 4; lia|].
    pose proof (wf_mem _ _ _ Hwf) as [Hlen _]. unfold len in Hlen. lia.
Qed.

Lemma EMUPS55_init_wf : EMUPS55_wf EMUPS55.init.
Proof.
  repeat split. eexists. split; [reflexivity|].
  unfold len. rewrite length_replicate. lia.
Qed.

Lemma PS5EMU1_init_wf : PS5EMU1_wf PS5EMU1.init.
Proof.
  repeat split. eexists. split; [reflexivity|].
  unfold len. rewrite length_replicate. lia.
Qed.

Lemma C4_setpixel_witness :
  slice (framebuffer_bytes
           (after (EMUPS55.execute_instruction
                     (Z.lor (Z.lor (Z.lor (Z.shiftl 5 24) (Z.shiftl 10 20)) (Z.shiftl 10 16))
                            (Z.lor (Z.shiftl 15 12) 15)))
                  EMUPS55.init))
        (10 * 64 * 4 + 10 * 4) (10 * 64 * 4 + 10 * 4 + 4) = [255; 0; 0; 255] /\
  slice (framebuffer_bytes
           (after (PS5EMU1.execute_instruction
                     (Z.lor (Z.lor (Z.shiftl 5 24) (Z.shiftl 1 12)) (Z.lor (Z.shiftl 7 9) 7)))
                  PS5EMU1.init))
        (1 * 128 * 4 + 80 * 4) (1 * 128 * 4 + 80 * 4 + 4) = [252; 0; 0; 252].
Proof.
  split.
  - destruct (C4_setpixel_stores_scaled_channels EMUPS55.init
                (Z.lor (Z.lor (Z.lor (Z.shiftl 5 24) (Z.shiftl 10 20)) (Z.shiftl 10 16))
                       (Z.lor (Z.shiftl 15 12) 15)) eq_refl) as [H _].
    exact (proj1 (proj2 (H EMUPS55_init_wf))).
  - destruct (C4_setpixel_stores_scaled_channels PS5EMU1.init
                (Z.lor (Z.lor (Z.shiftl 5 24) (Z.shiftl 1 12)) (Z.lor (Z.shiftl 7 9) 7))
                eq_refl) as [_ [H _]].
    exact (proj1 (proj2 (H PS5EMU1_init_wf eq_refl eq_refl))).
Defined.

(** ** Words in memory *)

Lemma slice_length_in_range {A : Type} (l : list A) (a b : Z) :
  0 <= a <= b -> b <= len l -> length (slice l a b) = Z.to_nat (b - a).
Proof.
  intros H1 H2. rewrite slice_in_range by lia.
  rewrite length_take, length_drop. unfold len in *. lia.
Qed.

(** A buffer of exactly four bytes is one uint32. *)
Lemma frombuffer_word (buf : list Z) :
  length buf = 4%nat ->
  (a ← frombuffer 4 buf; getitem a 0) = Ok (le_combine buf).
Proof.
  intros H. unfold frombuffer. rewrite H. cbn.
  rewrite take_ge by lia. reflexivity.
Qed.

Lemma le_combine_range (bs : list Z) :
  Forall is_byte bs -> 0 <= le_combine bs < 2 ^ (8 * len bs).
Proof.
  induction 1 as [|b bs Hb _ IH]; [change (0 <= 0 < 1); lia|].
  cbn [le_combine]. unfold len in *. cbn [length].
  replace (8 * Z.of_nat (S (length bs))) with (8 + 8 * Z.of_nat (length bs)) by lia.
  rewrite Z.pow_add_r by lia. unfold is_byte in Hb.
  change (2 ^ 8) with 256 in *. nia.
Qed.

Lemma le_split_combine (bs : list Z) :
  Forall is_byte bs -> le_split (length bs) (le_combine bs) = bs.
Proof.
  induction 1 as [|b bs Hb _ IH]; [reflexivity|].
  cbn [length le_split le_combine]. unfold is_byte in Hb.
  change (2 ^ 8) with 256.
  replace (b + 256 * le_combine bs) with (b + le_combine bs * 256) by lia.
  rewrite Z_mod_plus_full, Z_div_plus_full by lia.
  rewrite Z.mod_small, Z.div_small, Z.add_0_l by lia.
  rewrite IH. reflexivity.
Qed.

Lemma le_split_length (n : nat) (v : Z) : length (le_split n v) = n.
Proof. revert v. induction n as [|n IH]; intros v; cbn; [reflexivity|]. rewrite IH. reflexivity. Qed.

Lemma le_split_bytes (n : nat) (v : Z) : Forall is_byte (le_split n v).
Proof.
  revert v. induction n as [|n IH]; intros v; cbn [le_split]; constructor; [|apply IH].
  unfold is_byte. change (2 ^ 8) with 256. apply Z.mod_pos_bound. lia.
Qed.

Lemma le_combine_split (n : nat) (v : Z) :
  le_combine (le_split n v) = v mod 2 ^ (8 * Z.of_nat n).
Proof.
  revert v. induction n as [|n IH]; intros v.
  - cbn. rewrite Z.mod_1_r. reflexivity.
  - cbn [le_split le_combine]. rewrite IH.
    replace (8 * Z.of_nat (S n)) with (8 + 8 * Z.of_nat n) by lia.
    rewrite Z.pow_add_r by lia. change (2 ^ 8) with 256.
    rewrite Z.rem_mul_r by lia. lia.
Qed.

Lemma bytes_of_uint32_length (v : Z) : len (bytes_of_uint32 v) = 4.
Proof. unfold len, bytes_of_uint32. rewrite le_split_length. reflexivity. Qed.

Lemma bytes_of_uint32_combine (bs : list Z) :
  length bs = 4%nat -> Forall is_byte bs -> bytes_of_uint32 (le_combine bs) = bs.
Proof.
  intros Hlen Hbs. unfold bytes_of_uint32, uint32.
  pose proof (le_combine_range bs Hbs) as Hr. unfold len in Hr. rewrite Hlen in Hr.
  rewrite Z.mod_small by (change (8 * Z.of_nat 4) with 32 in Hr; lia).
  rewrite <- Hlen. apply le_split_combine. exact Hbs.
Qed.

(** ** The bounds-checked Memory inside its bounds *)

Lemma checked_read_uint32_in_range (t : dtype) (m : list Z) (a : Z) :
  0 <= a -> a + 4 <= len m -> add t a 4 = a + 4 ->
  PS5EMU1.read_uint32 t m a = Ok (le_combine (slice m a (a + 4))) /\
  EMUPS55.read_uint32 m a = Ok (le_combine (slice m a (a + 4))).
Proof.
  intros Ha Hfit Hadd. unfold PS5EMU1.read_uint32, EMUPS55.read_uint32. rewrite Hadd.
  destruct (Z.ltb_spec a 0); [lia|]. destruct (Z.gtb_spec (a + 4) (len m)); [lia|].
  cbn [orb]. rewrite frombuffer_word; [split; reflexivity|].
  rewrite slice_length_in_range by lia. lia.
Qed.

(** Called with a Python int, [read_uint32] and [write_uint32] return
    whatever the address. *)
Lemma checked_read_uint32_total (m : list Z) (a : Z) :
  exists v, PS5EMU1.read_uint32 py_int m a = Ok v.
Proof.
  destruct (Z_lt_ge_dec a 0) as [Hneg|Hpos].
  - exists 0. apply checked_access_turned_away. left. exact Hneg.
  - destruct (Z_le_gt_dec (a + 4) (len m)) as [Hfit|Hcut].
    + eexists. apply checked_read_uint32_in_range; [lia|lia|reflexivity].
    + exists 0. apply checked_access_turned_away. right. exact Hcut.
Qed.

Lemma checked_write_uint32_length (t : dtype) (m : list Z) (a v : Z) (m' : list Z) :
  PS5EMU1.write_uint32 t m a v = Ok m' -> length m' = length m.
Proof.
  unfold PS5EMU1.write_uint32.
  destruct ((a <? 0) || (add t a 4 >? len m)); [intros [= <-]; reflexivity|].
  apply slice_assign_length.
Qed.

Lemma checked_write_bytes_length (m : list Z) (a : Z) (vals m' : list Z) :
  PS5EMU1.write_bytes m a vals = Ok m' -> length m' = length m.
Proof.
  unfold PS5EMU1.write_bytes.
  destruct ((a <? 0) || (add np_uint32 a (len vals) >? len m)); [intros [= <-]; reflexivity|].
  apply slice_assign_length.
Qed.

Lemma checked_write_uint32_total (m : list Z) (a v : Z) :
  exists m', PS5EMU1.write_uint32 py_int m a v = Ok m' /\ length m' = length m.
Proof.
  assert (H : exists m', PS5EMU1.write_uint32 py_int m a v = Ok m').
  { unfold PS5EMU1.write_uint32, add.
    destruct (Z.ltb_spec a 0); [eexists; reflexivity|].
    destruct (Z.gtb_spec (a + 4) (len m)); [eexists; reflexivity|].
    cbn [orb]. eexists.
    replace (a + 4) with (a + len (bytes_of_uint32 v))
      by (rewrite bytes_of_uint32_length; reflexivity).
    apply slice_assign_fits; rewrite ?bytes_of_uint32_length; lia. }
  destruct H as [m' H]. exists m'. split; [exact H|].
  eapply checked_write_uint32_length. exact H.
Qed.

(** ** Invariants of calls *)

Lemma total_keeps {S A : Type} (P : S -> Prop) (m : St S A) : total P m -> keeps P m.
Proof. intros H s Hs. apply H. exact Hs. Qed.

Lemma total_bind {S A B : Type} (P : S -> Prop) (m : St S A) (f : A -> St S B) :
  total P m -> (forall a, total P (f a)) -> total P (m ≫= f).
Proof.
  intros Hm Hf s Hs. destruct (Hm s Hs) as [[a Ha] HP].
  unfold returns, after, mbind, St_mbind, St_bind in *.
  destruct (m s) as [[a'|e] s1]; cbn in *; [|discriminate].
  apply Hf. exact HP.
Qed.

Lemma keeps_bind {S A B : Type} (P : S -> Prop) (m : St S A) (f : A -> St S B) :
  keeps P m -> (forall a, keeps P (f a)) -> keeps P (m ≫= f).
Proof.
  intros Hm Hf s Hs. pose proof (Hm s Hs) as HP.
  unfold after, mbind, St_mbind, St_bind in *.
  destruct (m s) as [[a'|e] s1]; cbn in *; [|exact HP].
  apply Hf. exact HP.
Qed.

Lemma total_ret {S A : Type} (P : S -> Prop) (a : A) : total P (mret a : St S A).
Proof. intros s Hs. split; [exists a; reflexivity|exact Hs]. Qed.

Lemma total_modify {S : Type} (P : S -> Prop) (f : S -> S) :
  (forall s, P s -> P (f s)) -> total P (modify f).
Proof. intros Hf s Hs. split; [exists tt; reflexivity|apply Hf; exact Hs]. Qed.

Lemma total_gets {S A : Type} (P : S -> Prop) (f : S -> A) : total P (gets f).
Proof. intros s Hs. split; [eexists; reflexivity|exact Hs]. Qed.

Lemma keeps_lift {S A : Type} (P : S -> Prop) (r : result A) : keeps P (lift r : St S A).
Proof. intros s Hs. exact Hs. Qed.

Lemma keeps_for_each {S A : Type} (P : S -> Prop) (body : A -> St S unit) (xs : list A) :
  (forall x, keeps P (body x)) -> keeps P (for_each body xs).
Proof.
  intros Hbody. induction xs as [|x xs IH]; cbn [for_each].
  - apply total_keeps, total_ret.
  - apply keeps_bind; [apply Hbody|intros _; exact IH].
Qed.

Lemma total_for_each {S A : Type} (P : S -> Prop) (body : A -> St S unit) (xs : list A) :
  (forall x, total P (body x)) -> total P (for_each body xs).
Proof.
  intros Hbody. induction xs as [|x xs IH]; cbn [for_each].
  - apply total_ret.
  - apply total_bind; [apply Hbody|intros _; exact IH].
Qed.

(** *** The primitive accesses on a well-formed graph *)

Section Well_formed.

Variables size fb : Z.

Local Abbreviation wf := (well_formed size fb).

Lemma total_get_reg_field (x : Z) : total wf (get_reg (Z.land x 0xF)).
Proof.
  intros s Hs. unfold returns, after. rewrite get_reg_field by apply Hs.
  split; [eexists; reflexivity|exact Hs].
Qed.

Lemma total_set_reg_field (x v : Z) : total wf (set_reg (Z.land x 0xF) v).
Proof.
  intros s Hs. unfold returns, after. rewrite set_reg_field by apply Hs.
  split; [eexists; reflexivity|].
  apply wf_set_cpu; [exact Hs|]. cbn. rewrite length_insert. apply Hs.
Qed.

Lemma total_get_pc : total wf get_pc.
Proof. apply total_gets. Qed.

Lemma total_set_pc (v : Z) : total wf (set_pc v).
Proof. apply total_modify. intros s Hs. apply wf_set_cpu; [exact Hs|apply Hs]. Qed.

Lemma total_put_log (e : event) : total wf (modify (put_log e)).
Proof. apply total_modify. intros s Hs. exact Hs. Qed.

Lemma total_put_status (e : event) : total wf (modify (put_status e)).
Proof. apply total_modify. intros s Hs. exact Hs. Qed.

Lemma total_set_is_running (b : bool) : total wf (modify (set_is_running b)).
Proof. apply total_modify. intros s Hs. exact Hs. Qed.

Lemma total_set_game_loaded (b : bool) : total wf (modify (set_game_loaded b)).
Proof. apply total_modify. intros s Hs. exact Hs. Qed.

Lemma keeps_reading {A : Type} (f : list Z -> result A) : keeps wf (reading f).
Proof. intros s Hs. exact Hs. Qed.

Lemma total_reading {A : Type} (f : list Z -> result A) :
  (forall m, exists a, f m = Ok a) -> total wf (reading f).
Proof.
  intros Hf s Hs. unfold returns, after, reading. cbn.
  split; [apply Hf|exact Hs].
Qed.

(** An in-place update keeps the graph well formed when it keeps the
    array's length, as every numpy assignment does. *)
Lemma keeps_writing (f : list Z -> result (list Z)) :
  (forall m m', f m = Ok m' -> length m' = length m) -> keeps wf (writing f).
Proof.
  intros Hf s Hs. unfold after, writing.
  destruct (f (mem s)) as [m'|e] eqn:E; cbn; [|exact Hs].
  apply wf_set_mem; [exact Hs|]. eapply Hf. exact E.
Qed.

Lemma total_writing (f : list Z -> result (list Z)) :
  (forall m, exists m', f m = Ok m' /\ length m' = length m) -> total wf (writing f).
Proof.
  intros Hf s Hs. unfold returns, after, writing.
  destruct (Hf (mem s)) as (m' & E & Hlen). rewrite E. cbn.
  split; [eexists; reflexivity|]. apply wf_set_mem; assumption.
Qed.

End Well_formed.

(** *** Every method keeps the graph well formed *)

Ltac total_atom :=
  first
    [ apply total_ret | apply total_get_reg_field | apply total_set_reg_field
    | apply total_get_pc | apply total_set_pc | apply total_put_log
    | apply total_put_status | apply total_set_is_running
    | apply total_set_game_loaded | apply total_gets
    | apply total_reading; intros ?; apply checked_read_uint32_total
    | apply total_writing; intros ?; apply checked_write_uint32_total ].

Ltac total_auto :=
  repeat first
    [ total_atom
    | apply total_bind; [|intros ?]
    | match goal with
      | |- total _ (if ?c then _ else _) => destruct c
      end ].

Ltac keeps_auto :=
  repeat first
    [ apply total_keeps; total_atom
    | apply keeps_reading
    | apply keeps_lift
    | apply keeps_writing; intros ? ? ?;
      first [ eapply slice_assign_length; eassumption
            | eapply checked_write_uint32_length; eassumption
            | eapply checked_write_bytes_length; eassumption ]
    | apply keeps_bind; [|intros ?]
    | match goal with
      | |- keeps _ (if ?c then _ else _) => destruct c
      end ].

(** LDR and STR of the 128KB variant can raise (at a wrapped address), so
    an instruction keeps the graph well formed without always returning. *)
Lemma PS5EMU1_dispatch_keeps (instruction : Z) :
  keeps PS5EMU1_wf (PS5EMU1.dispatch instruction).
Proof. unfold PS5EMU1.dispatch. cbv zeta. keeps_auto. Qed.

Lemma PS5EMU1_execute_instruction_keeps (instruction : Z) :
  keeps PS5EMU1_wf (PS5EMU1.execute_instruction instruction).
Proof.
  unfold PS5EMU1.execute_instruction.
  apply keeps_bind; [apply PS5EMU1_dispatch_keeps|]. intros ?. keeps_auto.
Qed.

Lemma PS5EMU1_stop_total : total PS5EMU1_wf PS5EMU1.stop.
Proof. unfold PS5EMU1.stop. total_auto. Qed.

Lemma PS5EMU1_run_cycle_keeps : keeps PS5EMU1_wf PS5EMU1.run_cycle.
Proof.
  unfold PS5EMU1.run_cycle.
  apply keeps_bind; [keeps_auto|]. intros running. destruct (negb running); [keeps_auto|].
  apply keeps_bind; [keeps_auto|]. intros p.
  apply keeps_bind; [keeps_auto|]. intros instruction.
  apply keeps_bind; [apply PS5EMU1_execute_instruction_keeps|]. intros _.
  apply keeps_bind; [keeps_auto|]. intros p'.
  apply keeps_bind; [keeps_auto|]. intros n.
  destruct (p' >=? n); [apply total_keeps, PS5EMU1_stop_total|keeps_auto].
Qed.

Lemma total_for_each_in {S A : Type} (P : S -> Prop) (body : A -> St S unit) (xs : list A) :
  Forall (fun x => total P (body x)) xs -> total P (for_each body xs).
Proof.
  induction 1 as [|x xs Hx _ IH]; cbn [for_each].
  - apply total_ret.
  - apply total_bind; [exact Hx|intros _; exact IH].
Qed.

Lemma py_range_nonneg (stop step : Z) :
  0 < step -> Forall (fun i => 0 <= i) (py_range stop step).
Proof.
  intros Hstep. unfold py_range. apply Forall_fmap, Forall_forall.
  intros k _. cbn. lia.
Qed.

(** The word [load_game] reads at offset [i] of the file. *)
Lemma load_word_value (game_data : list Z) (i : Z) :
  0 <= i ->
  (if i + 4 <=? len game_data
   then a ← frombuffer 4 (slice game_data i (i + 4)); getitem a 0
   else Ok 0) =
  Ok (if i + 4 <=? len game_data then le_combine (slice game_data i (i + 4)) else 0).
Proof.
  intros Hi. destruct (Z.leb_spec (i + 4) (len game_data)); [|reflexivity].
  apply frombuffer_word. rewrite slice_length_in_range by lia. lia.
Qed.

Lemma PS5EMU1_load_word_total (game_data : list Z) (i : Z) :
  0 <= i -> total PS5EMU1_wf (PS5EMU1.load_word game_data i).
Proof.
  intros Hi. unfold PS5EMU1.load_word. rewrite load_word_value by exact Hi.
  apply total_bind; [|intros ?; total_atom].
  intros s Hs. split; [eexists; reflexivity|exact Hs].
Qed.

Lemma PS5EMU1_load_game_total (game_data : list Z) :
  total PS5EMU1_wf (PS5EMU1.load_game game_data).
Proof.
  unfold PS5EMU1.load_game.
  apply total_bind; [total_atom|]. intros _.
  apply total_bind; [|intros _; total_auto].
  apply total_for_each_in.
  eapply Forall_impl; [apply py_range_nonneg; lia|].
  intros i Hi. apply PS5EMU1_load_word_total. exact Hi.
Qed.

Lemma PS5EMU1_load_demo_total : total PS5EMU1_wf PS5EMU1.load_demo.
Proof.
  unfold PS5EMU1.load_demo.
  apply total_bind; [|intros _; total_auto].
  apply total_for_each. intros [i inst]. total_atom.
Qed.

Lemma PS5EMU1_start_total : total PS5EMU1_wf PS5EMU1.start.
Proof. unfold PS5EMU1.start. total_auto. Qed.

Lemma PS5EMU1_pause_total : total PS5EMU1_wf PS5EMU1.pause.
Proof. unfold PS5EMU1.pause. total_auto. Qed.

(** Every call but run_cycle returns; all keep the graph well formed. *)
Lemma PS5EMU1_perform_total (c : PS5EMU1.call) :
  c <> PS5EMU1.RunCycle -> total PS5EMU1_wf (PS5EMU1.perform c).
Proof.
  intros Hc. destruct c; cbn [PS5EMU1.perform].
  - apply PS5EMU1_load_game_total.
  - apply PS5EMU1_load_demo_total.
  - apply PS5EMU1_start_total.
  - apply PS5EMU1_pause_total.
  - apply PS5EMU1_stop_total.
  - congruence.
Qed.

Lemma PS5EMU1_perform_keeps (c : PS5EMU1.call) : keeps PS5EMU1_wf (PS5EMU1.perform c).
Proof.
  destruct c; try (apply total_keeps, PS5EMU1_perform_total; discriminate).
  apply PS5EMU1_run_cycle_keeps.
Qed.

Lemma PS5EMU1_reachable_wf (s : Emulator) : PS5EMU1.reachable s -> PS5EMU1_wf s.
Proof.
  induction 1 as [|s c _ IH]; [apply PS5EMU1_init_wf|].
  apply PS5EMU1_perform_keeps. exact IH.
Qed.

(** The 64KB variant can raise, but what it leaves behind is well formed. *)

Lemma EMUPS55_dispatch_keeps (instruction : Z) :
  keeps EMUPS55_wf (EMUPS55.dispatch instruction).
Proof. unfold EMUPS55.dispatch. cbv zeta. keeps_auto. Qed.

Lemma EMUPS55_execute_instruction_keeps (instruction : Z) :
  keeps EMUPS55_wf (EMUPS55.execute_instruction instruction).
Proof.
  unfold EMUPS55.execute_instruction.
  apply keeps_bind; [apply EMUPS55_dispatch_keeps|]. intros ?. keeps_auto.
Qed.

Lemma EMUPS55_stop_keeps : keeps EMUPS55_wf EMUPS55.stop.
Proof. unfold EMUPS55.stop. keeps_auto. Qed.

Lemma EMUPS55_run_cycle_keeps : keeps EMUPS55_wf EMUPS55.run_cycle.
Proof.
  unfold EMUPS55.run_cycle.
  apply keeps_bind; [keeps_auto|]. intros running. destruct (negb running); [keeps_auto|].
  apply keeps_bind; [keeps_auto|]. intros p.
  apply keeps_bind; [keeps_auto|]. intros instruction.
  apply keeps_bind; [apply EMUPS55_execute_instruction_keeps|]. intros _.
  apply keeps_bind; [keeps_auto|]. intros p'.
  apply keeps_bind; [keeps_auto|]. intros n.
  destruct (p' >=? n); [apply EMUPS55_stop_keeps|keeps_auto].
Qed.

Lemma EMUPS55_perform_keeps (c : EMUPS55.call) : keeps EMUPS55_wf (EMUPS55.perform c).
Proof.
  destruct c; cbn [EMUPS55.perform].
  - unfold EMUPS55.load_game.
    apply keeps_bind; [keeps_auto|]. intros _.
    apply keeps_bind; [|intros _; keeps_auto].
    apply keeps_for_each. intros i. unfold EMUPS55.load_word. keeps_auto.
  - unfold EMUPS55.load_demo.
    apply keeps_bind; [|intros _; keeps_auto].
    apply keeps_for_each. intros [i inst]. keeps_auto.
  - unfold EMUPS55.start. keeps_auto.
  - unfold EMUPS55.pause. keeps_auto.
  - apply EMUPS55_stop_keeps.
  - apply EMUPS55_run_cycle_keeps.
Qed.

Lemma EMUPS55_reachable_wf (s : Emulator) : EMUPS55.reachable s -> EMUPS55_wf s.
Proof.
  induction 1 as [|s c _ IH]; [apply EMUPS55_init_wf|].
  apply EMUPS55_perform_keeps. exact IH.
Qed.

(** ** run_cycle *)

Lemma returns_or_raises {S A : Type} (m : St S A) (s : S) :
  returns m s \/ exists e, m s = (Raise e, after m s).
Proof.
  unfold returns, after. destruct (m s) as [[a|e] s']; cbn; [left|right]; eauto.
Qed.

Lemma raises_not_returns {S A : Type} (m : St S A) (s s' : S) (e : exn) :
  m s = (Raise e, s') -> ~ returns m s.
Proof. intros E [a Ha]. rewrite E in Ha. discriminate Ha. Qed.

(** An instruction of the 128KB variant that raises has changed nothing:
    the accesses that can raise come before any update. *)
Lemma PS5EMU1_dispatch_raises_in_place (instruction : Z) (s s' : Emulator) (e : exn) :
  PS5EMU1.dispatch instruction s = (Raise e, s') -> s' = s.
Proof.
  unfold PS5EMU1.dispatch. cbv zeta.
  repeat match goal with
         | |- context [if ?c then _ else _] => destruct c
         end;
    unfold mbind, mret, St_mbind, St_mret, St_bind, St_ret, get_reg, set_reg,
      reading, writing, get_pc, set_pc, modify, gets; cbv beta iota;
    repeat match goal with
           | |- context [match ?x with _ => _ end] =>
               lazymatch x with
               | context [match _ with _ => _ end] => fail
               | _ => destruct x; cbv beta iota
               end
           end;
    congruence.
Qed.

Lemma PS5EMU1_execute_instruction_raises_in_place
    (instruction : Z) (s s' : Emulator) (e : exn) :
  PS5EMU1.execute_instruction instruction s = (Raise e, s') -> s' = s.
Proof.
  unfold PS5EMU1.execute_instruction, mbind, St_mbind, St_bind.
  destruct (PS5EMU1.dispatch instruction s) as [[returned|e0] s0] eqn:E.
  - destruct returned; discriminate.
  - intros [= _ <-]. eapply PS5EMU1_dispatch_raises_in_place. exact E.
Qed.

Lemma PS5EMU1_fetch_execute_raises_in_place (s s' : Emulator) (e : exn) :
  PS5EMU1_fetch_execute s = (Raise e, s') -> s' = s.
Proof.
  unfold PS5EMU1_fetch_execute, mbind, St_mbind, St_bind, get_pc, gets, reading.
  cbv beta iota.
  destruct (PS5EMU1.read_uint32 py_int (mem s) (pc (cpu s))) as [instruction|e0].
  - apply PS5EMU1_execute_instruction_raises_in_place.
  - intros [= _ <-]. reflexivity.
Qed.

Lemma PS5EMU1_run_cycle_running (s : Emulator) :
  is_running s = true ->
  PS5EMU1.run_cycle s =
  (PS5EMU1_fetch_execute;;
   p' ← get_pc; n ← gets (fun s => len (mem s));
   if p' >=? n then PS5EMU1.stop else mret tt) s.
Proof.
  intros Hrun. unfold PS5EMU1.run_cycle, PS5EMU1_fetch_execute.
  unfold mbind, mret, St_mbind, St_mret, St_bind, St_ret, get_pc, gets.
  cbv beta iota. rewrite Hrun. cbn [negb]. cbv beta iota.
  destruct (reading (fun m => PS5EMU1.read_uint32 py_int m (pc (cpu s))) s)
    as [[instruction|e] s0]; [|reflexivity].
  destruct (PS5EMU1.execute_instruction instruction s0) as [[[]|e] s1]; reflexivity.
Qed.

(** run_cycle on a running machine: the fetch and execute returned, and
    the check of pc follows; or they raised, and run_cycle raised with
    them, the machine untouched. *)
Lemma PS5EMU1_run_cycle_cases (s : Emulator) :
  is_running s = true ->
  (exists s1, PS5EMU1_fetch_execute s = (Ok tt, s1) /\
     PS5EMU1.run_cycle s =
     (if pc (cpu s1) >=? len (mem s1) then PS5EMU1.stop else mret tt) s1) \/
  (exists e, PS5EMU1_fetch_execute s = (Raise e, s) /\
     PS5EMU1.run_cycle s = (Raise e, s)).
Proof.
  intros Hon. rewrite (PS5EMU1_run_cycle_running s Hon).
  unfold mbind, mret, St_mbind, St_mret, St_bind, St_ret, get_pc, gets.
  destruct (PS5EMU1_fetch_execute s) as [[[]|e] s1] eqn:E.
  - left. exists s1. split; reflexivity.
  - right. exists e.
    rewrite (PS5EMU1_fetch_execute_raises_in_place _ _ _ E). split; reflexivity.
Qed.

Lemma randint_range (a b seed : Z) : a <= b -> a <= V1.randint a b seed <= b.
Proof.
  intros H. unfold V1.randint.
  pose proof (Z.mod_pos_bound seed (b - a + 1)). lia.
Qed.

Arguments V1.hex_pad : simpl never.
Arguments slice_assign : simpl never.

Lemma V1_run_cycle_running (t : V1.Emulator) (d : V1.draws) :
  V1_wf t -> V1.is_running t = true ->
  exists log fb,
    len fb = 64 * 64 * 4 /\
    V1.run_cycle d t =
    (if V1.pc (V1.cpu t) + 8 >=? V1.size64 (V1.memory t) * 8 then V1.stop else mret tt)
      (V1.mkEmulator (V1.mkCPU (V1.registers (V1.cpu t)) (V1.pc (V1.cpu t) + 8))
         (V1.memory t) true (V1.game_loaded t) fb log (V1.status_queue t)).
Proof.
  destruct t as [[regs p] m running loaded fb lg st]. unfold V1_wf. cbn.
  intros [Hpc Hfb] ->.
  set (x := V1.randint 0 63 (V1.dx d)). set (y := V1.randint 0 63 (V1.dy d)).
  pose proof (randint_range 0 63 (V1.dx d) ltac:(lia)) as Hx. fold x in Hx.
  pose proof (randint_range 0 63 (V1.dy d) ltac:(lia)) as Hy. fold y in Hy.
  set (vals := [uint8 (V1.randint 0 255 (V1.dr d)); uint8 (V1.randint 0 255 (V1.dg d));
                uint8 (V1.randint 0 255 (V1.db d)); uint8 255]).
  assert (Hread : V1.read m p = Ok (V1.cell m (p / 8))).
  { unfold V1.read. rewrite index_in_range; [reflexivity|].
    split; [apply Z.div_pos; lia|apply Z.div_lt_upper_bound; lia]. }
  assert (Hpix : slice_assign fb ((y * 64 + x) * 4) ((y * 64 + x) * 4 + 4) vals =
                 Ok (take (Z.to_nat ((y * 64 + x) * 4)) fb ++ vals ++
                     drop (Z.to_nat ((y * 64 + x) * 4) + length vals) fb)).
  { change ((y * 64 + x) * 4 + 4) with ((y * 64 + x) * 4 + len vals).
    apply slice_assign_fits; [lia|]. change (len vals) with 4. lia. }
  exists (lg ++ [("success", "Executing instruction: 0x" +:+ V1.hex_pad 16 (V1.cell m (p / 8)) "")]),
    (take (Z.to_nat ((y * 64 + x) * 4)) fb ++ vals ++
     drop (Z.to_nat ((y * 64 + x) * 4) + length vals) fb).
  split.
  - apply slice_assign_length in Hpix. unfold len in *. lia.
  - unfold V1.run_cycle, V1.execute_instruction, V1.set_pixel.
    unfold mbind, mret, St_mbind, St_mret, St_bind, St_ret, gets, modify.
    cbn. rewrite Hread. cbn. fold x y. fold vals. rewrite Hpix. cbn. reflexivity.
Qed.

(** C7: run_cycle changes nothing while the machine is not running.
    On a running machine of the 128KB variant (of the constructor's shape,
    with uint32 values in the registers and pc inside memory, as in every
    reachable state) it fetches and executes one instruction.  When that
    returns, run_cycle returns too: if pc was left at or past the memory
    size it ends with stop() (not running, pc 0), otherwise it leaves the
    machine as the instruction left it.  When the instruction raises (LDR
    or STR at a wrapped address), run_cycle raises with it and the machine
    is as before the call.  After a run_cycle that returned, a machine
    that is still running has its pc below the memory size.  run_cycle of
    v1.py always returns, with the same check (its memory size is 8 bytes
    per uint64 cell). *)
Theorem C7_run_cycle_idles_or_keeps_pc_inside_memory :
  (forall s : Emulator, PS5EMU1_wf s -> PS5EMU1_cpu_inside s ->
     let s' := after PS5EMU1.run_cycle s in
     (is_running s = false -> PS5EMU1.run_cycle s = (Ok tt, s)) /\
     (returns PS5EMU1.run_cycle s ->
        is_running s' = true -> pc (cpu s') < len (mem s')) /\
     (is_running s = true ->
        let s1 := after PS5EMU1_fetch_execute s in
        (returns PS5EMU1_fetch_execute s ->
           returns PS5EMU1.run_cycle s /\
           (pc (cpu s1) >= len (mem s1) ->
              s' = after PS5EMU1.stop s1 /\ is_running s' = false /\ pc (cpu s') = 0) /\
           (pc (cpu s1) < len (mem s1) -> s' = s1)) /\
        (~ returns PS5EMU1_fetch_execute s ->
           ~ returns PS5EMU1.run_cycle s /\ s' = s))) /\
  (forall (t : V1.Emulator) (d : V1.draws), V1_wf t ->
     let t' := after (V1.run_cycle d) t in
     returns (V1.run_cycle d) t /\
     (V1.is_running t = false -> V1.run_cycle d t = (Ok tt, t)) /\
     (V1.is_running t' = true -> V1.pc (V1.cpu t') < V1.size64 (V1.memory t') * 8) /\
     (V1.is_running t = true -> V1.pc (V1.cpu t) + 8 >= V1.size64 (V1.memory t) * 8 ->
        V1.is_running t' = false /\ V1.pc (V1.cpu t') = 0)).
Proof.
  split.
  - intros s Hwf _ s'.
    assert (Hidle : is_running s = false -> PS5EMU1.run_cycle s = (Ok tt, s)).
    { intros Hoff. unfold PS5EMU1.run_cycle. run. rewrite Hoff. reflexivity. }
    split; [exact Hidle|]. split.
    + intros Hret Hstill. subst s'. destruct (is_running s) eqn:Hrun.
      * destruct (PS5EMU1_run_cycle_cases s Hrun) as [(s1 & _ & Hrc)|(e & _ & Hrc)].
        -- unfold after in *. rewrite Hrc in *.
           destruct (Z.geb_spec (pc (cpu s1)) (len (mem s1))) as [Hge|Hlt].
           ++ cbn in Hstill. discriminate Hstill.
           ++ exact Hlt.
        -- exfalso. exact (raises_not_returns _ _ _ _ Hrc Hret).
      * unfold after in *. rewrite (Hidle eq_refl) in *. cbn in Hstill. congruence.
    + intros Hon s1. subst s' s1.
      destruct (PS5EMU1_run_cycle_cases s Hon) as [(s1 & Hfe & Hrc)|(e & Hfe & Hrc)].
      * split.
        -- intros _. unfold after, returns. rewrite Hfe, Hrc. cbn [snd].
           destruct (Z.geb_spec (pc (cpu s1)) (len (mem s1))) as [Hge|Hlt].
           ++ split; [exists tt; reflexivity|]. split; [|lia].
              intros _. repeat split; reflexivity.
           ++ split; [exists tt; reflexivity|]. split; [lia|].
              intros _. reflexivity.
        -- intros Hno. exfalso. apply Hno. exists tt. rewrite Hfe. reflexivity.
      * split.
        -- intros Hret. exfalso. exact (raises_not_returns _ _ _ _ Hfe Hret).
        -- intros _. split; [exact (raises_not_returns _ _ _ _ Hrc)|].
           unfold after. rewrite Hrc. reflexivity.
  - intros t d Hwf t'.
    assert (Hidle : V1.is_running t = false -> V1.run_cycle d t = (Ok tt, t)).
    { intros Hoff. unfold V1.run_cycle. run. rewrite Hoff. reflexivity. }
    assert (Hbusy : V1.is_running t = true ->
              returns (V1.run_cycle d) t /\
              (V1.is_running t' = true -> V1.pc (V1.cpu t') < V1.size64 (V1.memory t') * 8) /\
              (V1.pc (V1.cpu t) + 8 >= V1.size64 (V1.memory t) * 8 ->
                 V1.is_running t' = false /\ V1.pc (V1.cpu t') = 0)).
    { intros Hon. subst t'. unfold returns, after.
      destruct (V1_run_cycle_running t d Hwf Hon) as (lg & fb & _ & ->).
      destruct (Z.geb_spec (V1.pc (V1.cpu t) + 8) (V1.size64 (V1.memory t) * 8)) as [Hge|Hlt].
      - cbn. split; [eauto|]. split; [discriminate|]. intros _. split; reflexivity.
      - cbn. split; [eauto|]. split; [intros _; lia|lia]. }
    split; [|split; [exact Hidle|split]].
    + destruct (V1.is_running t) eqn:Hrun; [apply Hbusy; reflexivity|].
      unfold returns. rewrite (Hidle eq_refl). eauto.
    + intros Hstill. destruct (V1.is_running t) eqn:Hrun; [apply Hbusy; auto|].
      subst t'. unfold after in Hstill. rewrite (Hidle eq_refl) in Hstill.
      cbn in Hstill. congruence.
    + intros Hon. apply Hbusy. exact Hon.
Qed.

Lemma V1_init_wf : V1_wf V1.init.
Proof. split; [split; [apply Z.le_refl|reflexivity]|reflexivity]. Qed.

Lemma C7_run_cycle_witness :
  let s := set_is_running true
             (set_cpu (mkCPU (replicate 16 0) (128 * 1024 - 4)) PS5EMU1.init) in
  (is_running (after PS5EMU1.run_cycle s) = false /\
   pc (cpu (after PS5EMU1.run_cycle s)) = 0) /\
  V1.run_cycle (V1.mkDraws 1 2 3 4 5) V1.init = (Ok tt, V1.init).
Proof.
  intros s.
  assert (Hwf : PS5EMU1_wf s).
  { repeat split. eexists. split; [reflexivity|].
    unfold len. rewrite length_replicate. lia. }
  assert (Hin : PS5EMU1_cpu_inside s).
  { split; [apply Forall_replicate; unfold is_uint32; lia|].
    vm_compute. split; [discriminate|reflexivity]. }
  assert (Hfe : returns PS5EMU1_fetch_execute s).
  { exists tt. vm_compute. reflexivity. }
  destruct C7_run_cycle_idles_or_keeps_pc_inside_memory as [H32 H64].
  split.
  - destruct (H32 s Hwf Hin) as (_ & _ & Hbusy).
    destruct (Hbusy eq_refl) as [Hret _].
    destruct (Hret Hfe) as (_ & Hstop & _).
    apply Hstop. vm_compute. discriminate.
  - destruct (H64 V1.init (V1.mkDraws 1 2 3 4 5) V1_init_wf) as (_ & Hidle & _).
    apply Hidle. reflexivity.
Defined.

(** ** load_game *)

Lemma for_each_app {S A : Type} (body : A -> St S unit) (xs ys : list A) (s : S) :
  for_each body (xs ++ ys) s = (for_each body xs;; for_each body ys) s.
Proof.
  revert s. induction xs as [|x xs IH]; intros s; [reflexivity|].
  cbn [app for_each]. unfold mbind, St_mbind, St_bind in *.
  destruct (body x s) as [[[]|e] s1]; [|reflexivity]. apply IH.
Qed.

Lemma set_mem_same (size fb : Z) (s : Emulator) :
  well_formed size fb s -> set_mem (mem s) s = s.
Proof.
  intros (_ & Hmem & _ & m & Hheap & _). destruct s as [h c r v run loaded lg st].
  cbn in *. subst. reflexivity.
Qed.

Lemma set_mem_twice (m1 m2 : list Z) (s : Emulator) :
  set_mem m2 (set_mem m1 s) = set_mem m2 s.
Proof. unfold set_mem. cbn. rewrite list_insert_insert_eq. reflexivity. Qed.

Lemma load_word_writes (game_data : list Z) (i : Z) :
  0 <= i ->
  PS5EMU1.load_word game_data i =
    writing (fun m => PS5EMU1.write_uint32 py_int m i (load_value game_data i)) /\
  EMUPS55.load_word game_data i =
    writing (fun m => EMUPS55.write_uint32 m i (load_value game_data i)).
Proof.
  intros Hi. unfold PS5EMU1.load_word, EMUPS55.load_word.
  rewrite load_word_value by exact Hi. split; reflexivity.
Qed.

Lemma lookup_total_in_range (l : list Z) (k : nat) :
  (k < length l)%nat -> l !! k = Some (l !!! k).
Proof. intros H. apply list_lookup_lookup_total_lt. exact H. Qed.

(** The four bytes [load_game] stores for the word at offset [i]. *)
Lemma load_value_bytes (game_data : list Z) (i : Z) (j : nat) :
  Forall is_byte game_data -> 0 <= i -> (j < 4)%nat ->
  bytes_of_uint32 (load_value game_data i) !! j =
  Some (if i + 4 <=? len game_data then game_data !!! (Z.to_nat i + j)%nat else 0).
Proof.
  intros Hbytes Hi Hj. unfold load_value.
  destruct (Z.leb_spec (i + 4) (len game_data)) as [Hfit|Hcut].
  - rewrite bytes_of_uint32_combine.
    + rewrite lookup_slice by lia. destruct (decide _) as [_|Hno]; [|lia].
      apply lookup_total_in_range. unfold len in *. lia.
    + rewrite slice_length_in_range by lia. lia.
    + rewrite slice_in_range by lia. apply Forall_take, Forall_drop. exact Hbytes.
  - do 4 (destruct j as [|j]; [reflexivity|]). lia.
Qed.

Section Load.

Variable write_uint32 : list Z -> Z -> Z -> result (list Z).

Hypothesis write_fits : forall m a v,
  0 <= a -> a + 4 <= len m ->
  write_uint32 m a v =
  Ok (take (Z.to_nat a) m ++ bytes_of_uint32 v ++ drop (Z.to_nat a + 4) m).

Variable game_data : list Z.

Hypothesis game_data_bytes : Forall is_byte game_data.

Variables size fb : Z.

Lemma load_step (m : list Z) (c : nat) :
  4 * Z.of_nat c + 4 <= len m ->
  exists m',
    write_uint32 m (4 * Z.of_nat c) (load_value game_data (4 * Z.of_nat c)) = Ok m' /\
    length m' = length m /\
    forall k : nat,
      m' !! k =
      if decide (4 * c <= k < 4 * c + 4)%nat
      then Some (if 4 * Z.of_nat c + 4 <=? len game_data then game_data !!! k else 0)
      else m !! k.
Proof.
  intros Hfit. eexists. split; [apply write_fits; lia|].
  pose proof (bytes_of_uint32_length (load_value game_data (4 * Z.of_nat c))) as Hlen.
  unfold len in Hlen, Hfit.
  split.
  - rewrite !length_app, length_take, length_drop. lia.
  - intros k.
    replace (Z.to_nat (4 * Z.of_nat c) + 4)%nat
      with (Z.to_nat (4 * Z.of_nat c) +
            length (bytes_of_uint32 (load_value game_data (4 * Z.of_nat c))))%nat by lia.
    rewrite lookup_splice by lia.
    replace (Z.to_nat (4 * Z.of_nat c)) with (4 * c)%nat by lia.
    replace (length (bytes_of_uint32 (load_value game_data (4 * Z.of_nat c)))) with 4%nat by lia.
    destruct (decide (4 * c <= k < 4 * c + 4)%nat) as [Hin|Hout]; [|reflexivity].
    rewrite load_value_bytes by (try assumption; lia).
    replace (Z.to_nat (4 * Z.of_nat c) + (k - 4 * c))%nat with k by lia. reflexivity.
Qed.

Lemma load_loop (s : Emulator) (c : nat) :
  well_formed size fb s -> 4 * Z.of_nat c <= size ->
  exists m',
    for_each (fun i => writing (fun m => write_uint32 m i (load_value game_data i)))
             ((fun k => 4 * Z.of_nat k) <$> seq 0 c) s = (Ok tt, set_mem m' s) /\
    length m' = length (mem s) /\
    forall k : nat,
      m' !! k =
      if decide (k < 4 * c)%nat
      then (if decide (k < length (mem s))%nat
            then Some (if 4 * (Z.of_nat k / 4) + 4 <=? len game_data
                       then game_data !!! k else 0)
            else None)
      else mem s !! k.
Proof.
  intros Hwf. induction c as [|c IH]; intros Hsize.
  - exists (mem s). split; [|split; [reflexivity|]].
    + cbn. rewrite (set_mem_same size fb) by exact Hwf. reflexivity.
    + intros k. destruct (decide (k < 4 * 0)%nat); [lia|reflexivity].
  - destruct IH as (m1 & Hrun & Hlen1 & Hbytes1); [lia|].
    pose proof (wf_mem _ _ _ Hwf) as [Hsz Hheap].
    destruct (load_step m1 c) as (m2 & Hw & Hlen2 & Hbytes2).
    { unfold len in *. lia. }
    exists m2. split; [|split; [lia|]].
    + rewrite seq_S, fmap_app, for_each_app.
      unfold mbind, St_mbind, St_bind. rewrite Hrun. cbn [fmap list_fmap for_each].
      unfold mbind, mret, St_mbind, St_mret, St_bind, St_ret, writing.
      rewrite mem_set_mem by exact Hheap. cbn [Nat.add]. rewrite Hw.
      rewrite set_mem_twice. reflexivity.
    + intros k. rewrite Hbytes2, Hbytes1.
      assert (Hdiv : (4 * c <= k < 4 * c + 4)%nat -> Z.of_nat k / 4 = Z.of_nat c).
      { intros Hk. symmetry. apply (Z.div_unique _ 4 _ (Z.of_nat k - 4 * Z.of_nat c)); lia. }
      unfold len in *.
      repeat destruct (decide _); try lia; try reflexivity.
      rewrite Hdiv by lia. reflexivity.
Qed.

Lemma load_spec (s : Emulator) :
  well_formed size fb s -> len game_data <= size -> size mod 4 = 0 ->
  exists m',
    for_each (fun i => writing (fun m => write_uint32 m i (load_value game_data i)))
             (py_range (len game_data) 4) s = (Ok tt, set_mem m' s) /\
    length m' = length (mem s) /\
    forall k, 0 <= k < size ->
      m' !! Z.to_nat k = Some (loaded_byte game_data (mem s) k).
Proof.
  intros Hwf Hfits Hsize. pose proof (wf_mem _ _ _ Hwf) as [Hsz _].
  pose proof (len_nonneg game_data) as Hn.
  set (c := Z.to_nat ((len game_data + 4 - 1) / 4)).
  assert (Hc : 4 * Z.of_nat c - 4 < len game_data <= 4 * Z.of_nat c).
  { subst c. rewrite Z2Nat.id by (apply Z.div_pos; lia).
    pose proof (Z.div_mod (len game_data + 4 - 1) 4 ltac:(lia)).
    pose proof (Z.mod_pos_bound (len game_data + 4 - 1) 4 ltac:(lia)). lia. }
  destruct (load_loop s c Hwf) as (m' & Hrun & Hlen & Hbytes).
  { pose proof (Z.div_mod size 4 ltac:(lia)). lia. }
  exists m'. split; [exact Hrun|]. split; [exact Hlen|].
  intros k Hk. rewrite Hbytes. unfold loaded_byte, len in *.
  pose proof (Z.div_mod k 4 ltac:(lia)). pose proof (Z.mod_pos_bound k 4 ltac:(lia)).
  rewrite !Z2Nat.id by lia.
  destruct (decide (Z.to_nat k < 4 * c)%nat) as [Hin|Hout].
  - destruct (decide _) as [_|Hno]; [|lia].
    destruct (Z.leb_spec (4 * (k / 4) + 4) (Z.of_nat (length game_data))); [reflexivity|].
    destruct (Z.ltb_spec (4 * (k / 4)) (Z.of_nat (length game_data))); [reflexivity|lia].
  - destruct (Z.leb_spec (4 * (k / 4) + 4) (Z.of_nat (length game_data))); [lia|].
    destruct (Z.ltb_spec (4 * (k / 4)) (Z.of_nat (length game_data))); [lia|].
    apply lookup_total_in_range. lia.
Qed.

End Load.

Lemma for_each_ext {S A : Type} (f g : A -> St S unit) (xs : list A) :
  Forall (fun x => f x = g x) xs -> for_each f xs = for_each g xs.
Proof.
  induction 1 as [|x xs Hx _ IH]; [reflexivity|].
  cbn [for_each]. rewrite Hx, IH. reflexivity.
Qed.

Lemma checked_write_uint32_fits (t : dtype) (m : list Z) (a v : Z) :
  add t a 4 = a + 4 -> 0 <= a -> a + 4 <= len m ->
  PS5EMU1.write_uint32 t m a v =
  Ok (take (Z.to_nat a) m ++ bytes_of_uint32 v ++ drop (Z.to_nat a + 4) m).
Proof.
  intros Hadd Ha Hfit. unfold PS5EMU1.write_uint32. rewrite Hadd.
  destruct (Z.ltb_spec a 0); [lia|]. destruct (Z.gtb_spec (a + 4) (len m)); [lia|].
  cbn [orb]. pose proof (bytes_of_uint32_length v) as Hlen.
  rewrite <- Hlen at 1. rewrite slice_assign_fits by lia.
  replace (length (bytes_of_uint32 v)) with 4%nat by (unfold len in Hlen; lia).
  reflexivity.
Qed.

Lemma unchecked_write_uint32_fits (m : list Z) (a v : Z) :
  0 <= a -> a + 4 <= len m ->
  EMUPS55.write_uint32 m a v =
  Ok (take (Z.to_nat a) m ++ bytes_of_uint32 v ++ drop (Z.to_nat a + 4) m).
Proof.
  intros Ha Hfit. unfold EMUPS55.write_uint32.
  pose proof (bytes_of_uint32_length v) as Hlen.
  rewrite <- Hlen at 1. rewrite slice_assign_fits by lia.
  replace (length (bytes_of_uint32 v)) with 4%nat by (unfold len in Hlen; lia).
  reflexivity.
Qed.

(** C6 as stated fails: the five bytes 1 2 3 4 5 leave byte 4 of memory
    at 0, not at 5; the trailing partial word is not stored, a zero word
    is. *)
Lemma C6_trailing_bytes_are_dropped :
  ~ (forall game_data : list Z,
       Forall is_byte game_data -> len game_data mod 4 <> 0 ->
       forall k, 4 * (len game_data / 4) <= k < len game_data ->
         mem (after (PS5EMU1.load_game game_data) PS5EMU1.init) !! Z.to_nat k =
         game_data !! Z.to_nat k).
Proof.
  intros H. specialize (H [1; 2; 3; 4; 5]).
  assert (Hb : Forall is_byte [1; 2; 3; 4; 5]).
  { repeat constructor; unfold is_byte; lia. }
  specialize (H Hb ltac:(discriminate) 4 ltac:(vm_compute; split; [discriminate|reflexivity])).
  vm_compute in H. discriminate H.
Qed.

(** C6, amended: for a file that fits in memory, load_game returns and
    stores every whole four-byte word of the file at its offset; when the
    length is not a multiple of four, the four bytes of memory at the last,
    partial word are all set to 0 (the trailing one to three bytes of the
    file are not stored); memory beyond is unchanged.  Afterwards
    game_loaded is true, the log has a warning and then a success event
    more, the status queue a success event more.  Both 32-bit variants. *)
Theorem C6_load_game_stores_whole_words_and_zeroes_the_tail
    (s : Emulator) (game_data : list Z) :
  Forall is_byte game_data ->
  forall (load_game : list Z -> M unit) (size fb : Z),
    (load_game = PS5EMU1.load_game /\ size = 128 * 1024 /\ fb = 128 * 128 * 4) \/
    (load_game = EMUPS55.load_game /\ size = 64 * 1024 /\ fb = 64 * 64 * 4) ->
    well_formed size fb s -> len game_data <= size ->
    let s' := after (load_game game_data) s in
    returns (load_game game_data) s /\
    (forall k, 0 <= k < size ->
       mem s' !! Z.to_nat k = Some (loaded_byte game_data (mem s) k)) /\
    (forall k, 4 * (len game_data / 4) <= k < 4 * (len game_data / 4) + 4 ->
       len game_data mod 4 <> 0 -> loaded_byte game_data (mem s) k = 0) /\
    (forall k, 0 <= k < 4 * (len game_data / 4) ->
       loaded_byte game_data (mem s) k = game_data !!! Z.to_nat k) /\
    game_loaded s' = true /\
    log_queue s' = log_queue s ++ [("warning", "Loading program...");
                                   ("success", "Program loaded successfully.")] /\
    status_queue s' = status_queue s ++ [("Program loaded", "success")] /\
    cpu s' = cpu s /\ is_running s' = is_running s.
Proof.
  intros Hbytes load_game size fb Hvariant Hwf Hfits s'.
  pose proof (len_nonneg game_data) as Hn.
  pose proof (Z.div_mod (len game_data) 4 ltac:(lia)) as Hdm.
  pose proof (Z.mod_pos_bound (len game_data) 4 ltac:(lia)) as Hmod.
  assert (Hloop : exists m',
            load_game game_data s =
            (Ok tt, put_status ("Program loaded", "success")
                      (put_log ("success", "Program loaded successfully.")
                         (set_game_loaded true
                            (set_mem m' (put_log ("warning", "Loading program...") s))))) /\
            forall k, 0 <= k < size ->
              m' !! Z.to_nat k = Some (loaded_byte game_data (mem s) k)).
  { assert (Hwf0 : well_formed size fb (put_log ("warning", "Loading program...") s))
      by exact Hwf.
    destruct Hvariant as [(-> & Hsize & _)|(-> & Hsize & _)].
    - destruct (load_spec (PS5EMU1.write_uint32 py_int)
                  (fun m a v => checked_write_uint32_fits py_int m a v eq_refl)
                  game_data Hbytes
                  size fb _ Hwf0 Hfits) as (m' & Hrun & _ & Hm'); [subst size; reflexivity|].
      exists m'. split; [|exact Hm'].
      unfold PS5EMU1.load_game.
      rewrite (for_each_ext (PS5EMU1.load_word game_data)
                 (fun i => writing (fun m => PS5EMU1.write_uint32 py_int m i
                                             (load_value game_data i)))).
      + unfold mbind, St_mbind, St_bind, modify in *. rewrite Hrun. reflexivity.
      + eapply Forall_impl; [apply py_range_nonneg; lia|].
        intros i Hi. apply load_word_writes. exact Hi.
    - destruct (load_spec EMUPS55.write_uint32 unchecked_write_uint32_fits game_data Hbytes
                  size fb _ Hwf0 Hfits) as (m' & Hrun & _ & Hm'); [subst size; reflexivity|].
      exists m'. split; [|exact Hm'].
      unfold EMUPS55.load_game.
      rewrite (for_each_ext (EMUPS55.load_word game_data)
                 (fun i => writing (fun m => EMUPS55.write_uint32 m i (load_value game_data i)))).
      + unfold mbind, St_mbind, St_bind, modify in *. rewrite Hrun. reflexivity.
      + eapply Forall_impl; [apply py_range_nonneg; lia|].
        intros i Hi. apply load_word_writes. exact Hi. }
  destruct Hloop as (m' & Hrun & Hm').
  subst s'. unfold returns, after. rewrite Hrun. cbn [fst snd].
  pose proof (wf_mem _ _ _ Hwf) as [_ Hheap].
  split; [eauto|]. split; [|split; [|split]].
  - intros k Hk. rewrite <- Hm' by exact Hk.
    change (mem (put_status _ ?t)) with (mem t).
    change (mem (put_log _ ?t)) with (mem t).
    change (mem (set_game_loaded _ ?t)) with (mem t).
    rewrite mem_set_mem by exact Hheap. reflexivity.
  - intros k Hk Hodd. unfold loaded_byte.
    assert (Hq : k / 4 = len game_data / 4).
    { symmetry. apply (Z.div_unique _ 4 _ (k - 4 * (len game_data / 4))); lia. }
    rewrite Hq.
    destruct (Z.leb_spec (4 * (len game_data / 4) + 4) (len game_data)); [lia|].
    destruct (Z.ltb_spec (4 * (len game_data / 4)) (len game_data)); [reflexivity|lia].
  - intros k Hk. unfold loaded_byte.
    pose proof (Z.div_mod k 4 ltac:(lia)). pose proof (Z.mod_pos_bound k 4 ltac:(lia)).
    destruct (Z.leb_spec (4 * (k / 4) + 4) (len game_data)); [reflexivity|lia].
  - cbn [game_loaded log_queue status_queue cpu is_running
         put_status put_log set_game_loaded set_mem].
    rewrite <- app_assoc. repeat split; reflexivity.
Qed.

Lemma C6_load_game_witness :
  let s' := after (PS5EMU1.load_game [1; 2; 3; 4; 5]) PS5EMU1.init in
  mem s' !! 4%nat = Some 0 /\ mem s' !! 3%nat = Some 4 /\ game_loaded s' = true.
Proof.
  intros s'.
  assert (Hb : Forall is_byte [1; 2; 3; 4; 5]).
  { repeat constructor; unfold is_byte; lia. }
  assert (Hfits : len [1; 2; 3; 4; 5] <= 128 * 1024).
  { vm_compute. discriminate. }
  destruct (C6_load_game_stores_whole_words_and_zeroes_the_tail
              PS5EMU1.init [1; 2; 3; 4; 5] Hb PS5EMU1.load_game (128 * 1024) (128 * 128 * 4)
              (or_introl (conj eq_refl (conj eq_refl eq_refl))) PS5EMU1_init_wf Hfits)
    as (_ & Hmem & Hzero & Hwhole & Hloaded & _).
  split; [|split; [|exact Hloaded]].
  - rewrite <- (Hzero 4).
    + apply (Hmem 4). lia.
    + vm_compute. split; [discriminate|reflexivity].
    + vm_compute. discriminate.
  - change (Some 4) with (Some ([1; 2; 3; 4; 5] !!! Z.to_nat 3)).
    rewrite <- (Hwhole 3).
    + apply (Hmem 3). lia.
    + vm_compute. split; [discriminate|reflexivity].
Defined.

(** ** The framebuffer and memory *)

(** A uint32 store of the little-endian value of four bytes is the
    write_bytes of those bytes. *)
Lemma write_uint32_of_bytes (m : list Z) (a : Z) (vals : list Z) :
  length vals = 4%nat -> Forall is_byte vals ->
  EMUPS55.write_uint32 m a (le_combine vals) = EMUPS55.write_bytes m a vals /\
  PS5EMU1.write_uint32 np_uint32 m a (le_combine vals) = PS5EMU1.write_bytes m a vals.
Proof.
  intros Hlen Hbytes.
  unfold EMUPS55.write_uint32, EMUPS55.write_bytes, PS5EMU1.write_uint32, PS5EMU1.write_bytes.
  rewrite bytes_of_uint32_combine by assumption.
  replace (len vals) with 4 by (unfold len; lia). split; reflexivity.
Qed.

Lemma scaled_channels_are_bytes (w m r g b a : Z) :
  0 <= m -> 0 <= r < w -> 0 <= g < w -> 0 <= b < w -> 0 <= a < w -> (w - 1) * m < 256 ->
  Forall is_byte [r * m; g * m; b * m; a * m].
Proof. intros. repeat constructor; unfold is_byte; nia. Qed.

Lemma EMUPS55_store_runs (s : Emulator) (instruction : Z) :
  EMUPS55_wf s -> Z.land (Z.shiftr instruction 24) 0xFF = 4 ->
  EMUPS55.execute_instruction instruction s =
  (writing (fun m => EMUPS55.write_uint32 m
                       (reg s (Z.land (Z.shiftr instruction 16) 0xF))
                       (reg s (Z.land (Z.shiftr instruction 20) 0xF)));;
   p ← get_pc; set_pc (p + 4)) s.
Proof.
  intros Hwf Hop. unfold EMUPS55.execute_instruction, EMUPS55.dispatch.
  rewrite Hop. cbn [Z.eqb Pos.eqb].
  unfold mbind, St_mbind, St_bind. rewrite !get_reg_field by apply Hwf. reflexivity.
Qed.

Lemma EMUPS55_setpixel_runs (s : Emulator) (instruction : Z) :
  Z.land (Z.shiftr instruction 24) 0xFF = 5 ->
  EMUPS55.execute_instruction instruction s =
  (writing (fun m => EMUPS55.write_bytes m
                       (Z.land (Z.shiftr instruction 16) 0xF * 64 * 4 +
                        Z.land (Z.shiftr instruction 20) 0xF * 4)
                       [Z.land (Z.shiftr instruction 12) 0xF * 17;
                        Z.land (Z.shiftr instruction 8) 0xF * 17;
                        Z.land (Z.shiftr instruction 4) 0xF * 17;
                        Z.land instruction 0xF * 17]);;
   p ← get_pc; set_pc (p + 4)) s.
Proof.
  intros Hop. unfold EMUPS55.execute_instruction, EMUPS55.dispatch.
  rewrite Hop. cbn [Z.eqb Pos.eqb]. rewrite setpixel_guard_4bit. cbn [fmap list_fmap].
  pose proof (field4_range (Z.shiftr instruction 12)).
  pose proof (field4_range (Z.shiftr instruction 8)).
  pose proof (field4_range (Z.shiftr instruction 4)).
  pose proof (field4_range instruction).
  rewrite !uint8_small by lia. reflexivity.
Qed.

Lemma PS5EMU1_store_runs (s : Emulator) (instruction : Z) :
  PS5EMU1_wf s -> Z.land (Z.shiftr instruction 24) 0xFF = 4 ->
  PS5EMU1.execute_instruction instruction s =
  (writing (fun m => PS5EMU1.write_uint32 np_uint32 m
                       (reg s (Z.land (Z.shiftr instruction 16) 0xF))
                       (reg s (Z.land (Z.shiftr instruction 20) 0xF)));;
   p ← get_pc; set_pc (p + 4)) s.
Proof.
  intros Hwf Hop. unfold PS5EMU1.execute_instruction, PS5EMU1.dispatch.
  rewrite Hop. cbn [Z.eqb Pos.eqb].
  unfold mbind, mret, St_mbind, St_mret, St_bind, St_ret.
  rewrite !get_reg_field by apply Hwf.
  destruct (writing _ s) as [[[]|e] s1]; reflexivity.
Qed.

Lemma PS5EMU1_setpixel_runs (s : Emulator) (instruction : Z) :
  Z.land (Z.shiftr instruction 24) 0xFF = 5 ->
  Z.land (Z.shiftr instruction 20) 0xFF < 128 ->
  Z.land (Z.shiftr instruction 12) 0xFF < 128 ->
  PS5EMU1.execute_instruction instruction s =
  (writing (fun m => PS5EMU1.write_bytes m
                       (Z.land (Z.shiftr instruction 12) 0xFF * 128 * 4 +
                        Z.land (Z.shiftr instruction 20) 0xFF * 4)
                       [Z.land (Z.shiftr instruction 9) 0x7 * 36;
                        Z.land (Z.shiftr instruction 6) 0x7 * 36;
                        Z.land (Z.shiftr instruction 3) 0x7 * 36;
                        Z.land instruction 0x7 * 36]);;
   p ← get_pc; set_pc (p + 4)) s.
Proof.
  intros Hop Hx Hy. unfold PS5EMU1.execute_instruction, PS5EMU1.dispatch.
  rewrite Hop. cbn [Z.eqb Pos.eqb]. rewrite setpixel_guard_8bit by assumption.
  cbn [fmap list_fmap].
  pose proof (field3_range (Z.shiftr instruction 9)).
  pose proof (field3_range (Z.shiftr instruction 6)).
  pose proof (field3_range (Z.shiftr instruction 3)).
  pose proof (field3_range instruction).
  rewrite !uint8_small by lia.
  unfold mbind, mret, St_mbind, St_mret, St_bind, St_ret.
  destruct (writing _ s) as [[[]|e] s1]; reflexivity.
Qed.

(** C5 as stated fails on v1.py: its framebuffer is an array of its own,
    so after a load has put a 1 into byte 0 of memory, byte 0 of the
    framebuffer still is 0. *)
Lemma C5_v1_framebuffer_is_a_separate_array :
  ~ (forall t : V1.Emulator, V1.reachable t ->
       forall k, 0 <= k < 64 * 64 * 4 ->
         V1.framebuffer t !! Z.to_nat k = Some (V1.memory_byte t k)).
Proof.
  intros H.
  specialize (H _ (V1.reachable_call _ (V1.LoadGame [1; 0; 0; 0; 0; 0; 0; 0])
                     V1.reachable_init) 0 ltac:(lia)).
  vm_compute in H. discriminate H.
Qed.

(** C5, amended: in the two variants that build the framebuffer as a
    slice of memory (EMUPS55, PS5EMU1), in every reachable state the
    framebuffer read back is exactly the bytes of memory from 0 to
    width * height * 4; and a STORE of the little-endian word of the four
    scaled channel bytes to a pixel's address leaves the same framebuffer,
    and the same machine, as the SETPIXEL of that pixel. *)
Theorem C5_framebuffer_is_a_view_of_memory :
  (forall s, EMUPS55.reachable s ->
     framebuffer_bytes s = slice (mem s) 0 (64 * 64 * 4)) /\
  (forall s, PS5EMU1.reachable s ->
     framebuffer_bytes s = slice (mem s) 0 (128 * 128 * 4)) /\
  (forall s store pixel, EMUPS55.reachable s ->
     Z.land (Z.shiftr store 24) 0xFF = 4 ->
     Z.land (Z.shiftr pixel 24) 0xFF = 5 ->
     let x := Z.land (Z.shiftr pixel 20) 0xF in
     let y := Z.land (Z.shiftr pixel 16) 0xF in
     let r := Z.land (Z.shiftr pixel 12) 0xF in
     let g := Z.land (Z.shiftr pixel 8) 0xF in
     let b := Z.land (Z.shiftr pixel 4) 0xF in
     let a := Z.land pixel 0xF in
     reg s (Z.land (Z.shiftr store 16) 0xF) = y * 64 * 4 + x * 4 ->
     reg s (Z.land (Z.shiftr store 20) 0xF) = le_combine [r * 17; g * 17; b * 17; a * 17] ->
     after (EMUPS55.execute_instruction store) s =
       after (EMUPS55.execute_instruction pixel) s /\
     framebuffer_bytes (after (EMUPS55.execute_instruction store) s) =
       framebuffer_bytes (after (EMUPS55.execute_instruction pixel) s)) /\
  (forall s store pixel, PS5EMU1.reachable s ->
     Z.land (Z.shiftr store 24) 0xFF = 4 ->
     Z.land (Z.shiftr pixel 24) 0xFF = 5 ->
     let x := Z.land (Z.shiftr pixel 20) 0xFF in
     let y := Z.land (Z.shiftr pixel 12) 0xFF in
     let r := Z.land (Z.shiftr pixel 9) 0x7 in
     let g := Z.land (Z.shiftr pixel 6) 0x7 in
     let b := Z.land (Z.shiftr pixel 3) 0x7 in
     let a := Z.land pixel 0x7 in
     x < 128 -> y < 128 ->
     reg s (Z.land (Z.shiftr store 16) 0xF) = y * 128 * 4 + x * 4 ->
     reg s (Z.land (Z.shiftr store 20) 0xF) = le_combine [r * 36; g * 36; b * 36; a * 36] ->
     after (PS5EMU1.execute_instruction store) s =
       after (PS5EMU1.execute_instruction pixel) s /\
     framebuffer_bytes (after (PS5EMU1.execute_instruction store) s) =
       framebuffer_bytes (after (PS5EMU1.execute_instruction pixel) s)).
Proof.
  split; [|split; [|split]].
  - intros s Hreach. apply EMUPS55_reachable_wf in Hreach.
    pose proof (wf_mem _ _ _ Hreach) as [Hlen _].
    rewrite (wf_framebuffer_bytes (64 * 1024) (64 * 64 * 4)) by (try assumption; lia).
    rewrite slice_in_range by lia. reflexivity.
  - intros s Hreach. apply PS5EMU1_reachable_wf in Hreach.
    pose proof (wf_mem _ _ _ Hreach) as [Hlen _].
    rewrite (wf_framebuffer_bytes (128 * 1024) (128 * 128 * 4)) by (try assumption; lia).
    rewrite slice_in_range by lia. reflexivity.
  - intros s store pixel Hreach Hstore Hpixel x y r g b a Haddr Hval.
    apply EMUPS55_reachable_wf in Hreach.
    assert (Hsame : EMUPS55.execute_instruction store s =
                    EMUPS55.execute_instruction pixel s).
    { rewrite EMUPS55_store_runs, EMUPS55_setpixel_runs by assumption.
      fold x y r g b a. rewrite Haddr, Hval.
      unfold mbind, St_mbind, St_bind, writing.
      destruct (write_uint32_of_bytes (mem s) (y * 64 * 4 + x * 4)
                  [r * 17; g * 17; b * 17; a * 17] eq_refl) as [-> _]; [|reflexivity].
      apply (scaled_channels_are_bytes 16); try lia; apply field4_range. }
    unfold after. rewrite Hsame. split; reflexivity.
  - intros s store pixel Hreach Hstore Hpixel x y r g b a Hx Hy Haddr Hval.
    apply PS5EMU1_reachable_wf in Hreach.
    assert (Hsame : PS5EMU1.execute_instruction store s =
                    PS5EMU1.execute_instruction pixel s).
    { rewrite PS5EMU1_store_runs, PS5EMU1_setpixel_runs by assumption.
      fold x y r g b a. rewrite Haddr, Hval.
      unfold mbind, St_mbind, St_bind, writing.
      destruct (write_uint32_of_bytes (mem s) (y * 128 * 4 + x * 4)
                  [r * 36; g * 36; b * 36; a * 36] eq_refl) as [_ ->]; [|reflexivity].
      apply (scaled_channels_are_bytes 8); try lia; apply field3_range. }
    unfold after. rewrite Hsame. split; reflexivity.
Qed.

Lemma C5_framebuffer_witness :
  let s := after (EMUPS55.perform EMUPS55.RunCycle)
             (after (EMUPS55.perform EMUPS55.RunCycle)
                (after (EMUPS55.perform EMUPS55.Start)
                   (after (EMUPS55.perform (EMUPS55.LoadGame [255; 0; 255; 0; 0; 0; 16; 3]))
                      EMUPS55.init))) in
  let store := Z.lor (Z.lor (Z.shiftl 4 24) (Z.shiftl 1 20)) (Z.shiftl 2 16) in
  let pixel := Z.lor (Z.lor (Z.shiftl 5 24) (Z.shiftl 15 12)) (Z.shiftl 15 4) in
  framebuffer_bytes (after (EMUPS55.execute_instruction store) s) =
  framebuffer_bytes (after (EMUPS55.execute_instruction pixel) s).
Proof.
  intros s store pixel.
  assert (Hreach : EMUPS55.reachable s).
  { repeat apply EMUPS55.reachable_call. apply EMUPS55.reachable_init. }
  assert (Haddr : reg s (Z.land (Z.shiftr store 16) 0xF) =
                  Z.land (Z.shiftr pixel 16) 0xF * 64 * 4 + Z.land (Z.shiftr pixel 20) 0xF * 4).
  { vm_compute. reflexivity. }
  assert (Hval : reg s (Z.land (Z.shiftr store 20) 0xF) =
                 le_combine [Z.land (Z.shiftr pixel 12) 0xF * 17;
                             Z.land (Z.shiftr pixel 8) 0xF * 17;
                             Z.land (Z.shiftr pixel 4) 0xF * 17;
                             Z.land pixel 0xF * 17]).
  { vm_compute. reflexivity. }
  destruct C5_framebuffer_is_a_view_of_memory as (_ & _ & Hstore & _).
  exact (proj2 (Hstore s store pixel Hreach eq_refl eq_refl Haddr Hval)).
Defined.

(** * Further properties of the cores *)

(** ** The bounds-checked Memory *)



Lemma slice_of_splice_whole (l vals : list Z) (a : Z) :
  0 <= a -> a + len vals <= len l ->
  slice (take (Z.to_nat a) l ++ vals ++ drop (Z.to_nat a + length vals) l)
        a (a + len vals) = vals.
Proof.
  intros Ha Hfit. pose proof (len_nonneg vals) as Hv. unfold len in *.
  apply list_eq. intros k.
  rewrite lookup_slice.
  2: lia.
  2: { unfold len. rewrite !length_app, length_take, length_drop. lia. }
  destruct (decide _) as [Hin|Hout].
  - rewrite lookup_splice by lia.
    destruct (decide _) as [_|Hno]; [f_equal; lia|lia].
  - symmetry. apply lookup_ge_None_2. lia.
Qed.

(** X2: a value of the uint32 range written inside memory is read back
    at the same address, in both 32-bit variants (in the 128KB variant
    for a Python int address, and for a uint32 address whose word ends
    below 2^32), and the write changes no byte outside the four of the
    word. *)
Theorem X2_write_then_read_uint32 (t : dtype) (memory : list Z) (address value : Z) :
  0 <= address -> address + 4 <= len memory ->
  t = py_int \/ address + 4 < 2 ^ 32 ->
  0 <= value < 2 ^ 32 ->
  exists m',
    PS5EMU1.write_uint32 t memory address value = Ok m' /\
    EMUPS55.write_uint32 memory address value = Ok m' /\
    PS5EMU1.read_uint32 t m' address = Ok value /\
    EMUPS55.read_uint32 m' address = Ok value /\
    length m' = length memory /\
    forall k : nat, ~ (address <= Z.of_nat k < address + 4) -> m' !! k = memory !! k.
Proof.
  intros Ha Hfit Ht Hvalue.
  assert (Hadd : add t address 4 = address + 4)
    by (apply add_below_the_wrap; [lia|exact Ht]).
  eexists.
  split; [apply checked_write_uint32_fits; assumption|].
  split; [apply unchecked_write_uint32_fits; assumption|].
  pose proof (bytes_of_uint32_length value) as Hlen.
  set (m' := take (Z.to_nat address) memory ++ bytes_of_uint32 value ++
             drop (Z.to_nat address + 4) memory).
  assert (Hm' : length m' = length memory).
  { subst m'. rewrite !length_app, length_take, length_drop. unfold len in *. lia. }
  assert (Hword : slice m' address (address + 4) = bytes_of_uint32 value).
  { subst m'. rewrite <- Hlen.
    replace (Z.to_nat address + 4)%nat
      with (Z.to_nat address + length (bytes_of_uint32 value))%nat by (unfold len in Hlen; lia).
    apply slice_of_splice_whole; lia. }
  assert (Hread : le_combine (slice m' address (address + 4)) = value).
  { rewrite Hword. unfold bytes_of_uint32, uint32. rewrite le_combine_split.
    change (2 ^ (8 * Z.of_nat 4)) with (2 ^ 32).
    rewrite Z.mod_mod by lia. apply Z.mod_small. exact Hvalue. }
  assert (Hother : forall k : nat,
            ~ (address <= Z.of_nat k < address + 4) -> m' !! k = memory !! k).
  { intros k Hk. subst m'.
    replace (Z.to_nat address + 4)%nat
      with (Z.to_nat address + length (bytes_of_uint32 value))%nat
      by (unfold len in Hlen; lia).
    rewrite lookup_splice by (unfold len in *; lia).
    destruct (decide _) as [Hin|_]; [|reflexivity]. unfold len in *. lia. }
  clearbody m'.
  destruct (checked_read_uint32_in_range t m' address) as [Hr1 Hr2];
    [lia|unfold len in *; lia|exact Hadd|].
  rewrite Hr1, Hr2, Hread. repeat split; assumption.
Qed.

Lemma X2_write_then_read_witness :
  exists m',
    PS5EMU1.write_uint32 np_uint32 [0; 0; 0; 0; 0; 0; 0; 0] 4 258 = Ok m' /\
    PS5EMU1.read_uint32 np_uint32 m' 4 = Ok 258.
Proof.
  assert (Hfit : 4 + 4 <= len [0; 0; 0; 0; 0; 0; 0; 0]).
  { vm_compute. discriminate. }
  assert (Hvalue : 0 <= 258 < 2 ^ 32).
  { vm_compute. split; [discriminate|reflexivity]. }
  destruct (X2_write_then_read_uint32 np_uint32 [0; 0; 0; 0; 0; 0; 0; 0] 4 258
              ltac:(discriminate) Hfit (or_intror eq_refl) Hvalue)
    as (m' & Hw & _ & Hr & _).
  exists m'. split; [exact Hw|exact Hr].
Defined.

(** ** SETPIXEL of the 128KB variant *)

(** X3: in the 128KB variant the 8-bit x field of SETPIXEL starts at bit
    20 and so takes its upper four bits from the opcode: for every
    SETPIXEL word x is 80 plus the word's bits 20..23, a column from 80 to
    95.  The test on x therefore always holds: the pixel is written
    whenever y < 128, and nothing is written otherwise. *)
Theorem X3_setpixel_x_carries_the_opcode (instruction : Z) :
  Z.land (Z.shiftr instruction 24) 0xFF = 5 ->
  let x := Z.land (Z.shiftr instruction 20) 0xFF in
  let y := Z.land (Z.shiftr instruction 12) 0xFF in
  x = 80 + Z.land (Z.shiftr instruction 20) 0xF /\
  80 <= x <= 95 /\
  (y < 128 ->
   PS5EMU1.dispatch instruction =
   (writing (fun m => PS5EMU1.write_bytes m (y * 128 * 4 + x * 4)
                        (uint8 <$> ((fun val => val * 36) <$>
                           [Z.land (Z.shiftr instruction 9) 0x7;
                            Z.land (Z.shiftr instruction 6) 0x7;
                            Z.land (Z.shiftr instruction 3) 0x7;
                            Z.land instruction 0x7])));;
    mret false)) /\
  (128 <= y -> PS5EMU1.dispatch instruction = mret false).
Proof.
  intros Hop x y.
  assert (Hx : x = 80 + Z.land (Z.shiftr instruction 20) 0xF).
  { subst x. change 0xFF with (Z.ones 8) in *. change 0xF with (Z.ones 4).
    rewrite !Z.land_ones in * by lia. rewrite !Z.shiftr_div_pow2 in * by lia.
    replace (instruction / 2 ^ 24) with (instruction / 2 ^ 20 / 2 ^ 4) in Hop
      by (rewrite Z.div_div by lia; reflexivity).
    change (2 ^ 4) with 16 in *. change (2 ^ 8) with 256 in *.
    generalize dependent (instruction / 2 ^ 20). intros q Hop.
    pose proof (Z.div_mod q 16 ltac:(lia)). pose proof (Z.mod_pos_bound q 16 ltac:(lia)).
    pose proof (Z.div_mod (q / 16) 256 ltac:(lia)).
    symmetry. apply (Z.mod_unique_pos _ _ (16 * (q / 16 / 256))); lia. }
  pose proof (field4_range (Z.shiftr instruction 20)) as H4.
  split; [exact Hx|]. split; [lia|]. split.
  - intros Hy. unfold PS5EMU1.dispatch. rewrite Hop. cbn [Z.eqb Pos.eqb].
    fold x y. rewrite (setpixel_guard_8bit x y) by lia. reflexivity.
  - intros Hy. unfold PS5EMU1.dispatch. rewrite Hop. cbn [Z.eqb Pos.eqb].
    fold x y. destruct (Z.ltb_spec y 128); [lia|].
    rewrite andb_false_r. reflexivity.
Qed.

Lemma X3_setpixel_x_witness :
  Z.land (Z.shiftr (Z.lor (Z.lor (Z.shiftl 5 24) (Z.shiftl 1 12)) (Z.lor (Z.shiftl 7 9) 7)) 20)
         0xFF = 80 + 0.
Proof.
  apply (X3_setpixel_x_carries_the_opcode
           (Z.lor (Z.lor (Z.shiftl 5 24) (Z.shiftl 1 12)) (Z.lor (Z.shiftl 7 9) 7))).
  reflexivity.
Defined.

(** ** What a call of the 128KB variant leaves *)

Lemma PS5EMU1_run_cycle_raises_in_place (s : Emulator) :
  ~ returns PS5EMU1.run_cycle s -> after PS5EMU1.run_cycle s = s.
Proof.
  intros Hno. destruct (is_running s) eqn:Hrun.
  - destruct (PS5EMU1_run_cycle_cases s Hrun) as [(s1 & _ & Hrc)|(e & _ & Hrc)].
    + exfalso. apply Hno. unfold returns. rewrite Hrc.
      destruct (pc (cpu s1) >=? len (mem s1)); exists tt; reflexivity.
    + unfold after. rewrite Hrc. reflexivity.
  - exfalso. apply Hno. exists tt.
    unfold PS5EMU1.run_cycle. run. rewrite Hrun. reflexivity.
Qed.

(** *** Registers and pc between calls *)

Section Cpu_invariant.

Variable R : CPU -> Prop.

Local Abbreviation on_cpu := (fun s : Emulator => R (cpu s)).

Lemma keeps_cpu_modify (f : Emulator -> Emulator) :
  (forall s, cpu (f s) = cpu s) -> keeps on_cpu (modify f).
Proof. intros Hf s Hs. unfold after, modify. cbn. rewrite Hf. exact Hs. Qed.

Lemma keeps_cpu_get_reg (i : Z) : keeps on_cpu (get_reg i).
Proof. intros s Hs. exact Hs. Qed.

Lemma keeps_cpu_reading {A : Type} (f : list Z -> result A) : keeps on_cpu (reading f).
Proof. intros s Hs. exact Hs. Qed.

Lemma keeps_cpu_writing (f : list Z -> result (list Z)) : keeps on_cpu (writing f).
Proof.
  intros s Hs. unfold after, writing. destruct (f (mem s)); exact Hs.
Qed.

Lemma keeps_cpu_set_reg (i v : Z) :
  (forall c k, R c -> R (mkCPU (<[k := uint32 v]> (registers c)) (pc c))) ->
  keeps on_cpu (set_reg i v).
Proof.
  intros HR s Hs. unfold after, set_reg, setitem.
  destruct (index (len (registers (cpu s))) i); cbn; [apply HR|]; exact Hs.
Qed.

Lemma keeps_cpu_set_pc (v : Z) :
  (forall c, R c -> R (mkCPU (registers c) v)) -> keeps on_cpu (set_pc v).
Proof. intros HR s Hs. apply HR. exact Hs. Qed.

End Cpu_invariant.

Ltac keeps_cpu :=
  repeat first
    [ apply total_keeps; first [apply total_ret | apply total_gets]
    | apply keeps_cpu_get_reg
    | apply keeps_cpu_reading
    | apply keeps_cpu_writing
    | apply keeps_lift
    | apply keeps_cpu_modify; intros ?; reflexivity
    | apply keeps_bind; [|intros ?]
    | apply keeps_for_each; intros ?
    | match goal with
      | |- keeps _ (if ?c then _ else _) => destruct c
      | |- keeps _ (let '(_, _) := ?p in _) => destruct p
      end ].

(** load_game, load_demo, start and pause leave the cpu alone. *)
Lemma PS5EMU1_cpu_untouched (c : PS5EMU1.call) (s : Emulator) :
  c <> PS5EMU1.Stop -> c <> PS5EMU1.RunCycle ->
  cpu (after (PS5EMU1.perform c) s) = cpu s.
Proof.
  intros Hstop Hrun.
  assert (H : keeps (fun s' => eq (cpu s) (cpu s')) (PS5EMU1.perform c)).
  { destruct c; try congruence; cbn [PS5EMU1.perform];
      unfold PS5EMU1.load_game, PS5EMU1.load_word, PS5EMU1.load_demo,
        PS5EMU1.start, PS5EMU1.pause; keeps_cpu. }
  symmetry. apply H. reflexivity.
Qed.

(** An instruction leaves uint32 values in the registers and a pc that is
    not negative. *)
Lemma PS5EMU1_execute_instruction_in_range (instruction : Z) :
  keeps (fun s => cpu_in_range (cpu s)) (PS5EMU1.execute_instruction instruction).
Proof.
  assert (Hreg : forall v (c : CPU) (k : nat),
            cpu_in_range c -> cpu_in_range (mkCPU (<[k := uint32 v]> (registers c)) (pc c))).
  { intros v c k [Hregs Hpc]. split; [|exact Hpc]. cbn.
    apply Forall_insert; [exact Hregs|].
    unfold is_uint32, uint32. apply Z.mod_pos_bound. lia. }
  assert (Hpc : forall v, 0 <= v -> forall c : CPU,
            cpu_in_range c -> cpu_in_range (mkCPU (registers c) v)).
  { intros v Hv c [Hregs _]. split; assumption. }
  unfold PS5EMU1.execute_instruction. apply keeps_bind.
  - unfold PS5EMU1.dispatch. cbv zeta.
    repeat first
      [ apply keeps_cpu_set_reg; apply Hreg
      | apply keeps_cpu_set_pc; apply Hpc;
        first [ apply Z.land_nonneg; right; discriminate
              | refine (proj1 (Z.mod_pos_bound _ _ _)); reflexivity ]
      | progress keeps_cpu ].
  - intros returned. destruct returned; [apply total_keeps, total_ret|].
    intros s [Hregs Hp]. split; [exact Hregs|].
    unfold after, mbind, St_mbind, St_bind, get_pc, set_pc, gets, modify. cbn. lia.
Qed.

Lemma PS5EMU1_fetch_execute_in_range :
  keeps (fun s => cpu_in_range (cpu s)) PS5EMU1_fetch_execute.
Proof.
  unfold PS5EMU1_fetch_execute.
  apply keeps_bind; [keeps_cpu|]. intros p.
  apply keeps_bind; [keeps_cpu|]. intros instruction.
  apply PS5EMU1_execute_instruction_in_range.
Qed.

(** Every call leaves uint32 values in the registers and pc inside memory. *)
Lemma PS5EMU1_perform_inside (c : PS5EMU1.call) (s : Emulator) :
  PS5EMU1_wf s -> PS5EMU1_cpu_inside s -> PS5EMU1_cpu_inside (after (PS5EMU1.perform c) s).
Proof.
  intros Hwf [Hregs Hpc].
  assert (Hsame : c <> PS5EMU1.Stop -> c <> PS5EMU1.RunCycle ->
            PS5EMU1_cpu_inside (after (PS5EMU1.perform c) s)).
  { intros Hstop Hrun. unfold PS5EMU1_cpu_inside.
    rewrite PS5EMU1_cpu_untouched by assumption. split; assumption. }
  destruct c; try (apply Hsame; discriminate).
  - split; [exact Hregs|]. change (0 <= 0 < 128 * 1024). lia.
  - cbn [PS5EMU1.perform]. destruct (is_running s) eqn:Hrun.
    + pose proof (PS5EMU1_run_cycle_keeps s Hwf) as Hwf'.
      pose proof (PS5EMU1_fetch_execute_in_range s (conj Hregs (proj1 Hpc))) as Hin.
      destruct (PS5EMU1_run_cycle_cases s Hrun) as [(s1 & Hfe & Hrc)|(e & _ & Hrc)].
      * unfold after in *. rewrite Hfe in Hin. rewrite Hrc in *. cbn [snd] in Hin.
        destruct Hin as [Hregs1 Hpc1].
        destruct (Z.geb_spec (pc (cpu s1)) (len (mem s1))) as [Hge|Hlt].
        -- split; [exact Hregs1|]. change (0 <= 0 < 128 * 1024). lia.
        -- cbn [snd mret St_mret St_ret] in *.
           pose proof (wf_mem _ _ _ Hwf') as [Hlen _].
           split; [exact Hregs1|]. lia.
      * unfold after. rewrite Hrc. split; assumption.
    + unfold after, PS5EMU1.run_cycle. run. rewrite Hrun. cbn. split; assumption.
Qed.

Lemma PS5EMU1_reachable_inside (s : Emulator) :
  PS5EMU1.reachable s -> PS5EMU1_cpu_inside s.
Proof.
  induction 1 as [|s c Hreach IH].
  - split; [|cbn; lia]. apply Forall_replicate. unfold is_uint32. lia.
  - apply PS5EMU1_perform_inside; [apply PS5EMU1_reachable_wf; exact Hreach|exact IH].
Qed.

(** The pc run_cycle fetches at reads the same word as a Python int and
    as a uint32. *)
Lemma PS5EMU1_fetch_type_immaterial (s : Emulator) :
  PS5EMU1.reachable s ->
  PS5EMU1.read_uint32 np_uint32 (mem s) (pc (cpu s)) =
  PS5EMU1.read_uint32 py_int (mem s) (pc (cpu s)).
Proof.
  intros Hreach. destruct (PS5EMU1_reachable_inside s Hreach) as [_ Hpc].
  apply checked_read_uint32_below_the_wrap. lia.
Qed.

(** X4: every state the Tk layer can reach in the 128KB variant has 16
    registers holding values below 2^32, a pc inside memory, the one
    128KB buffer and the framebuffer view on it, and every call keeps
    them.  load_game with any file, load_demo, start, pause and stop
    return without raising.  run_cycle can raise (LDR or STR at a wrapped
    address): a call that raises is a run_cycle, and it leaves the machine
    exactly as it found it. *)
Theorem X4_checked_variant_raises_only_in_place (s : Emulator) (c : PS5EMU1.call) :
  PS5EMU1.reachable s ->
  let s' := after (PS5EMU1.perform c) s in
  (PS5EMU1_wf s /\ PS5EMU1_cpu_inside s) /\
  (PS5EMU1_wf s' /\ PS5EMU1_cpu_inside s') /\
  (c <> PS5EMU1.RunCycle -> returns (PS5EMU1.perform c) s) /\
  (~ returns (PS5EMU1.perform c) s -> c = PS5EMU1.RunCycle /\ s' = s).
Proof.
  intros Hreach s'. pose proof (PS5EMU1_reachable_inside s Hreach) as Hin.
  apply PS5EMU1_reachable_wf in Hreach.
  split; [split; assumption|].
  split; [split; [apply PS5EMU1_perform_keeps|apply PS5EMU1_perform_inside]; assumption|].
  split; [intros Hc; apply PS5EMU1_perform_total; assumption|].
  intros Hno.
  assert (Hc : c = PS5EMU1.RunCycle).
  { destruct c; try reflexivity; exfalso; apply Hno;
      apply PS5EMU1_perform_total; try discriminate; exact Hreach. }
  split; [exact Hc|]. subst c s'. apply PS5EMU1_run_cycle_raises_in_place. exact Hno.
Qed.

Lemma X4_checked_variant_witness :
  returns (PS5EMU1.perform (PS5EMU1.LoadGame [1; 2; 3; 4; 5]))
          (after (PS5EMU1.perform PS5EMU1.Start)
                 (after (PS5EMU1.perform PS5EMU1.LoadDemo) PS5EMU1.init)).
Proof.
  assert (Hreach : PS5EMU1.reachable
                     (after (PS5EMU1.perform PS5EMU1.Start)
                            (after (PS5EMU1.perform PS5EMU1.LoadDemo) PS5EMU1.init))).
  { repeat apply PS5EMU1.reachable_call. apply PS5EMU1.reachable_init. }
  assert (Hc : PS5EMU1.LoadGame [1; 2; 3; 4; 5] <> PS5EMU1.RunCycle) by discriminate.
  exact (proj1 (proj2 (proj2 (X4_checked_variant_raises_only_in_place _ _ Hreach))) Hc).
Defined.

(** ** LDR and STR at a wrapped address in the 128KB variant *)

Lemma PS5EMU1_fetch (s : Emulator) :
  PS5EMU1.read_uint32 py_int (mem s) (pc (cpu s)) = Ok (PS5EMU1_fetched s).
Proof.
  unfold PS5EMU1_fetched. cbv zeta.
  destruct ((pc (cpu s) <? 0) || (pc (cpu s) + 4 >? len (mem s))) eqn:Hguard.
  - unfold PS5EMU1.read_uint32, add. rewrite Hguard. reflexivity.
  - apply orb_false_iff in Hguard. destruct Hguard as [Hneg Hpast].
    apply checked_read_uint32_in_range; [lia|lia|reflexivity].
Qed.

Lemma reg_is_uint32 (s : Emulator) (x : Z) :
  length (registers (cpu s)) = 16%nat -> Forall is_uint32 (registers (cpu s)) ->
  is_uint32 (reg s (Z.land x 0xF)).
Proof.
  intros Hlen Hregs. unfold reg. apply Forall_lookup_total_1; [exact Hregs|].
  pose proof (field4_range x). lia.
Qed.

(** Below the wrap the bounds-checked accesses return. *)
Lemma checked_access_below_the_wrap (memory : list Z) (A value : Z) (values : list Z) :
  (0 <= A -> A + 4 < 2 ^ 32) ->
  (0 <= A -> A + len values < 2 ^ 32) ->
  (exists v, PS5EMU1.read_uint32 np_uint32 memory A = Ok v) /\
  (exists m', PS5EMU1.write_uint32 np_uint32 memory A value = Ok m' /\
              length m' = length memory) /\
  (exists m', PS5EMU1.write_bytes memory A values = Ok m' /\
              length m' = length memory).
Proof.
  intros Hword Hbytes.
  assert (Hlength : forall m',
            PS5EMU1.write_uint32 np_uint32 memory A value = Ok m' ->
            exists m', PS5EMU1.write_uint32 np_uint32 memory A value = Ok m' /\
                       length m' = length memory).
  { intros m' H. exists m'. split; [exact H|].
    eapply checked_write_uint32_length. exact H. }
  assert (Hlength' : forall m', PS5EMU1.write_bytes memory A values = Ok m' ->
            exists m', PS5EMU1.write_bytes memory A values = Ok m' /\
                       length m' = length memory).
  { intros m' H. exists m'. split; [exact H|].
    eapply checked_write_bytes_length. exact H. }
  destruct (Z_lt_ge_dec A 0) as [Hneg|Hpos].
  - destruct (checked_access_turned_away np_uint32 memory A (or_introl Hneg)) as [Hr Hw].
    split; [eauto|]. split; [eauto|].
    apply (Hlength' memory). unfold PS5EMU1.write_bytes.
    destruct (Z.ltb_spec A 0); [reflexivity|lia].
  - assert (Hadd : add np_uint32 A 4 = A + 4) by (apply add_exact; lia).
    pose proof (len_nonneg values) as Hv.
    split; [|split].
    + destruct (Z_le_gt_dec (A + 4) (len memory)) as [Hfit|Hcut].
      * eexists. apply checked_read_uint32_in_range; [lia|lia|exact Hadd].
      * exists 0. apply checked_access_turned_away. right. rewrite Hadd. exact Hcut.
    + destruct (Z_le_gt_dec (A + 4) (len memory)) as [Hfit|Hcut].
      * eapply Hlength. apply checked_write_uint32_fits; [exact Hadd|lia|lia].
      * apply (Hlength memory).
        apply checked_access_turned_away. right. rewrite Hadd. exact Hcut.
    + destruct (Z_le_gt_dec (A + len values) (len memory)) as [Hfit|Hcut].
      * eapply Hlength'. unfold PS5EMU1.write_bytes. rewrite add_exact by lia.
        destruct (Z.ltb_spec A 0); [lia|].
        destruct (Z.gtb_spec (A + len values) (len memory)); [lia|].
        apply slice_assign_fits; lia.
      * apply (Hlength' memory). unfold PS5EMU1.write_bytes. rewrite add_exact by lia.
        destruct (Z.gtb_spec (A + len values) (len memory)); [|lia].
        rewrite orb_true_r. reflexivity.
Qed.

(** An instruction returns unless it is an LDR or STR whose address
    register holds one of the last four uint32 values. *)
Lemma PS5EMU1_dispatch_returns (instruction : Z) (s : Emulator) :
  PS5EMU1_wf s -> Forall is_uint32 (registers (cpu s)) ->
  ~ ((Z.land (Z.shiftr instruction 24) 0xFF = 3 \/
      Z.land (Z.shiftr instruction 24) 0xFF = 4) /\
     2 ^ 32 - 4 <= reg s (Z.land (Z.shiftr instruction 16) 0xF)) ->
  returns (PS5EMU1.dispatch instruction) s.
Proof.
  intros Hwf Hregs Hno.
  assert (Hlen : length (registers (cpu s)) = 16%nat) by apply Hwf.
  pose proof (reg_is_uint32 s (Z.shiftr instruction 16) Hlen Hregs) as Haddr.
  unfold is_uint32 in Haddr.
  assert (Htotal : forall m : M bool, total PS5EMU1_wf m -> returns m s).
  { intros m Hm. apply Hm. exact Hwf. }
  unfold PS5EMU1.dispatch. cbv zeta.
  destruct (Z.eqb_spec (Z.land (Z.shiftr instruction 24) 0xFF) 0); [apply Htotal; total_auto|].
  destruct (Z.eqb_spec (Z.land (Z.shiftr instruction 24) 0xFF) 1); [apply Htotal; total_auto|].
  destruct (Z.eqb_spec (Z.land (Z.shiftr instruction 24) 0xFF) 2); [apply Htotal; total_auto|].
  destruct (Z.eqb_spec (Z.land (Z.shiftr instruction 24) 0xFF) 3) as [Hop|_].
  { assert (Hbelow : reg s (Z.land (Z.shiftr instruction 16) 0xF) < 2 ^ 32 - 4).
    { apply Z.nle_gt. intros Hwrap. apply Hno. split; [left; exact Hop|exact Hwrap]. }
    destruct (checked_access_below_the_wrap (mem s)
                (reg s (Z.land (Z.shiftr instruction 16) 0xF)) 0 [])
      as [[v Hread] _]; [intros _; lia|intros _; change (len []) with 0; lia|].
    unfold returns, mbind, mret, St_mbind, St_mret, St_bind, St_ret.
    rewrite get_reg_field by exact Hlen. unfold reading. rewrite Hread.
    rewrite set_reg_field by exact Hlen. eexists. reflexivity. }
  destruct (Z.eqb_spec (Z.land (Z.shiftr instruction 24) 0xFF) 4) as [Hop|_].
  { assert (Hbelow : reg s (Z.land (Z.shiftr instruction 16) 0xF) < 2 ^ 32 - 4).
    { apply Z.nle_gt. intros Hwrap. apply Hno. split; [right; exact Hop|exact Hwrap]. }
    destruct (checked_access_below_the_wrap (mem s)
                (reg s (Z.land (Z.shiftr instruction 16) 0xF))
                (reg s (Z.land (Z.shiftr instruction 20) 0xF)) [])
      as (_ & (m' & Hwrite & _) & _);
      [intros _; lia|intros _; change (len []) with 0; lia|].
    unfold returns, mbind, mret, St_mbind, St_mret, St_bind, St_ret.
    rewrite !get_reg_field by exact Hlen. unfold writing. rewrite Hwrite.
    eexists. reflexivity. }
  destruct (Z.eqb_spec (Z.land (Z.shiftr instruction 24) 0xFF) 5) as [Hop|_].
  { destruct ((Z.land (Z.shiftr instruction 20) 0xFF <? 128) &&
              (Z.land (Z.shiftr instruction 12) 0xFF <? 128)); [|apply Htotal; total_auto].
    pose proof (field8_range (Z.shiftr instruction 20)) as Hx.
    pose proof (field8_range (Z.shiftr instruction 12)) as Hy.
    match goal with
    | |- returns (writing (fun m => PS5EMU1.write_bytes m ?a ?vals);; _) _ =>
        destruct (checked_access_below_the_wrap (mem s) a 0 vals)
          as (_ & _ & (m' & Hwrite & _));
          [intros _; lia|intros _; change (len vals) with 4; lia|]
    end.
    unfold returns, mbind, mret, St_mbind, St_mret, St_bind, St_ret, writing.
    rewrite Hwrite. eexists. reflexivity. }
  destruct (Z.land (Z.shiftr instruction 24) 0xFF =? 6); [apply Htotal; total_auto|].
  destruct (Z.land (Z.shiftr instruction 24) 0xFF =? 7); apply Htotal; total_auto.
Qed.

(** X13: run_cycle of the 128KB variant raises exactly at a wrapped
    address.  On a running machine of the constructor's shape, with
    uint32 values in the registers and pc inside memory, when the word
    fetched is an LDR (opcode 3) or an STR (opcode 4) whose address
    register holds a value from 2^32 - 4 on, the bounds check adds 4 to
    the address in 32 bits and lets the access through: run_cycle raises
    IndexError (LDR) or ValueError (STR) and leaves the machine as it was,
    pc included, so that the next run_cycle raises again.  For every
    other word run_cycle returns. *)
Theorem X13_wrapped_address_raises_in_the_checked_variant (s : Emulator) :
  PS5EMU1_wf s -> PS5EMU1_cpu_inside s -> is_running s = true ->
  let instruction := PS5EMU1_fetched s in
  let opcode := Z.land (Z.shiftr instruction 24) 0xFF in
  let address := reg s (Z.land (Z.shiftr instruction 16) 0xF) in
  (opcode = 3 -> 2 ^ 32 - 4 <= address ->
   PS5EMU1.run_cycle s = (Raise IndexError, s)) /\
  (opcode = 4 -> 2 ^ 32 - 4 <= address ->
   PS5EMU1.run_cycle s = (Raise ValueError, s)) /\
  (~ ((opcode = 3 \/ opcode = 4) /\ 2 ^ 32 - 4 <= address) ->
   returns PS5EMU1.run_cycle s).
Proof.
  intros Hwf [Hregs Hpc] Hrun instruction opcode address.
  pose proof (wf_mem _ _ _ Hwf) as [Hlen _].
  assert (Hregs16 : length (registers (cpu s)) = 16%nat) by apply Hwf.
  pose proof (reg_is_uint32 s (Z.shiftr instruction 16) Hregs16 Hregs) as Haddr.
  fold address in Haddr. unfold is_uint32 in Haddr.
  assert (Hrc : PS5EMU1.run_cycle s =
                (PS5EMU1.execute_instruction instruction;;
                 p' ← get_pc; n ← gets (fun s => len (mem s));
                 if p' >=? n then PS5EMU1.stop else mret tt) s).
  { unfold PS5EMU1.run_cycle.
    unfold mbind, mret, St_mbind, St_mret, St_bind, St_ret, get_pc, gets.
    cbv beta iota. rewrite Hrun. cbn [negb]. cbv beta iota.
    unfold reading at 1. rewrite PS5EMU1_fetch. reflexivity. }
  assert (Hraise : forall e,
            PS5EMU1.dispatch instruction s = (Raise e, s) ->
            PS5EMU1.run_cycle s = (Raise e, s)).
  { intros e Hd. rewrite Hrc. unfold PS5EMU1.execute_instruction.
    unfold mbind, St_mbind, St_bind. rewrite Hd. reflexivity. }
  split; [|split].
  - intros Hop Hwrap. apply Hraise.
    destruct (checked_access_wrapped (mem s) address) as [Hread _]; [lia|lia|].
    unfold PS5EMU1.dispatch. fold opcode. rewrite Hop. cbn [Z.eqb Pos.eqb].
    unfold mbind, mret, St_mbind, St_mret, St_bind, St_ret.
    rewrite !get_reg_field by exact Hregs16. fold address.
    unfold reading. rewrite Hread. reflexivity.
  - intros Hop Hwrap. apply Hraise.
    destruct (checked_access_wrapped (mem s) address) as [_ Hwrite]; [lia|lia|].
    unfold PS5EMU1.dispatch. fold opcode. rewrite Hop. cbn [Z.eqb Pos.eqb].
    unfold mbind, mret, St_mbind, St_mret, St_bind, St_ret.
    rewrite !get_reg_field by exact Hregs16. fold address.
    unfold writing. rewrite Hwrite. reflexivity.
  - intros Hno.
    destruct (PS5EMU1_dispatch_returns instruction s Hwf Hregs Hno) as [returned Hd].
    unfold returns. rewrite Hrc. unfold PS5EMU1.execute_instruction.
    unfold mbind, mret, St_mbind, St_mret, St_bind, St_ret, get_pc, set_pc, gets, modify.
    destruct (PS5EMU1.dispatch instruction s) as [[b|e] s0]; cbn in Hd; [|discriminate Hd].
    destruct b; cbv beta iota;
      match goal with
      | |- context [if ?c then _ else _] => destruct c
      end; exists tt; reflexivity.
Qed.

Lemma X13_wrapped_address_witness :
  let s := after PS5EMU1.run_cycle
             (after PS5EMU1.run_cycle
                (after PS5EMU1.start
                   (after (PS5EMU1.load_game [254; 255; 255; 255; 0; 0; 32; 3; 0; 0; 50; 3])
                          PS5EMU1.init))) in
  PS5EMU1.run_cycle s = (Raise IndexError, s).
Proof.
  intros s.
  assert (Hreach : PS5EMU1.reachable s).
  { exact (PS5EMU1.reachable_call _ PS5EMU1.RunCycle
             (PS5EMU1.reachable_call _ PS5EMU1.RunCycle
                (PS5EMU1.reachable_call _ PS5EMU1.Start
                   (PS5EMU1.reachable_call _
                      (PS5EMU1.LoadGame [254; 255; 255; 255; 0; 0; 32; 3; 0; 0; 50; 3])
                      PS5EMU1.reachable_init)))). }
  assert (Hwf : PS5EMU1_wf s) by exact (PS5EMU1_reachable_wf s Hreach).
  assert (Hin : PS5EMU1_cpu_inside s) by exact (PS5EMU1_reachable_inside s Hreach).
  assert (Hrun : is_running s = true) by (vm_compute; reflexivity).
  assert (Hop : Z.land (Z.shiftr (PS5EMU1_fetched s) 24) 0xFF = 3).
  { vm_compute. reflexivity. }
  assert (Haddr : 2 ^ 32 - 4 <=
                  reg s (Z.land (Z.shiftr (PS5EMU1_fetched s) 16) 0xF)).
  { vm_compute. discriminate. }
  exact (proj1 (X13_wrapped_address_raises_in_the_checked_variant s Hwf Hin Hrun)
               Hop Haddr).
Defined.

(** ** Word access past the end in the 64KB variant *)

Lemma slice_past_the_end {A : Type} (l : list A) (a : Z) :
  0 <= a -> len l < a + 4 ->
  length (slice l a (a + 4)) = Z.to_nat (len l - a).
Proof.
  intros Ha Hcut. unfold slice, slice_len, clip.
  pose proof (len_nonneg l) as Hl.
  destruct (Z.ltb_spec a 0); [lia|]. destruct (Z.ltb_spec (a + 4) 0); [lia|].
  rewrite length_take, length_drop. unfold len in *. lia.
Qed.

Lemma unchecked_read_past_the_end (m : list Z) (a : Z) :
  0 <= a -> len m < a + 4 ->
  EMUPS55.read_uint32 m a = Raise (if a <? len m then ValueError else IndexError).
Proof.
  intros Ha Hcut. unfold EMUPS55.read_uint32, frombuffer.
  pose proof (slice_past_the_end m a Ha Hcut) as Hlen.
  destruct (Z.ltb_spec a (len m)) as [Hin|Hout].
  - rewrite Hlen.
    assert (Hk : (Z.to_nat (len m - a) = 1 \/ Z.to_nat (len m - a) = 2 \/
                  Z.to_nat (len m - a) = 3)%nat) by lia.
    destruct Hk as [-> | [-> | ->]]; reflexivity.
  - assert (Hnil : slice m a (a + 4) = []).
    { apply length_zero_iff_nil. rewrite Hlen. lia. }
    rewrite Hnil. reflexivity.
Qed.

(** X5: in the 64KB variant LDR and STR check no bounds.  On a machine of
    the constructor's shape, an LDR whose address register holds a value
    above 64K - 4 raises (ValueError while the address is inside memory,
    IndexError from 64K on) and an STR to such an address raises
    ValueError; either way the instruction leaves the machine as it was,
    pc included. *)
Theorem X5_unchecked_word_access_past_the_end_raises (s : Emulator) (instruction : Z) :
  EMUPS55_wf s ->
  let address := reg s (Z.land (Z.shiftr instruction 16) 0xF) in
  0 <= address -> 64 * 1024 < address + 4 ->
  (Z.land (Z.shiftr instruction 24) 0xFF = 3 ->
   EMUPS55.execute_instruction instruction s =
   (Raise (if address <? 64 * 1024 then ValueError else IndexError), s)) /\
  (Z.land (Z.shiftr instruction 24) 0xFF = 4 ->
   EMUPS55.execute_instruction instruction s = (Raise ValueError, s)).
Proof.
  intros Hwf address Hpos Hcut. pose proof (wf_mem _ _ _ Hwf) as [Hlen _].
  split; intros Hop; unfold EMUPS55.execute_instruction, EMUPS55.dispatch;
    rewrite Hop; cbn [Z.eqb Pos.eqb]; unfold mbind, St_mbind, St_bind;
    rewrite !get_reg_field by apply Hwf; fold address.
  - unfold reading. rewrite unchecked_read_past_the_end by lia.
    rewrite Hlen. reflexivity.
  - unfold writing, EMUPS55.write_uint32.
    pose proof (bytes_of_uint32_length
                  (reg s (Z.land (Z.shiftr instruction 20) 0xF))) as Hb.
    rewrite <- Hb at 1. rewrite slice_assign_cut by lia. reflexivity.
Qed.

Lemma X5_unchecked_word_access_witness :
  let s := set_cpu (mkCPU (<[0%nat := 65534]> (replicate 16 0)) 0) EMUPS55.init in
  EMUPS55.execute_instruction (Z.lor (Z.shiftl 3 24) (Z.shiftl 1 20)) s =
  (Raise ValueError, s).
Proof.
  intros s.
  assert (Hwf : EMUPS55_wf s).
  { repeat split. eexists. split; [reflexivity|].
    unfold len. rewrite length_replicate. lia. }
  refine (proj1 (X5_unchecked_word_access_past_the_end_raises
                   s (Z.lor (Z.shiftl 3 24) (Z.shiftl 1 20)) Hwf _ _) eq_refl).
  - vm_compute. discriminate.
  - vm_compute. reflexivity.
Defined.

(** X6: whatever the Tk layer calls in the 64KB variant, and whether the
    call returns or raises, the machine keeps the constructor's shape: 16
    registers, one 64KB buffer, and the framebuffer equal to the first
    64 * 64 * 4 bytes of memory. *)
Theorem X6_unchecked_variant_keeps_its_shape (s : Emulator) (c : EMUPS55.call) :
  EMUPS55.reachable s ->
  let s' := after (EMUPS55.perform c) s in
  length (registers (cpu s')) = 16%nat /\
  len (mem s') = 64 * 1024 /\
  framebuffer_bytes s' = take (Z.to_nat (64 * 64 * 4)) (mem s').
Proof.
  intros Hreach s'.
  assert (Hwf : EMUPS55_wf s').
  { apply EMUPS55_perform_keeps, EMUPS55_reachable_wf, Hreach. }
  split; [apply Hwf|]. split; [apply (wf_mem _ _ _ Hwf)|].
  apply (wf_framebuffer_bytes (64 * 1024)); [exact Hwf|lia].
Qed.

Lemma X6_unchecked_variant_witness :
  len (mem (after (EMUPS55.perform EMUPS55.LoadDemo) EMUPS55.init)) = 64 * 1024.
Proof.
  apply (X6_unchecked_variant_keeps_its_shape EMUPS55.init EMUPS55.LoadDemo).
  apply EMUPS55.reachable_init.
Defined.

(** ** v1.py between calls *)

Lemma V1_write_size (m m' : V1.ndarray64) (address value : Z) :
  V1.write m address value = Ok m' -> V1.size64 m' = V1.size64 m.
Proof.
  unfold V1.write. destruct (index (V1.size64 m) (address / 8)) as [k|e]; cbn; [|discriminate].
  intros [= <-]. reflexivity.
Qed.

Lemma V1_writing_keeps (f : V1.ndarray64 -> result V1.ndarray64) :
  (forall m m', f m = Ok m' -> V1.size64 m' = V1.size64 m) ->
  keeps V1_wf (V1.writing f).
Proof.
  intros Hf t [Hpc Hfb]. unfold after, V1.writing.
  destruct (f (V1.memory t)) as [m'|e] eqn:E; cbn; [|split; assumption].
  split; [|exact Hfb]. cbn. rewrite (Hf _ _ E). exact Hpc.
Qed.

Lemma V1_stop_total : total V1_wf V1.stop.
Proof.
  intros t. destruct t as [[regs p] m running loaded fb lg st].
  unfold V1_wf, total, returns, after, V1.stop.
  unfold mbind, St_mbind, St_bind, modify. cbn.
  intros [Hpc Hfb]. split; [eexists; reflexivity|]. lia.
Qed.

Lemma V1_run_cycle_total (d : V1.draws) : total V1_wf (V1.run_cycle d).
Proof.
  intros t Hwf. destruct (V1.is_running t) eqn:Hrun.
  - destruct (V1_run_cycle_running t d Hwf Hrun) as (lg & fb & Hfb & Heq).
    unfold returns, after. rewrite Heq. destruct Hwf as [Hpc _].
    unfold V1_wf, V1.stop, mbind, mret, St_mbind, St_mret, St_bind, St_ret, modify.
    destruct (Z.geb_spec (V1.pc (V1.cpu t) + 8) (V1.size64 (V1.memory t) * 8)); cbn.
    + split; [eexists; reflexivity|]. split; [lia|exact Hfb].
    + split; [eexists; reflexivity|]. split; [lia|exact Hfb].
  - unfold returns, after, V1.run_cycle.
    unfold mbind, mret, St_mbind, St_mret, St_bind, St_ret, gets. rewrite Hrun.
    split; [eexists; reflexivity|exact Hwf].
Qed.

Lemma V1_perform_keeps (c : V1.call) : keeps V1_wf (V1.perform c).
Proof.
  destruct c as [game_data| | | |d]; cbn [V1.perform].
  - unfold V1.load_game.
    apply keeps_bind; [apply total_keeps, total_modify; intros t Ht; exact Ht|]. intros _.
    apply keeps_bind.
    + apply keeps_for_each. intros i. unfold V1.load_word.
      apply keeps_bind; [apply keeps_lift|]. intros value.
      apply V1_writing_keeps. intros m m'. apply V1_write_size.
    + intros _. repeat (apply keeps_bind; [|intros _]);
        apply total_keeps, total_modify; intros t Ht; exact Ht.
  - unfold V1.start. apply keeps_bind; [apply total_keeps, total_gets|]. intros loaded.
    destruct (negb loaded);
      repeat (apply keeps_bind; [|intros _]);
      apply total_keeps, total_modify; intros t Ht; exact Ht.
  - unfold V1.pause. repeat (apply keeps_bind; [|intros _]);
      apply total_keeps, total_modify; intros t Ht; exact Ht.
  - apply total_keeps, V1_stop_total.
  - apply total_keeps, V1_run_cycle_total.
Qed.

Lemma V1_reachable_wf (t : V1.Emulator) : V1.reachable t -> V1_wf t.
Proof.
  induction 1 as [|t c _ IH]; [apply V1_init_wf|].
  apply V1_perform_keeps. exact IH.
Qed.

(** X7: in every state v1.py can reach, pc lies inside the 16GB memory
    and the framebuffer has its 64 * 64 * 4 bytes; from such a state
    run_cycle never raises, whatever the random draws, and it leaves
    memory untouched: its pixel goes to the framebuffer only. *)
Theorem X7_v1_run_cycle_is_safe (t : V1.Emulator) (d : V1.draws) :
  V1.reachable t ->
  0 <= V1.pc (V1.cpu t) < V1.size64 (V1.memory t) * 8 /\
  len (V1.framebuffer t) = 64 * 64 * 4 /\
  returns (V1.run_cycle d) t /\
  V1.memory (after (V1.run_cycle d) t) = V1.memory t.
Proof.
  intros Hreach. apply V1_reachable_wf in Hreach.
  split; [apply Hreach|]. split; [apply Hreach|].
  split; [apply V1_run_cycle_total; exact Hreach|].
  destruct (V1.is_running t) eqn:Hrun.
  - destruct (V1_run_cycle_running t d Hreach Hrun) as (lg & fb & _ & Heq).
    unfold after. rewrite Heq.
    destruct (V1.pc (V1.cpu t) + 8 >=? V1.size64 (V1.memory t) * 8); reflexivity.
  - unfold after, V1.run_cycle.
    unfold mbind, mret, St_mbind, St_mret, St_bind, St_ret, gets. rewrite Hrun.
    reflexivity.
Qed.

Lemma X7_v1_run_cycle_witness :
  returns (V1.run_cycle (V1.mkDraws 7 8 9 10 11))
          (after (V1.perform V1.Start)
                 (after (V1.perform (V1.LoadGame [1; 2; 3])) V1.init)).
Proof.
  apply (X7_v1_run_cycle_is_safe _ (V1.mkDraws 7 8 9 10 11)).
  repeat apply V1.reachable_call. apply V1.reachable_init.
Defined.

(** ** Register instructions *)

(** X8: ADD (opcode 2) on a machine with its 16 registers returns, puts
    (reg[rs] + reg[rt]) mod 2^32 into reg[rd], leaves every other
    register, memory and the queues as they were, and advances pc by 4.
    Both 32-bit variants. *)
Theorem X8_add_wraps_at_32_bits (s : Emulator) (instruction : Z) :
  length (registers (cpu s)) = 16%nat ->
  Z.land (Z.shiftr instruction 24) 0xFF = 2 ->
  forall execute_instruction,
    execute_instruction = PS5EMU1.execute_instruction \/
    execute_instruction = EMUPS55.execute_instruction ->
    let rd := Z.land (Z.shiftr instruction 20) 0xF in
    let rs := Z.land (Z.shiftr instruction 16) 0xF in
    let rt := Z.land (Z.shiftr instruction 12) 0xF in
    let s' := after (execute_instruction instruction) s in
    returns (execute_instruction instruction) s /\
    reg s' rd = (reg s rs + reg s rt) mod 2 ^ 32 /\
    (forall i, 0 <= i < 16 -> i <> rd -> reg s' i = reg s i) /\
    pc (cpu s') = pc (cpu s) + 4 /\
    heap s' = heap s /\ log_queue s' = log_queue s /\ status_queue s' = status_queue s.
Proof.
  intros Hregs Hop execute_instruction Hvariant rd rs rt s'.
  pose proof (field4_range (Z.shiftr instruction 20)) as Hrd. fold rd in Hrd.
  assert (Hrun : execute_instruction instruction s =
                 (Ok tt, set_cpu (mkCPU (<[Z.to_nat rd := uint32 (uint32 (reg s rs + reg s rt))]>
                                           (registers (cpu s)))
                                        (pc (cpu s) + 4)) s)).
  { destruct Hvariant as [-> | ->];
      unfold PS5EMU1.execute_instruction, PS5EMU1.dispatch,
             EMUPS55.execute_instruction, EMUPS55.dispatch;
      rewrite Hop; cbn [Z.eqb Pos.eqb];
      unfold mbind, mret, St_mbind, St_mret, St_bind, St_ret, get_pc, set_pc, gets, modify;
      rewrite !get_reg_field by exact Hregs;
      rewrite set_reg_field by exact Hregs; reflexivity. }
  subst s'. unfold returns, after. rewrite Hrun. cbn [fst snd].
  split; [eauto|]. unfold reg. cbn [cpu set_cpu registers pc heap log_queue status_queue].
  split; [|split; [|repeat split]].
  - rewrite list_lookup_total_insert_eq by lia. unfold uint32. apply Z.mod_mod. lia.
  - intros i Hi Hne. apply list_lookup_total_insert_ne. lia.
Qed.

Lemma X8_add_witness :
  let s := set_cpu (mkCPU (<[1%nat := 2 ^ 32 - 1]> (<[2%nat := 3]> (replicate 16 0))) 0)
                   EMUPS55.init in
  reg (after (EMUPS55.execute_instruction
                (Z.lor (Z.lor (Z.shiftl 2 24) (Z.shiftl 0 20))
                       (Z.lor (Z.shiftl 1 16) (Z.shiftl 2 12)))) s) 0 =
  (reg s 1 + reg s 2) mod 2 ^ 32.
Proof.
  intros s.
  exact (proj1 (proj2 (X8_add_wraps_at_32_bits s
           (Z.lor (Z.lor (Z.shiftl 2 24) (Z.shiftl 0 20))
                  (Z.lor (Z.shiftl 1 16) (Z.shiftl 2 12)))
           eq_refl eq_refl EMUPS55.execute_instruction (or_intror eq_refl)))).
Defined.

(** X9: LDR (opcode 3) with an address inside memory returns and loads
    into reg[rd] the little-endian value (modulo 2^32) of the four memory
    cells at the address held by reg[rs]; memory is unchanged and pc
    advances by 4.  Both 32-bit variants, on a machine of the
    constructor's shape whose memory is smaller than 4GB (so that the
    address of a word inside memory plus 4 does not wrap). *)
Theorem X9_ldr_loads_the_little_endian_word (s : Emulator) (instruction : Z) :
  Z.land (Z.shiftr instruction 24) 0xFF = 3 ->
  forall execute_instruction size fb,
    execute_instruction = PS5EMU1.execute_instruction \/
    execute_instruction = EMUPS55.execute_instruction ->
    well_formed size fb s -> size < 2 ^ 32 ->
    let rd := Z.land (Z.shiftr instruction 20) 0xF in
    let address := reg s (Z.land (Z.shiftr instruction 16) 0xF) in
    0 <= address -> address + 4 <= size ->
    let s' := after (execute_instruction instruction) s in
    returns (execute_instruction instruction) s /\
    reg s' rd = le_combine (slice (mem s) address (address + 4)) mod 2 ^ 32 /\
    mem s' = mem s /\
    pc (cpu s') = pc (cpu s) + 4.
Proof.
  intros Hop execute_instruction size fb Hvariant Hwf Hsize rd address Hpos Hfit s'.
  pose proof (wf_mem _ _ _ Hwf) as [Hlen _].
  pose proof (field4_range (Z.shiftr instruction 20)) as Hrd. fold rd in Hrd.
  assert (Hregs : length (registers (cpu s)) = 16%nat) by apply Hwf.
  destruct (checked_read_uint32_in_range np_uint32 (mem s) address Hpos) as [Hr1 Hr2];
    [lia|apply add_exact; lia|].
  assert (Hrun : execute_instruction instruction s =
                 (Ok tt, set_cpu (mkCPU (<[Z.to_nat rd :=
                                             uint32 (le_combine (slice (mem s) address
                                                                       (address + 4)))]>
                                           (registers (cpu s)))
                                        (pc (cpu s) + 4)) s)).
  { destruct Hvariant as [-> | ->];
      unfold PS5EMU1.execute_instruction, PS5EMU1.dispatch,
             EMUPS55.execute_instruction, EMUPS55.dispatch;
      rewrite Hop; cbn [Z.eqb Pos.eqb];
      unfold mbind, mret, St_mbind, St_mret, St_bind, St_ret, get_pc, set_pc, gets, modify;
      rewrite !get_reg_field by exact Hregs; fold address; unfold reading;
      rewrite ?Hr1, ?Hr2; rewrite set_reg_field by exact Hregs; reflexivity. }
  subst s'. unfold returns, after. rewrite Hrun. cbn [fst snd].
  split; [eauto|]. unfold reg. cbn [cpu set_cpu registers pc].
  split; [|split; reflexivity].
  rewrite list_lookup_total_insert_eq by lia. reflexivity.
Qed.

Lemma X9_ldr_witness :
  let s := after (EMUPS55.perform (EMUPS55.LoadGame [0; 0; 16; 3; 7; 1; 0; 0])) EMUPS55.init in
  reg (after (EMUPS55.execute_instruction (Z.lor (Z.shiftl 3 24) (Z.shiftl 1 20))) s) 1 =
  le_combine (slice (mem s) 0 4) mod 2 ^ 32.
Proof.
  intros s.
  assert (Hwf : EMUPS55_wf s).
  { apply EMUPS55_reachable_wf. apply EMUPS55.reachable_call, EMUPS55.reachable_init. }
  assert (Hpos : 0 <= reg s (Z.land (Z.shiftr (Z.lor (Z.shiftl 3 24) (Z.shiftl 1 20)) 16) 0xF)).
  { vm_compute. discriminate. }
  assert (Hfit : reg s (Z.land (Z.shiftr (Z.lor (Z.shiftl 3 24) (Z.shiftl 1 20)) 16) 0xF) + 4
                 <= 64 * 1024).
  { vm_compute. discriminate. }
  assert (Hsize : 64 * 1024 < 2 ^ 32) by reflexivity.
  assert (Haddr : reg s (Z.land (Z.shiftr (Z.lor (Z.shiftl 3 24) (Z.shiftl 1 20)) 16) 0xF) = 0).
  { vm_compute. reflexivity. }
  pose proof (proj1 (proj2 (X9_ldr_loads_the_little_endian_word s
                (Z.lor (Z.shiftl 3 24) (Z.shiftl 1 20)) eq_refl
                EMUPS55.execute_instruction (64 * 1024) (64 * 64 * 4)
                (or_intror eq_refl) Hwf Hsize Hpos Hfit))) as H.
  cbv zeta in H. rewrite Haddr in H. exact H.
Defined.

(** ** A file longer than memory *)

(** X10: in the 64KB variant a file longer than memory makes load_game
    raise ValueError, at the first word that no longer fits: by then all
    of memory holds the first 64KB of the file, the warning event has been
    logged, and game_loaded and the rest of the machine are as before (no
    success event).  The 128KB variant skips the words that do not fit and
    returns (X4). *)
Theorem X10_unchecked_load_of_a_long_file_raises (s : Emulator) (game_data : list Z) :
  EMUPS55_wf s -> Forall is_byte game_data -> 64 * 1024 < len game_data ->
  let s' := after (EMUPS55.load_game game_data) s in
  fst (EMUPS55.load_game game_data s) = Raise ValueError /\
  mem s' = take (Z.to_nat (64 * 1024)) game_data /\
  game_loaded s' = game_loaded s /\
  cpu s' = cpu s /\ is_running s' = is_running s /\
  log_queue s' = log_queue s ++ [("warning", "Loading program...")] /\
  status_queue s' = status_queue s.
Proof.
  intros Hwf Hbytes Hlong s'.
  pose proof (wf_mem _ _ _ Hwf) as [Hlen Hheap].
  set (s0 := put_log ("warning", "Loading program...") s).
  assert (Hwf0 : EMUPS55_wf s0) by exact Hwf.
  assert (Hc0 : exists c : nat, Z.of_nat c = 16384) by (exists (Z.to_nat 16384); lia).
  destruct Hc0 as [c Hc4].
  destruct (load_loop EMUPS55.write_uint32 unchecked_write_uint32_fits game_data Hbytes
              (64 * 1024) (64 * 64 * 4) s0 c Hwf0) as (m' & Hrun & Hlen' & Hm').
  { lia. }
  assert (Hsplit : py_range (len game_data) 4 =
                   ((fun k => 4 * Z.of_nat k) <$> seq 0 c) ++
                   (64 * 1024) :: ((fun k => 4 * Z.of_nat k) <$>
                      seq (S c) (Z.to_nat ((len game_data + 4 - 1) / 4) - S c))).
  { unfold py_range.
    assert (Hc : (S c <= Z.to_nat ((len game_data + 4 - 1) / 4))%nat).
    { pose proof (Z.div_mod (len game_data + 4 - 1) 4 ltac:(lia)).
      pose proof (Z.mod_pos_bound (len game_data + 4 - 1) 4 ltac:(lia)). lia. }
    replace (Z.to_nat ((len game_data + 4 - 1) / 4))
      with (c + S (Z.to_nat ((len game_data + 4 - 1) / 4) - S c))%nat at 1 by lia.
    rewrite seq_app, fmap_app. cbn [seq fmap list_fmap Nat.add].
    do 2 f_equal; lia. }
  assert (Hraise : EMUPS55.load_game game_data s = (Raise ValueError, set_mem m' s0)).
  { unfold EMUPS55.load_game.
    rewrite (for_each_ext (EMUPS55.load_word game_data)
               (fun i => writing (fun m => EMUPS55.write_uint32 m i (load_value game_data i)))).
    2: { eapply Forall_impl; [apply py_range_nonneg; lia|].
         intros i Hi. apply load_word_writes. exact Hi. }
    rewrite Hsplit.
    unfold mbind at 1 2 3 4. unfold St_mbind, St_bind, modify. fold s0.
    rewrite for_each_app. unfold mbind at 1. unfold St_mbind, St_bind. rewrite Hrun.
    cbn [for_each]. unfold mbind at 1. unfold St_mbind, St_bind, writing.
    rewrite mem_set_mem by exact Hheap. unfold EMUPS55.write_uint32.
    pose proof (bytes_of_uint32_length (load_value game_data (64 * 1024))) as Hb.
    rewrite <- Hb at 1. rewrite slice_assign_cut; [reflexivity|lia| |lia].
    unfold len in *. change (mem s0) with (mem s) in Hlen'. lia. }
  subst s'. unfold after. rewrite Hraise. cbn [fst snd].
  split; [reflexivity|]. split; [|repeat split].
  rewrite mem_set_mem by exact Hheap.
  apply list_eq. intros k. rewrite Hm'. change (mem s0) with (mem s).
  unfold len in *.
  destruct (decide (k < 4 * c)%nat) as [Hin|Hout].
  - destruct (decide _) as [_|Hno]; [|lia].
    rewrite lookup_take_lt by lia.
    destruct (Z.leb_spec (4 * (Z.of_nat k / 4) + 4) (Z.of_nat (length game_data))) as [_|Hcut].
    + symmetry. apply lookup_total_in_range. lia.
    + pose proof (Z.div_mod (Z.of_nat k) 4 ltac:(lia)).
      pose proof (Z.mod_pos_bound (Z.of_nat k) 4 ltac:(lia)). lia.
  - rewrite lookup_ge_None_2 by lia.
    symmetry. apply lookup_ge_None_2. rewrite length_take. lia.
Qed.

Lemma X10_unchecked_load_witness :
  fst (EMUPS55.load_game (replicate (Z.to_nat (64 * 1024 + 1)) 7) EMUPS55.init) =
  Raise ValueError.
Proof.
  apply (X10_unchecked_load_of_a_long_file_raises EMUPS55.init
           (replicate (Z.to_nat (64 * 1024 + 1)) 7)).
  - apply EMUPS55_init_wf.
  - apply Forall_replicate. unfold is_byte. lia.
  - unfold len. rewrite length_replicate. lia.
Defined.

(** ** Pausing, and words that are no instruction *)

(** X11: pause() keeps pc, registers, memory and the loaded flag, and a
    start() after it sets the machine running again: on a running machine
    with a program loaded, pause then start leaves the machine proper as
    it was, having logged the pause and the start.  Both 32-bit
    variants. *)
Theorem X11_pause_then_start_resumes (s : Emulator) :
  is_running s = true -> game_loaded s = true ->
  forall pause start,
    (pause = PS5EMU1.pause /\ start = PS5EMU1.start) \/
    (pause = EMUPS55.pause /\ start = EMUPS55.start) ->
    is_running (after pause s) = false /\
    cpu (after pause s) = cpu s /\ heap (after pause s) = heap s /\
    machine (after start (after pause s)) = machine s /\
    log_queue (after start (after pause s)) =
      log_queue s ++ [("warning", "Emulator paused."); ("success", "Emulator started.")] /\
    status_queue (after start (after pause s)) =
      status_queue s ++ [("Paused", "warning"); ("Running", "success")].
Proof.
  intros Hrun Hloaded pause start [[-> ->] | [-> ->]];
    unfold PS5EMU1.pause, PS5EMU1.start, EMUPS55.pause, EMUPS55.start, machine; run;
    rewrite Hloaded; cbn; rewrite ?Hrun, ?Hloaded, <- ?app_assoc; repeat split; reflexivity.
Qed.

Lemma X11_pause_then_start_witness :
  let s := set_is_running true (set_game_loaded true EMUPS55.init) in
  machine (after EMUPS55.start (after EMUPS55.pause s)) = machine s.
Proof.
  intros s.
  exact (proj1 (proj2 (proj2 (proj2 (X11_pause_then_start_resumes s eq_refl eq_refl
           EMUPS55.pause EMUPS55.start (or_intror (conj eq_refl eq_refl))))))).
Defined.

(** X12: a word whose top byte is no opcode of the variant (above 5 in
    the 64KB variant, which so has no JMP and no BEQ; above 7 in the 128KB
    variant) is not an error that stops anything: the instruction returns,
    puts one error event naming the opcode on the log, advances pc by 4
    and changes nothing else. *)
Theorem X12_unknown_opcode_is_logged_and_skipped (s : Emulator) (instruction : Z) :
  let opcode := Z.land (Z.shiftr instruction 24) 0xFF in
  forall execute_instruction first_unknown,
    (execute_instruction = EMUPS55.execute_instruction /\ first_unknown = 6) \/
    (execute_instruction = PS5EMU1.execute_instruction /\ first_unknown = 8) ->
    first_unknown <= opcode ->
    execute_instruction instruction s =
    (Ok tt, set_cpu (mkCPU (registers (cpu s)) (pc (cpu s) + 4))
              (put_log ("error", "Unknown opcode: " +:+ pretty opcode) s)).
Proof.
  intros opcode execute_instruction first_unknown Hvariant Hop.
  destruct Hvariant as [[-> ->] | [-> ->]];
    unfold EMUPS55.execute_instruction, EMUPS55.dispatch,
           PS5EMU1.execute_instruction, PS5EMU1.dispatch; fold opcode;
    repeat match goal with
           | |- context [opcode =? ?k] => destruct (Z.eqb_spec opcode k); [lia|]
           end;
    reflexivity.
Qed.

Lemma X12_unknown_opcode_witness :
  log_queue (after (EMUPS55.execute_instruction (Z.lor (Z.shiftl 6 24) 16)) EMUPS55.init) =
  [("error", "Unknown opcode: 6")].
Proof.
  pose proof (X12_unknown_opcode_is_logged_and_skipped EMUPS55.init (Z.lor (Z.shiftl 6 24) 16)
                EMUPS55.execute_instruction 6 (or_introl (conj eq_refl eq_refl))) as H.
  unfold after. rewrite H; [reflexivity|]. vm_compute. discriminate.
Defined.
